(** * FileOrganizer: a shallow embedding of [organize_desktop.py]

    The development follows the source file top to bottom:

    - text and path primitives used by the program ([str.lower],
      [str.startswith], [str.endswith], [in], [os.path.join],
      [os.path.splitext], [os.path.dirname]);
    - the configuration loader [load_config], over a store that holds the
      module-level [DEFAULT_CONFIG] and the dictionaries it shares;
    - the skip filter [should_skip_file];
    - [organize_files] and [restore_files], written in a small state and
      exception monad over an abstract operating-system interface [OS];
    - a concrete instance of that interface, [posix], on a finite map from
      paths to nodes.

    Modelling conventions.  A Python [str] is a [string] of UTF-8 bytes; the
    byte-wise prefix, suffix and substring tests coincide with the
    code-point tests of Python on well-formed text.  [str.lower] is a
    function [lower] known only on ASCII text (class [Lower]).  Paths are
    POSIX paths.  In
    the concrete file system a path names an entry exactly when it is the
    key of that entry: paths are taken in normal form (no [.], [..] or
    empty components, no symbolic links), which the theorems about the
    concrete instance state as hypotheses on file and folder names.  The
    confirmation prompts ([input]) are taken as answered. *)

From stdpp Require Import gmap strings list.
From Stdlib Require Import Ascii String ZArith Lia.


Local Set Warnings "-register-all".

(** ** Python [str] primitives *)

Module PyStr.

Definition lower_char (c : ascii) : ascii :=
  let n := nat_of_ascii c in
  if (65 <=? n)%nat && (n <=? 90)%nat then ascii_of_nat (n + 32) else c.

(** [s.lower()] on ASCII text: the capitals [A]..[Z] go to [a]..[z]. *)
Fixpoint lower_ascii (s : string) : string :=
  match s with
  | "" => ""
  | String c s' => String (lower_char c) (lower_ascii s')
  end.

(** [s.isascii()] *)
Fixpoint is_ascii (s : string) : bool :=
  match s with
  | "" => true
  | String c s' => (nat_of_ascii c <? 128)%nat && is_ascii s'
  end.

(** [s] is well-formed UTF-8 (RFC 3629), the text that
    [s.encode('utf-8')] accepts.  [pending] holds the bounds of the bytes
    still to come in the code point at hand: no overlong form, no
    surrogate, nothing above U+10FFFF. *)
Definition between (lo hi : nat) (c : ascii) : bool :=
  (lo <=? nat_of_ascii c)%nat && (nat_of_ascii c <=? hi)%nat.

Fixpoint utf8_from (pending : list (nat * nat)) (s : string) : bool :=
  match s, pending with
  | "", [] => true
  | "", _ :: _ => false
  | String c s', (lo, hi) :: rest => between lo hi c && utf8_from rest s'
  | String c s', [] =>
      if between 0 127 c then utf8_from [] s'
      else if between 194 223 c then utf8_from [(128, 191)] s'
      else if between 224 224 c then utf8_from [(160, 191); (128, 191)] s'
      else if between 225 236 c then utf8_from [(128, 191); (128, 191)] s'
      else if between 237 237 c then utf8_from [(128, 159); (128, 191)] s'
      else if between 238 239 c then utf8_from [(128, 191); (128, 191)] s'
      else if between 240 240 c
        then utf8_from [(144, 191); (128, 191); (128, 191)] s'
      else if between 241 243 c
        then utf8_from [(128, 191); (128, 191); (128, 191)] s'
      else if between 244 244 c
        then utf8_from [(128, 143); (128, 191); (128, 191)] s'
      else false
  end%nat.

Definition utf8_valid (s : string) : bool := utf8_from [] s.

(** [s.startswith(p)] *)
Fixpoint startswith (s p : string) : bool :=
  match p, s with
  | "", _ => true
  | String _ _, "" => false
  | String b p', String a s' => Ascii.eqb a b && startswith s' p'
  end.

(** [s.endswith(p)] *)
Fixpoint endswith (s p : string) : bool :=
  String.eqb s p ||
  match s with
  | "" => false
  | String _ s' => endswith s' p
  end.

(** [p in s] *)
Fixpoint contains (s p : string) : bool :=
  startswith s p ||
  match s with
  | "" => false
  | String _ s' => contains s' p
  end.

(** [c in s] for a single character *)
Fixpoint has_char (c : ascii) (s : string) : bool :=
  match s with
  | "" => false
  | String a s' => Ascii.eqb a c || has_char c s'
  end.

(** [s == c * len(s)] *)
Fixpoint all_char (c : ascii) (s : string) : bool :=
  match s with
  | "" => true
  | String a s' => Ascii.eqb a c && all_char c s'
  end.

(** [(s[:i], s[i:])] for [i = s.rfind(c) + 1] *)
Fixpoint cut_last (c : ascii) (s : string) : string * string :=
  match s with
  | "" => ("", "")
  | String a s' =>
      let '(h, t) := cut_last c s' in
      match h with
      | "" => if Ascii.eqb a c then (String a "", t) else ("", String a t)
      | _ => (String a h, t)
      end
  end.

(** [s.rstrip(c)] *)
Fixpoint rstrip (c : ascii) (s : string) : string :=
  match s with
  | "" => ""
  | String a s' =>
      match rstrip c s' with
      | "" => if Ascii.eqb a c then "" else String a ""
      | r => String a r
      end
  end.

(** [s[:-1]] *)
Fixpoint drop_last (s : string) : string :=
  match s with
  | "" => ""
  | String a s' => match s' with "" => "" | _ => String a (drop_last s') end
  end.

End PyStr.

(** ** [os.path] on POSIX ([posixpath], [genericpath]) *)

Module Path.
Import PyStr.

Abbreviation sep := ("/"%char) (only parsing).
Abbreviation extsep := ("."%char) (only parsing).

(** [os.path.join(a, b)] *)
Definition join (a b : string) : string :=
  if startswith b "/" then b
  else if String.eqb a "" || endswith a "/" then a +:+ b
  else a +:+ "/" +:+ b.

(** [os.path.split(p)] *)
Definition split (p : string) : string * string :=
  let '(head, tail) := cut_last sep p in
  let head :=
    if negb (String.eqb head "") && negb (all_char sep head)
    then rstrip sep head else head in
  (head, tail).

Definition dirname (p : string) : string := fst (split p).
Definition basename (p : string) : string := snd (cut_last sep p).

(** [os.path.splitext(p)]: the extension starts at the last dot of the
    last path component, unless only dots come before it there. *)
Definition splitext (p : string) : string * string :=
  let '(dir, name) := cut_last sep p in
  match cut_last extsep name with
  | ("", _) => (p, "")
  | (stem_dot, ext_tail) =>
      (* [stem_dot] ends with the last dot of [name] *)
      let stem := drop_last stem_dot in
      if all_char extsep stem then (p, "")
      else (dir +:+ stem, String extsep ext_tail)
  end.

End Path.


Import PyStr Path.

(** ** [str.lower]

    Python lowers a [str] by the Unicode case mapping, which reaches beyond
    ASCII and looks at the context of a letter (the capital sigma has two
    lower-case forms).  The development does not fix that table.  It takes
    [s.lower()] as a function of which one law is known, the one every
    Python version obeys: on ASCII text it is [lower_ascii].  Every theorem
    is proved for every such function. *)

Class Lower := {
  lower : string → string;
  lower_ascii_text (s : string) : is_ascii s = true → lower s = lower_ascii s
}.

(** The instance that the examples run with: the letters of their file
    names are ASCII letters or letters that have no case. *)
Global Instance ascii_lower : Lower :=
  {| lower := lower_ascii; lower_ascii_text := λ s _, eq_refl |}.

(** ** Exceptions the program can meet *)

Inductive exn :=
| PermissionError | FileNotFoundError | FileExistsError
| NotADirectoryError | IsADirectoryError | ShutilError | OSError
| JSONDecodeError | UnicodeDecodeError | TypeError | ValueError | KeyError
| AttributeError | UnboundLocalError.

Global Instance exn_eq_dec : EqDecision exn.
Proof. solve_decision. Defined.

(** ** JSON values as [json.load] returns them

    Objects are Python dictionaries: association lists in insertion order.
    Numbers are integers (no configuration or log field is a float). *)

Inductive json :=
| JNull
| JBool (b : bool)
| JNum (n : Z)
| JStr (s : string)
| JArr (items : list json)
| JObj (fields : list (string * json)).

(** the strings of the value, keys and all, are well-formed UTF-8: the
    text of the value can be written to a file opened with
    [encoding='utf-8'] *)
Fixpoint json_encodable (j : json) : bool :=
  match j with
  | JStr s => utf8_valid s
  | JArr items => forallb json_encodable items
  | JObj fields =>
      forallb (fun kv => utf8_valid kv.1 && json_encodable kv.2) fields
  | _ => true
  end.

(** Python truth value *)
Definition truthy (j : json) : bool :=
  match j with
  | JNull => false
  | JBool b => b
  | JNum n => negb (n =? 0)%Z
  | JStr s => negb (String.eqb s "")
  | JArr l => match l with [] => false | _ => true end
  | JObj l => match l with [] => false | _ => true end
  end.

(** ** Dictionaries with string keys *)

Section Dict.
Context {V : Type}.

(** [d.get(k)] *)
Fixpoint dict_get (k : string) (d : list (string * V)) : option V :=
  match d with
  | [] => None
  | (k', v) :: d' => if String.eqb k k' then Some v else dict_get k d'
  end.

(** [d[k] = v]: an existing key keeps its position, a new key goes last *)
Fixpoint dict_set (k : string) (v : V) (d : list (string * V)) : list (string * V) :=
  match d with
  | [] => [(k, v)]
  | (k', v') :: d' =>
      if String.eqb k k' then (k', v) :: d' else (k', v') :: dict_set k v d'
  end.

(** [d.update(other)] for a dictionary [other] *)
Definition dict_merge (d other : list (string * V)) : list (string * V) :=
  fold_left (fun acc kv => dict_set kv.1 kv.2 acc) other d.
End Dict.

(** [d.update(other)] for any JSON value [other].  The result is the
    dictionary as the call leaves it, and the exception if it raised.  A
    sequence is consumed item by item, each item a [[key, value]] pair;
    items of any other shape end the call with an exception (pairs whose
    key is not a string, and two-character strings read as pairs, are not
    part of the configuration format and are counted among them). *)
Fixpoint update_items (d : list (string * json)) (items : list json)
  : list (string * json) * option exn :=
  match items with
  | [] => (d, None)
  | JArr [JStr k; v] :: rest => update_items (dict_set k v d) rest
  | JArr [_; _] :: _ => (d, Some TypeError)
  | JArr _ :: _ | JStr _ :: _ | JObj _ :: _ => (d, Some ValueError)
  | _ :: _ => (d, Some TypeError)
  end.

Definition dict_update (d : list (string * json)) (other : json)
  : list (string * json) * option exn :=
  match other with
  | JObj kv => (dict_merge d kv, None)
  | JArr items => update_items d items
  | JStr "" => (d, None)
  | JStr _ => (d, Some ValueError)
  | JNull | JBool _ | JNum _ => (d, Some TypeError)
  end.

(** ** The configuration system (source lines 10-44) *)

Definition jstrs (l : list string) : json := JArr (JStr <$> l).

Definition default_categories : list (string * json) :=
  [ ("图片", jstrs [".jpg"; ".jpeg"; ".png"; ".gif"; ".bmp"; ".webp"]);
    ("文档", jstrs [".pdf"; ".docx"; ".doc"; ".xlsx"; ".pptx"; ".txt"]);
    ("压缩包", jstrs [".zip"; ".rar"; ".7z"; ".tar"; ".gz"]);
    ("代码", jstrs [".py"; ".js"; ".html"; ".css"; ".java"; ".c"; ".cpp"]);
    ("可执行文件", jstrs [".exe"; ".msi"; ".bat"; ".cmd"]);
    ("快捷方式", jstrs [".lnk"; ".url"; ".desktop"]);
    ("媒体", jstrs [".mp3"; ".mp4"; ".avi"; ".mov"; ".wav"]) ].

(** A value held by the top-level configuration dictionary: an immutable
    or unshared JSON value, or a reference to a dictionary object of the
    store.  [DEFAULT_CONFIG.copy()] copies references, not objects. *)
Inductive value :=
| Imm (j : json)
| Ref (l : nat).

(** The module-level objects: [DEFAULT_CONFIG] itself, whose own entries
    the program never rebinds, and the store holding the dictionary it
    refers to.  (The [skip_files] list is shared too, but lists are only
    read.) *)
Definition categories_loc : nat := 0.

Definition DEFAULT_CONFIG : list (string * value) :=
  [ ("skip_files", Imm (jstrs [".ini"; ".db"; ".tmp"; "~$"]));
    ("backup_log", Imm (JBool true));
    ("categories", Ref categories_loc) ].

Definition initial_store : gmap nat (list (string * json)) :=
  {[ categories_loc := default_categories ]}.

(** What [load_config] finds at [config_path]: nothing, a file that
    cannot be read or parsed, or a JSON object.  (A document of another
    type, which the loop of line 36 would iterate or reject, is not among
    the cases.) *)
Inductive config_file :=
| NoConfigFile                     (* no path given, or no file there *)
| BadConfigFile (e : exn)          (* [open] or [json.load] raised [e] *)
| ConfigFile (user_config : list (string * json)).  (* a JSON object *)

Inductive config_msg :=
| MsgConfigError (e : exn).        (* "配置文件错误: ..., 使用默认配置" *)

(** [isinstance(v, dict)] *)
Definition is_dict (v : value) : bool :=
  match v with
  | Ref _ | Imm (JObj _) => true
  | Imm _ => false
  end.

(** The merge loop of lines 36-40.  It returns the store and the copy as
    the loop leaves them, and the exception that ended it, if any. *)
Fixpoint merge_config (user_config : list (string * json))
    (store : gmap nat (list (string * json))) (config : list (string * value))
  : gmap nat (list (string * json)) * list (string * value) * option exn :=
  match user_config with
  | [] => (store, config, None)
  | (key, uv) :: rest =>
      match dict_get key config with
      | Some (Ref l) =>
          let '(d, r) := dict_update (default [] (store !! l)) uv in
          let store := <[l := d]> store in
          match r with
          | Some e => (store, config, Some e)
          | None => merge_config rest store config
          end
      | Some (Imm (JObj d0)) =>
          let '(d, r) := dict_update d0 uv in
          let config := dict_set key (Imm (JObj d)) config in
          match r with
          | Some e => (store, config, Some e)
          | None => merge_config rest store config
          end
      | _ => merge_config rest store (dict_set key (Imm uv) config)
      end
  end.

Definition load_config (file : config_file)
    (store : gmap nat (list (string * json)))
  : gmap nat (list (string * json)) * list (string * value) * list config_msg :=
  let config := DEFAULT_CONFIG in           (* DEFAULT_CONFIG.copy() *)
  match file with
  | NoConfigFile => (store, config, [])
  | BadConfigFile e => (store, config, [MsgConfigError e])
  | ConfigFile user_config =>
      let '(store, config, r) := merge_config user_config store config in
      (store, config,
       match r with Some e => [MsgConfigError e] | None => [] end)
  end.

(** The configuration as a reader sees it: references followed. *)
Definition deref (store : gmap nat (list (string * json))) (v : value) : json :=
  match v with
  | Imm j => j
  | Ref l => JObj (default [] (store !! l))
  end.

Definition view (store : gmap nat (list (string * json)))
    (config : list (string * value)) : list (string * json) :=
  (fun kv => (kv.1, deref store kv.2)) <$> config.

(** ** The configuration [organize_files] works with (spec §3)

    [load_config] returns a dictionary of JSON values; [organize_files]
    reads three of its entries.  [configuration_of] is that reading for a
    dictionary of the documented shape. *)

Record Configuration := {
  skip_files : list string;
  backup_log : bool;
  categories : list (string * list string);
}.

Definition as_str (j : json) : option string :=
  match j with JStr s => Some s | _ => None end.

Definition as_strs (j : json) : option (list string) :=
  match j with JArr l => mapM as_str l | _ => None end.

Definition as_categories (j : json) : option (list (string * list string)) :=
  match j with
  | JObj kv => mapM (fun kv => pair kv.1 <$> as_strs kv.2) kv
  | _ => None
  end.

Definition configuration_of (config : list (string * json)) : option Configuration :=
  skip ← dict_get "skip_files" config ≫= as_strs;
  log ← dict_get "backup_log" config;
  cats ← dict_get "categories" config ≫= as_categories;
  Some {| skip_files := skip; backup_log := truthy log; categories := cats |}.

(** ** The skip filter (source lines 46-55) *)

Fixpoint should_skip_file {L : Lower} (filename : string)
    (skip_patterns : list string) : bool :=
  let lower_name := lower filename in
  match skip_patterns with
  | [] => false
  | pattern :: rest =>
      if startswith pattern "." && endswith lower_name pattern then true
      else if contains lower_name pattern then true
      else should_skip_file filename rest
  end.

(** ** The operating system as the program uses it *)

(** a reading of the clock *)
Record datetime := {
  isoformat : string;               (* [datetime.isoformat()] *)
  hour : nat;
  minute : nat;
  second : nat;
}.

Definition digit (n : nat) : ascii := ascii_of_nat (48 + n mod 10).

Definition two_digits (n : nat) : string :=
  String (digit (n / 10)) (String (digit n) "").

(** [datetime.strftime('%H%M%S')] *)
Definition hhmmss (t : datetime) : string :=
  two_digits (hour t) +:+ two_digits (minute t) +:+ two_digits (second t).

(** Every call may change the world and may raise.  The tests
    [os.path.exists] and [os.path.isfile] never raise. *)
Class OS (W : Type) := {
  os_home : W → string;                               (* [expanduser('~')] *)
  os_listdir : string → W → exn + list string;
  os_isfile : string → W → bool;
  os_exists : string → W → bool;
  os_makedirs : string → W → W * option exn;   (* [exist_ok=True] *)
  os_move : string → string → W → W * option exn;     (* [shutil.move] *)
  os_remove : string → W → W * option exn;
  os_now : W → W * datetime;                          (* [datetime.now()] *)
  os_load : string → W → exn + json;       (* [open(p)] and [json.load] *)
  os_dump : string → json → W → W * option exn;
                                      (* [open(p, 'w')] and [json.dump] *)
}.

(** ** What the program prints *)

Inductive msg :=
| MsgStart (total : nat)
| MsgMoved (processed total : nat) (filename category : string)
| MsgUncategorized (processed total : nat) (filename : string)
| MsgPermission (processed total : nat) (filename : string)
| MsgNotFound (processed total : nat) (filename : string)
| MsgFailed (processed total : nat) (filename : string) (e : exn)
| MsgLogSaved (log_path : string)
| MsgDone (processed total : nat)
| MsgAttention
| MsgNoLog
| MsgNoOperations
| MsgRestored (name : string)
| MsgMissing (name : string)
| MsgRestoreFailed (name : string) (e : exn)
| MsgRestoreDone (success total : nat)
| MsgLogFormat
| MsgRestoreError (e : exn).

(** ** The transaction log *)

Record MoveRecord := {
  original : string;
  new_location : string;
}.

Definition record_json (r : MoveRecord) : json :=
  JObj [("original", JStr (original r)); ("new_location", JStr (new_location r))].

Definition log_json (timestamp : string) (operations : list MoveRecord)
    (desktop_path : string) : json :=
  JObj [ ("timestamp", JStr timestamp);
         ("operations", JArr (record_json <$> operations));
         ("desktop_path", JStr desktop_path) ].

Definition log_name : string := "文件整理备份.json".
Definition others : string := "其他".

(** ** Classification (source lines 91-96 and 121)

    The loop over the categories stops at the first one whose extensions
    hold the extension of the file; [None] is the file left for the
    folder [others]. *)

Definition file_ext {L : Lower} (filename : string) : string :=
  lower (snd (splitext filename)).

Fixpoint find_category (file_ext : string) (cats : list (string * list string))
  : option string :=
  match cats with
  | [] => None
  | (category, extensions) :: rest =>
      if existsb (String.eqb file_ext) extensions then Some category
      else find_category file_ext rest
  end.

Definition classify {L : Lower} (config : Configuration) (filename : string)
  : option string :=
  find_category (file_ext filename) (categories config).

(** the report of lines 136-141 for a file whose move raised [e] *)
Definition failure_report (e : exn) (processed total_files : nat)
    (filename : string) : msg :=
  match e with
  | PermissionError => MsgPermission processed total_files filename
  | FileNotFoundError => MsgNotFound processed total_files filename
  | _ => MsgFailed processed total_files filename e
  end.

Definition is_failure (m : msg) : bool :=
  match m with
  | MsgPermission _ _ _ | MsgNotFound _ _ _ | MsgFailed _ _ _ _ => true
  | _ => false
  end.

(** ** The program monad: a state of world and output, and exceptions *)

Section Program.
Context {W : Type} `{OS W} {L : Lower}.

Record state := { world : W; output : list msg }.

Definition M (A : Type) : Type := state → state * (exn + A).

Definition ret {A} (a : A) : M A := fun s => (s, inr a).
Definition raise {A} (e : exn) : M A := fun s => (s, inl e).
Definition bind {A B} (m : M A) (k : A → M B) : M B :=
  fun s => match m s with
           | (s', inr a) => k a s'
           | (s', inl e) => (s', inl e)
           end.

(** [try: body except Exception as e: handler(e)] *)
Definition try_catch {A} (body : M A) (handler : exn → M A) : M A :=
  fun s => match body s with
           | (s', inl e) => handler e s'
           | r => r
           end.

Definition say (m : msg) (s : state) : state :=
  {| world := world s; output := output s ++ [m] |}.

Definition in_world (w : W) (s : state) : state :=
  {| world := w; output := output s |}.

Definition print (m : msg) : M unit :=
  fun s => (say m s, inr tt).

(** a test that reads the world *)
Definition ask {A} (f : W → A) : M A :=
  fun s => (s, inr (f (world s))).

(** a read that may raise *)
Definition query {A} (f : W → exn + A) : M A :=
  fun s => (s, f (world s)).

(** a call that changes the world and may raise *)
Definition call (f : W → W * option exn) : M unit :=
  fun s => (in_world (f (world s)).1 s,
            match (f (world s)).2 with Some e => inl e | None => inr tt end).

Definition now : M datetime :=
  fun s => (in_world (os_now (world s)).1 s, inr (os_now (world s)).2).

Definition lift {A} (r : exn + A) : M A := fun s => (s, r).

Notation "'do' x <- m ; k" := (bind m (fun x => k))
  (at level 10, x name, m at level 100, k at level 200).
Notation "'do' ' x <- m ; k" := (bind m (fun y => match y with x => k end))
  (at level 10, x pattern, m at level 100, k at level 200).

(** *** [organize_files] (source lines 57-153) *)

(** the loop's variables *)
Record progress := {
  processed : nat;
  operations : list MoveRecord;
}.

Definition moved_one (config : Configuration) (src_path dst_path : string)
    (p : progress) : progress :=
  {| processed := processed p + 1;
     operations :=
       if backup_log config
       then operations p ++ [{| original := src_path; new_location := dst_path |}]
       else operations p |}.

(** lines 97-117: the file goes to the folder of [category] *)
Definition move_into (config : Configuration) (desktop_path : string)
    (total_files : nat) (filename src_path category : string) (p : progress)
  : M progress :=
  let dst_folder := join desktop_path category in
  let dst_path := join dst_folder filename in
  do taken <- ask (os_exists dst_path);
  do dst_path <-
    (if taken : bool then
       let '(base, ext) := splitext filename in
       do t <- now;
       let new_name := base +:+ "_" +:+ hhmmss t +:+ ext in
       ret (join dst_folder new_name)
     else ret dst_path);
  do _ <- call (os_move src_path dst_path);
  let p := moved_one config src_path dst_path p in
  do _ <- print (MsgMoved (processed p) total_files filename category);
  ret p.

(** lines 95-118: the [for] over the categories; the result tells
    whether the file was moved ([moved = True; break]) *)
Fixpoint move_by_category (config : Configuration) (desktop_path : string)
    (total_files : nat) (filename src_path file_ext : string)
    (cats : list (string * list string)) (p : progress) : M (bool * progress) :=
  match cats with
  | [] => ret (false, p)
  | (category, extensions) :: rest =>
      if existsb (String.eqb file_ext) extensions then
        do p <- move_into config desktop_path total_files filename src_path
                  category p;
        ret (true, p)
      else
        move_by_category config desktop_path total_files filename src_path
          file_ext rest p
  end.

(** lines 121-134: the file goes to the folder for the rest *)
Definition move_to_others (config : Configuration) (desktop_path : string)
    (total_files : nat) (filename src_path : string) (p : progress)
  : M progress :=
  let others_path := join desktop_path others in
  do _ <- call (os_makedirs others_path);
  let dst_path := join others_path filename in
  do _ <- call (os_move src_path dst_path);
  let p := moved_one config src_path dst_path p in
  do _ <- print (MsgUncategorized (processed p) total_files filename);
  ret p.

(** lines 89-134: the body of the [try] *)
Definition move_file (config : Configuration) (desktop_path : string)
    (total_files : nat) (filename : string) (p : progress) : M progress :=
  let src_path := join desktop_path filename in
  let file_ext := lower (snd (splitext filename)) in
  do '(moved, p) <-
    move_by_category config desktop_path total_files filename src_path
      file_ext (categories config) p;
  if moved : bool then ret p
  else move_to_others config desktop_path total_files filename src_path p.

(** lines 136-141: the three [except] clauses *)
Definition move_failed (total_files : nat) (filename : string) (p : progress)
    (e : exn) : M progress :=
  do _ <- print (failure_report e (processed p) total_files filename);
  ret p.

(** lines 88-141: one turn of the main loop *)
Definition organize_one (config : Configuration) (desktop_path : string)
    (total_files : nat) (filename : string) (p : progress) : M progress :=
  try_catch (move_file config desktop_path total_files filename p)
            (move_failed total_files filename p).

Fixpoint organize_loop (config : Configuration) (desktop_path : string)
    (total_files : nat) (files : list string) (p : progress) : M progress :=
  match files with
  | [] => ret p
  | filename :: rest =>
      do p <- organize_one config desktop_path total_files filename p;
      organize_loop config desktop_path total_files rest p
  end.

(** lines 74-75 *)
Fixpoint make_folders (desktop_path : string)
    (cats : list (string * list string)) : M unit :=
  match cats with
  | [] => ret tt
  | (category, _) :: rest =>
      do _ <- call (os_makedirs (join desktop_path category));
      make_folders desktop_path rest
  end.

(** lines 67-70: the regular files of the listing that the filter keeps *)
Definition listed_files (config : Configuration) (desktop_path : string)
    (all_items : list string) (w : W) : list string :=
  let files :=
    List.filter (fun f => os_isfile (join desktop_path f) w) all_items in
  List.filter (fun f => negb (should_skip_file f (skip_files config))) files.

(** lines 67-141, from the directory listing to the end of the loop; the
    result is the number of files, the time the run started and the
    loop's variables *)
Definition organize_moves (config : Configuration) (desktop_path : string)
    (all_items : list string) : M (nat * datetime * progress) :=
  do files <- ask (listed_files config desktop_path all_items);
  let total_files := List.length files in
  do _ <- make_folders desktop_path (categories config);
  do started <- now;
  do _ <- print (MsgStart total_files);
  do p <- organize_loop config desktop_path total_files files
            {| processed := 0; operations := [] |};
  ret (total_files, started, p).

(** lines 143-153: the log is saved and the run summed up *)
Definition organize_report (config : Configuration) (desktop_path : string)
    (total_files : nat) (started : datetime) (p : progress) : M unit :=
  do _ <-
    (if backup_log config && negb (bool_decide (operations p = [])) then
       let log_path := join desktop_path log_name in
       do _ <- call (os_dump log_path
                       (log_json (isoformat started) (operations p) desktop_path));
       print (MsgLogSaved log_path)
     else ret tt);
  do _ <- print (MsgDone (processed p) total_files);
  if (processed p <? total_files)%nat then print MsgAttention else ret tt.

Definition organize_listed (config : Configuration) (desktop_path : string)
    (all_items : list string) : M unit :=
  do '(total_files, started, p) <-
    organize_moves config desktop_path all_items;
  organize_report config desktop_path total_files started p.

Definition organize_files (config : Configuration) : M unit :=
  do home <- ask os_home;
  let desktop_path := join home "Desktop" in
  do all_items <- query (os_listdir desktop_path);
  organize_listed config desktop_path all_items.

(** *** [restore_files] (source lines 155-206) *)

(** [backup_log.get('operations', [])] *)
Definition get_operations (backup_log : json) : exn + json :=
  match backup_log with
  | JObj kv => inr (default (JArr []) (dict_get "operations" kv))
  | _ => inl AttributeError
  end.

(** [len(operations)], of which only the failure matters *)
Definition has_len (operations : json) : exn + unit :=
  match operations with
  | JStr _ | JArr _ | JObj _ => inr tt
  | _ => inl TypeError
  end.

(** the items [for op in reversed(operations)] visits: a list backwards,
    the characters of a string backwards, the keys of a dictionary
    backwards *)
Definition reversed (operations : json) : exn + list json :=
  match operations with
  | JArr l => inr (reverse l)
  | JStr s =>
      inr (reverse ((fun c => JStr (String c "")) <$> list_ascii_of_string s))
  | JObj kv => inr (reverse ((fun kv => JStr kv.1) <$> kv))
  | _ => inl TypeError
  end.

(** [op[key]] *)
Definition subscript (op : json) (key : string) : exn + json :=
  match op with
  | JObj kv => match dict_get key kv with
               | Some v => inr v
               | None => inl KeyError
               end
  | _ => inl TypeError
  end.

(** a value used as a path *)
Definition as_path (j : json) : exn + string :=
  match j with
  | JStr s => inr s
  | _ => inl TypeError
  end.

(** the loop's variables; [dst] is unbound until a record binds it *)
Record restoring := {
  success_count : nat;
  dst : option json;
}.

(** lines 186-194, with [src] and [dst] bound *)
Definition restore_move (src dst : json) (success_count : nat) : M nat :=
  do dst_path <- lift (as_path dst);
  do _ <- call (os_makedirs (dirname dst_path));
  do src_path <- lift (as_path src);
  do present <- ask (os_exists src_path);
  if present : bool then
    do _ <- call (os_move src_path dst_path);
    do _ <- print (MsgRestored (basename dst_path));
    ret (success_count + 1)
  else
    do _ <- print (MsgMissing (basename src_path));
    ret success_count.

(** lines 196-197: the handler names [dst], whatever it is bound to *)
Definition restore_failed (r : restoring) (e : exn) : M restoring :=
  match dst r with
  | None => raise UnboundLocalError
  | Some d =>
      do dst_path <- lift (as_path d);
      do _ <- print (MsgRestoreFailed (basename dst_path) e);
      ret r
  end.

(** lines 181-197: one turn of the restore loop *)
Definition restore_one (op : json) (r : restoring) : M restoring :=
  match subscript op "new_location" with
  | inl e => restore_failed r e
  | inr src =>
      match subscript op "original" with
      | inl e => restore_failed r e
      | inr d =>
          let r := {| success_count := success_count r; dst := Some d |} in
          try_catch
            (do n <- restore_move src d (success_count r);
             ret {| success_count := n; dst := Some d |})
            (restore_failed r)
      end
  end.

Fixpoint restore_loop (ops : list json) (r : restoring) : M restoring :=
  match ops with
  | [] => ret r
  | op :: rest =>
      do r <- restore_one op r;
      restore_loop rest r
  end.

(** lines 167-201: the body of the outer [try] *)
Definition restore_from (log_path : string) : M unit :=
  do backup_log <- query (os_load log_path);
  do operations <- lift (get_operations backup_log);
  if negb (truthy operations) then print MsgNoOperations
  else
    do _ <- lift (has_len operations);
    do ops <- lift (reversed operations);
    do r <- restore_loop ops {| success_count := 0; dst := None |};
    do _ <- call (os_remove log_path);
    print (MsgRestoreDone (success_count r) (List.length ops)).

(** lines 203-206 *)
Definition restore_aborted (e : exn) : M unit :=
  match e with
  | JSONDecodeError => print MsgLogFormat
  | _ => print (MsgRestoreError e)
  end.

Definition default_log_path (w : W) : string :=
  join (join (os_home w) "Desktop") log_name.

(** lines 158-160: the path given, or the log on the desktop *)
Definition resolved (log_path : option string) (w : W) : string :=
  match log_path with
  | Some p => if String.eqb p "" then default_log_path w else p
  | None => default_log_path w
  end.

Definition restore_files (log_path : option string) : M unit :=
  do log_path <- ask (resolved log_path);
  do found <- ask (os_exists log_path);
  if negb found then print MsgNoLog
  else try_catch (restore_from log_path) restore_aborted.
End Program.

Arguments state W : clear implicits.
Arguments M W : clear implicits.

(** ** The restore loop on records of the documented shape

    For a log that [organize_files] wrote, every item of [operations] is
    a record with its two paths; [restore_record] is lines 181-197 read
    for such an item, with the count of restored files. *)

Section Records.
Context {W : Type} `{OS W}.

Definition restore_record (r : MoveRecord) (sn : state W * nat) : state W * nat :=
  let '(s, n) := sn in
  let src := new_location r in
  let dst := original r in
  let made := os_makedirs (dirname dst) (world s) in
  match made.2 with
  | Some e => (say (MsgRestoreFailed (basename dst) e) (in_world made.1 s), n)
  | None =>
      if os_exists src made.1 then
        let moved := os_move src dst made.1 in
        match moved.2 with
        | Some e =>
            (say (MsgRestoreFailed (basename dst) e) (in_world moved.1 s), n)
        | None => (say (MsgRestored (basename dst)) (in_world moved.1 s), n + 1)
        end
      else (say (MsgMissing (basename src)) (in_world made.1 s), n)
  end.

Definition restore_records (ops : list MoveRecord) (sn : state W * nat)
  : state W * nat :=
  fold_left (fun acc r => restore_record r acc) ops sn.

(** the end of [restore_files] once the loop is over (lines 200-206) *)
Definition restore_finish (log_path : string) (total : nat) (sn : state W * nat)
  : state W :=
  let removed := os_remove log_path (world sn.1) in
  match removed.2 with
  | None => say (MsgRestoreDone sn.2 total) (in_world removed.1 sn.1)
  | Some JSONDecodeError => say MsgLogFormat (in_world removed.1 sn.1)
  | Some e => say (MsgRestoreError e) (in_world removed.1 sn.1)
  end.
End Records.

(** ** A concrete operating system

    The file system is a finite map from paths to nodes.  A file is known
    by what [json.load] makes of it: the document it holds, or text that
    is no JSON document. *)

Inductive content :=
| Raw (text : string)
| Json (doc : json).

Inductive node :=
| File (c : content)
| Dir.

Record posix_world := {
  files : gmap string node;
  home : string;
  clock : list datetime;            (* the readings the clock will give *)
}.

Module Posix.

Definition with_files (w : posix_world) (fs : gmap string node) : posix_world :=
  {| files := fs; home := home w; clock := clock w |}.

Definition exists_ (p : string) (fs : gmap string node) : bool :=
  bool_decide (is_Some (fs !! p)).

Definition isfile (p : string) (fs : gmap string node) : bool :=
  match fs !! p with Some (File _) => true | _ => false end.

Definition isdir (p : string) (fs : gmap string node) : bool :=
  match fs !! p with Some Dir => true | _ => false end.

(** [Some r] when [s = p +:+ r] *)
Fixpoint strip_prefix (p s : string) : option string :=
  match p, s with
  | "", _ => Some s
  | String _ _, "" => None
  | String b p', String a s' =>
      if Ascii.eqb a b then strip_prefix p' s' else None
  end.

(** the name of [k] inside directory [d], when [k] is an entry of [d] *)
Definition child_of (d k : string) : option string :=
  n ← strip_prefix (if endswith d "/" then d else d +:+ "/") k;
  if String.eqb n "" || has_char sep n then None else Some n.

Definition listdir (d : string) (fs : gmap string node) : exn + list string :=
  match fs !! d with
  | Some Dir => inr (omap (fun kv => child_of d kv.1) (map_to_list fs))
  | Some (File _) => inl NotADirectoryError
  | None => inl FileNotFoundError
  end.

(** a new entry at [p] needs the directory above it; a relative name
    lies in the working directory *)
Definition parent_error (p : string) (fs : gmap string node) : option exn :=
  let parent := dirname p in
  if String.eqb p "" then Some FileNotFoundError
  else if String.eqb parent "" then None
  else match fs !! parent with
       | Some Dir => None
       | Some (File _) => Some NotADirectoryError
       | None => Some FileNotFoundError
       end.

(** [os.mkdir(p)] *)
Definition mkdir (p : string) (fs : gmap string node)
  : gmap string node * option exn :=
  match fs !! p with
  | Some _ => (fs, Some FileExistsError)
  | None =>
      match parent_error p fs with
      | Some e => (fs, Some e)
      | None => (<[p := Dir]> fs, None)
      end
  end.

(** the last step of [os.makedirs(name, exist_ok=True)] *)
Definition mkdir_exist_ok (name : string) (fs : gmap string node)
  : gmap string node * option exn :=
  let '(fs', r) := mkdir name fs in
  match r with
  | Some e => if isdir name fs then (fs', None) else (fs', Some e)
  | None => (fs', None)
  end.

(** [os.makedirs(name, exist_ok=True)]; it calls itself on a shorter
    path, so the length of [name] bounds the depth *)
Fixpoint makedirs_rec (depth : nat) (name : string) (fs : gmap string node)
  : gmap string node * option exn :=
  let '(head, tail) := split name in
  let '(head, tail) :=
    if String.eqb tail "" then split head else (head, tail) in
  if negb (String.eqb head "") && negb (String.eqb tail "")
     && negb (exists_ head fs) then
    match depth with
    | O => (fs, Some OSError)
    | S depth =>
        let '(fs, r) := makedirs_rec depth head fs in
        match r with
        | Some FileExistsError | None =>
            if String.eqb tail "." then (fs, None)
            else mkdir_exist_ok name fs
        | Some e => (fs, Some e)
        end
    end
  else mkdir_exist_ok name fs.

Definition makedirs (name : string) (fs : gmap string node)
  : gmap string node * option exn :=
  makedirs_rec (String.length name) name fs.

(** [Some r] when [k] is [src] or lies below it, [k = src +:+ r] *)
Definition below (src k : string) : option string :=
  if String.eqb k src then Some ""
  else String "/" <$> strip_prefix (src +:+ "/") k.

(** a directory and all below it moves from [src] to [dst] *)
Definition rename_tree (src dst : string) (fs : gmap string node)
  : gmap string node :=
  list_to_map
    (omap (fun kv => (fun r => (dst +:+ r, kv.2)) <$> below src kv.1)
          (map_to_list fs))
  ∪ filter (fun kv => below src kv.1 = None) fs.

(** [os.rename(src, dst)] together with the copy [shutil.move] falls
    back on; [dst] is no directory here *)
Definition rename (src dst : string) (fs : gmap string node)
  : gmap string node * option exn :=
  match fs !! src with
  | None => (fs, Some FileNotFoundError)
  | Some (File c) =>
      match parent_error dst fs with
      | Some e => (fs, Some e)
      | None =>
          match fs !! dst with
          | Some Dir => (fs, Some IsADirectoryError)
          | _ => (<[dst := File c]> (delete src fs), None)
          end
      end
  | Some Dir =>
      match parent_error dst fs with
      | Some e => (fs, Some e)
      | None =>
          match fs !! dst with
          | Some (File _) => (fs, Some FileExistsError)
          | Some Dir => (fs, Some OSError)
          | None =>
              if bool_decide (is_Some (below src dst))
              then (fs, Some ShutilError)
              else (rename_tree src dst fs, None)
          end
      end
  end.

(** [shutil.move(src, dst)] *)
Definition move (src dst : string) (fs : gmap string node)
  : gmap string node * option exn :=
  if isdir dst fs then
    if String.eqb src dst then (fs, None)
    else
      let real_dst := join dst (basename (rstrip sep src)) in
      if exists_ real_dst fs then (fs, Some ShutilError)
      else rename src real_dst fs
  else rename src dst fs.

(** [os.remove(p)] *)
Definition remove (p : string) (fs : gmap string node)
  : gmap string node * option exn :=
  match fs !! p with
  | Some (File _) => (delete p fs, None)
  | Some Dir => (fs, Some IsADirectoryError)
  | None => (fs, Some FileNotFoundError)
  end.

(** [open(p)] and [json.load] *)
Definition load (p : string) (fs : gmap string node) : exn + json :=
  match fs !! p with
  | Some (File (Json doc)) => inr doc
  | Some (File (Raw text)) =>
      inl (if utf8_valid text then JSONDecodeError else UnicodeDecodeError)
  | Some Dir => inl IsADirectoryError
  | None => inl FileNotFoundError
  end.

(** [open(p, 'w', encoding='utf-8')] and [json.dump], for a document
    that is [json_encodable].  (On other documents [json.dump] raises
    half-way through the text; the theorems that reach a dump with file
    names in the document take the document to be encodable.) *)
Definition dump (p : string) (doc : json) (fs : gmap string node)
  : gmap string node * option exn :=
  match fs !! p with
  | Some Dir => (fs, Some IsADirectoryError)
  | _ =>
      match parent_error p fs with
      | Some e => (fs, Some e)
      | None => (<[p := File (Json doc)]> fs, None)
      end
  end.

Definition midnight : datetime :=
  {| isoformat := "1970-01-01T00:00:00"; hour := 0; minute := 0; second := 0 |}.

Definition tick (w : posix_world) : posix_world * datetime :=
  match clock w with
  | [] => (w, midnight)
  | d :: later => ({| files := files w; home := home w; clock := later |}, d)
  end.

Definition on_files (f : gmap string node → gmap string node * option exn)
    (w : posix_world) : posix_world * option exn :=
  let '(fs, r) := f (files w) in (with_files w fs, r).

End Posix.

Global Instance posix : OS posix_world := {|
  os_home := home;
  os_listdir d w := Posix.listdir d (files w);
  os_isfile p w := Posix.isfile p (files w);
  os_exists p w := Posix.exists_ p (files w);
  os_makedirs p := Posix.on_files (Posix.makedirs p);
  os_move src dst := Posix.on_files (Posix.move src dst);
  os_remove p := Posix.on_files (Posix.remove p);
  os_now := Posix.tick;
  os_load p w := Posix.load p (files w);
  os_dump p doc := Posix.on_files (Posix.dump p doc);
|}.

Definition start (w : posix_world) : state posix_world :=
  {| world := w; output := [] |}.

Definition default_configuration : Configuration :=
  {| skip_files := [".ini"; ".db"; ".tmp"; "~$"];
     backup_log := true;
     categories :=
       [ ("图片", [".jpg"; ".jpeg"; ".png"; ".gif"; ".bmp"; ".webp"]);
         ("文档", [".pdf"; ".docx"; ".doc"; ".xlsx"; ".pptx"; ".txt"]);
         ("压缩包", [".zip"; ".rar"; ".7z"; ".tar"; ".gz"]);
         ("代码", [".py"; ".js"; ".html"; ".css"; ".java"; ".c"; ".cpp"]);
         ("可执行文件", [".exe"; ".msi"; ".bat"; ".cmd"]);
         ("快捷方式", [".lnk"; ".url"; ".desktop"]);
         ("媒体", [".mp3"; ".mp4"; ".avi"; ".mov"; ".wav"]) ] |}.


(** ** Example worlds *)

Definition noon : datetime :=
  {| isoformat := "2024-05-01T12:00:00"; hour := 12; minute := 0; second := 0 |}.

(** a home with a desktop holding [entries] (paths below the desktop) *)
Definition desk (entries : list (string * node)) (readings : list datetime)
  : posix_world :=
  {| files :=
       list_to_map
         ([ ("/", Dir); ("/home", Dir); ("/home/u", Dir);
            ("/home/u/Desktop", Dir) ]
          ++ ((fun kv => ("/home/u/Desktop/" +:+ kv.1, kv.2)) <$> entries));
     home := "/home/u";
     clock := readings |}.

(** Scenario A of the specification, with a temporary file *)
Definition desk_a : posix_world :=
  desk [ ("a.jpg", File (Raw "A")); ("b.txt", File (Raw "B"));
         ("c.xyz", File (Raw "C")); ("x.tmp", File (Raw "T")) ] [noon].



(** the log of an earlier run is still on the desktop *)
Definition desk_old_log : posix_world :=
  desk [ ("a.jpg", File (Raw "A"));
         ("文件整理备份.json", File (Raw "log of an earlier run")) ] [noon].

(** the name of the folder for the rest is taken by a regular file *)
Definition desk_blocked : posix_world :=
  desk [ ("c.xyz", File (Raw "C")); ("a.jpg", File (Raw "A"));
         ("图片", Dir); ("其他", File (Raw "notes")) ] [noon].

(** Scenario C: the log names a file that is no longer there *)
Definition desk_scenario_c : posix_world :=
  desk [ ("图片", Dir);
         ("文件整理备份.json",
          File (Json (log_json "2024-05-01T12:00:00"
                        [ {| original := "/home/u/Desktop/a.jpg";
                             new_location := "/home/u/Desktop/图片/a.jpg" |} ]
                        "/home/u/Desktop"))) ] [].

(** a log that is no JSON document *)
Definition desk_bad_log : posix_world :=
  desk [ ("图片", Dir); ("图片/a.jpg", File (Raw "A"));
         ("文件整理备份.json", File (Raw "{ operations: ")) ] [].

(** a configuration that skips JSON files *)
Definition skip_json : Configuration :=
  {| skip_files := [".json"];
     backup_log := true;
     categories := categories default_configuration |}.

(** the name of a category folder is taken by a regular file *)
Definition desk_name_taken : posix_world :=
  desk [ ("a.jpg", File (Raw "A")); ("图片", File (Raw "no folder")) ] [noon].


(** a folder of the user's, and a directory where a picture would go *)
Definition desk_folders : posix_world :=
  desk [ ("a.jpg", File (Raw "A")); ("c.xyz", File (Raw "C"));
         ("work", Dir); ("work/plan.txt", File (Raw "P"));
         ("图片", Dir); ("图片/a.jpg", Dir) ] [noon; noon].

(** a log whose last record lacks its new location *)
Definition desk_broken_record : posix_world :=
  desk [ ("图片", Dir); ("图片/a.jpg", File (Raw "A"));
         ("文件整理备份.json",
          File (Json (JObj
            [ ("timestamp", JStr "2024-05-01T12:00:00");
              ("operations",
               JArr [ record_json
                        {| original := "/home/u/Desktop/a.jpg";
                           new_location := "/home/u/Desktop/图片/a.jpg" |};
                      JObj [("original", JStr "/home/u/Desktop/b.txt")] ]);
              ("desktop_path", JStr "/home/u/Desktop") ]))) ] [].

(** a log with a number among its records *)
Definition desk_mixed_log : posix_world :=
  desk [ ("图片", Dir); ("图片/a.jpg", File (Raw "A"));
         ("文件整理备份.json",
          File (Json (JObj
            [ ("timestamp", JStr "2024-05-01T12:00:00");
              ("operations",
               JArr [ JNum 5;
                      record_json
                        {| original := "/home/u/Desktop/a.jpg";
                           new_location := "/home/u/Desktop/图片/a.jpg" |} ]);
              ("desktop_path", JStr "/home/u/Desktop") ]))) ] [].

(** after a run, a new file has taken the place of the one moved *)
Definition desk_retaken : posix_world :=
  desk [ ("a.jpg", File (Raw "newer"));
         ("图片", Dir); ("图片/a.jpg", File (Raw "A"));
         ("文件整理备份.json",
          File (Json (log_json "2024-05-01T12:00:00"
                        [ {| original := "/home/u/Desktop/a.jpg";
                             new_location := "/home/u/Desktop/图片/a.jpg" |} ]
                        "/home/u/Desktop"))) ] [].

(** the folder a file came from is gone *)
Definition home_without_desktop : posix_world :=
  {| files :=
       list_to_map
         [ ("/", Dir); ("/home", Dir); ("/home/u", Dir);
           ("/home/u/图片", Dir); ("/home/u/图片/a.jpg", File (Raw "A")) ];
     home := "/home/u";
     clock := [] |}.

(** a file for the folder for the rest, where a file of its name lies *)
Definition desk_rest_taken : posix_world :=
  desk [ ("c.xyz", File (Raw "incoming"));
         ("其他", Dir); ("其他/c.xyz", File (Raw "first")) ] [noon].

(** ** The rules as the specification words them

    These definitions follow the specification's sentences, to be compared
    with the definitions taken from the source. *)

(** §4.2: "return true when the pattern (lower-cased) is a substring of
    the filename" *)
Definition pattern_matches_spec {L : Lower} (lower_name pattern : string) : bool :=
  (startswith pattern "." && endswith lower_name pattern)
  || contains lower_name (lower pattern).

Definition should_skip_spec {L : Lower} (filename : string)
    (skip_patterns : list string) : bool :=
  existsb (pattern_matches_spec (lower filename)) skip_patterns.

(** §4.3: "the final [.]-delimited suffix, lower-cased, including the
    leading dot; empty string if none" *)
Definition suffix_spec {L : Lower} (filename : string) : string :=
  match cut_last extsep filename with
  | ("", _) => ""
  | (_, tail) => lower (String extsep tail)
  end.

Definition classify_spec {L : Lower} (config : Configuration) (filename : string)
  : option string :=
  find_category (suffix_spec filename) (categories config).

(** §4.1: "if the key also exists in the default and both values are
    mappings, merge at one level ...; otherwise the override value fully
    replaces the default value" *)
Definition merge_value_spec (dflt : option json) (over : json) : json :=
  match dflt, over with
  | Some (JObj d), JObj o => JObj (dict_merge d o)
  | _, _ => over
  end.

Definition load_config_spec (dflt override : list (string * json))
  : list (string * json) :=
  fold_left
    (fun acc kv => dict_set kv.1 (merge_value_spec (dict_get kv.1 dflt) kv.2) acc)
    override dflt.

(** the override gives a mapping wherever the default has one *)
Definition mergeable (dflt override : list (string * json)) : Prop :=
  ∀ key d uv, (key, uv) ∈ override → dict_get key dflt = Some (JObj d) →
    ∃ o, uv = JObj o.

(** ** Names and paths in normal form *)

(** a file or folder name: not empty, no separator in it *)
Definition is_name (f : string) : bool :=
  negb (String.eqb f "") && negb (has_char sep f).

(** a name that a directory entry bears: a name other than [.] and [..],
    which the system reads as the directory itself and its parent *)
Definition is_entry_name (f : string) : bool :=
  is_name f && negb (String.eqb f ".") && negb (String.eqb f "..").

(** a directory path in normal form, as far as the proofs use it: not
    empty, no separator at its end *)
Definition is_dir_path (d : string) : bool :=
  negb (String.eqb d "") && negb (endswith d "/").

(** ** Invariants used in the proofs *)

(** keys are distinct, and no two keys share a dictionary object *)
Definition wf_refs (config : list (string * value)) : Prop :=
  NoDup config.*1 ∧
  ∀ k1 k2 l, (k1, Ref l) ∈ config → (k2, Ref l) ∈ config → k1 = k2.

(** a record as the loop of [organize_files] makes them, in a file
    system where its file is at the new place and the old place is free *)
Definition undoable (d : string) (fs : gmap string node) (r : MoveRecord) : Prop :=
  ∃ x g c y,
    is_name g = true
    ∧ original r = join d g
    ∧ new_location r = d +:+ "/" +:+ c +:+ "/" +:+ y
    ∧ fs !! new_location r = Some (File x)
    ∧ fs !! original r = None.

(** How the file system [fs] in the middle of a run relates to the file
    system [fs0] the run started from, [ops] being the records made so
    far and [pending] the files still to come: every recorded file is at
    its new place; what was there and is neither a recorded file nor at
    the new place of one is as it was; what is new is a recorded file or
    a folder of the desktop; no file is recorded twice. *)
Record tracks (d : string) (fs0 fs : gmap string node)
    (pending : list string) (ops : list MoveRecord) : Prop := {
  tracks_moved : ∀ r, r ∈ ops →
    ∃ x, fs0 !! original r = Some (File x)
         ∧ fs !! new_location r = Some (File x);
  tracks_kept : ∀ q, is_Some (fs0 !! q) →
    (∀ r, r ∈ ops → original r ≠ q) → (∀ r, r ∈ ops → new_location r ≠ q) →
    fs !! q = fs0 !! q;
  tracks_new : ∀ q, is_Some (fs !! q) →
    is_Some (fs0 !! q)
    ∨ (∃ r, r ∈ ops ∧ new_location r = q)
    ∨ (∃ c, is_name c = true ∧ q = join d c);
  tracks_shape : ∀ r, r ∈ ops →
    ∃ g c y, is_name g = true ∧ (g ∉ pending)
             ∧ original r = join d g
             ∧ new_location r = d +:+ "/" +:+ c +:+ "/" +:+ y;
  tracks_distinct : NoDup (original <$> ops);
}.

(** No moved file took the place of another: the new locations of [ops]
    were no directories before the run, and they are distinct. *)
Definition clean (fs0 : gmap string node) (ops : list MoveRecord) : Prop :=
  (∀ r, r ∈ ops → fs0 !! new_location r ≠ Some Dir)
  ∧ NoDup (new_location <$> ops).

(** * Properties *)

(** ** Text *)

Section TextFacts.
Context {L : Lower}.
Implicit Types s p t : string.

Lemma sapp_cons a s t : String a s +:+ t = String a (s +:+ t).
Proof. reflexivity. Qed.

Lemma sapp_nil_l t : "" +:+ t = t.
Proof. reflexivity. Qed.

Lemma sapp_nil_r s : s +:+ "" = s.
Proof. induction s as [|a s IH]; [done|]. by rewrite sapp_cons, IH. Qed.

Lemma sapp_assoc s t u : (s +:+ t) +:+ u = s +:+ t +:+ u.
Proof. induction s as [|a s IH]; [done|]. by rewrite !sapp_cons, IH. Qed.

Lemma sapp_length s t : String.length (s +:+ t) = (String.length s + String.length t)%nat.
Proof. induction s as [|a s IH]; [done|]. rewrite sapp_cons. simpl. by rewrite IH. Qed.

Lemma sapp_inv_tail s t u : s +:+ u = t +:+ u → s = t.
Proof.
  revert t. induction s as [|a s IH]; intros [|b t] E; try done.
  - rewrite sapp_nil_l, sapp_cons in E. apply (f_equal String.length) in E.
    simpl in E. rewrite sapp_length in E. lia.
  - rewrite sapp_nil_l, sapp_cons in E. apply (f_equal String.length) in E.
    simpl in E. rewrite sapp_length in E. lia.
  - rewrite !sapp_cons in E. injection E as -> E. f_equal. by apply IH.
Qed.

Lemma startswith_spec s p : startswith s p = true ↔ ∃ r, s = p +:+ r.
Proof.
  revert s. induction p as [|b p IH]; intros s.
  - split; [intros _; by exists s | by destruct s].
  - destruct s as [|a s]; simpl.
    + split; [done|]. by intros [r Hr].
    + rewrite andb_true_iff, Ascii.eqb_eq, IH. split.
      * intros [-> [r ->]]. by exists r.
      * intros [r Hr]. rewrite sapp_cons in Hr. injection Hr as -> ->. eauto.
Qed.

Lemma endswith_spec s p : endswith s p = true ↔ ∃ r, s = r +:+ p.
Proof.
  induction s as [|a s IH]; cbn [endswith].
  - rewrite orb_false_r, String.eqb_eq. split.
    + intros <-. by exists "".
    + intros [[|b r] Hr]; [done|]. by rewrite sapp_cons in Hr.
  - rewrite orb_true_iff, String.eqb_eq, IH. split.
    + intros [<- | [r ->]]; [by exists ""|]. by exists (String a r).
    + intros [[|b r] Hr]; [by left|]. rewrite sapp_cons in Hr.
      injection Hr as -> ->. right. by exists r.
Qed.

Lemma contains_spec s p : contains s p = true ↔ ∃ l r, s = l +:+ p +:+ r.
Proof.
  induction s as [|a s IH]; cbn [contains].
  - rewrite orb_false_r, startswith_spec. split.
    + intros [r Hr]. by exists "", r.
    + intros [[|b l] [r Hr]]; [by exists r|]. by rewrite sapp_cons in Hr.
  - rewrite orb_true_iff, startswith_spec, IH. split.
    + intros [[r Hr] | (l & r & ->)]; [by exists "", r|]. by exists (String a l), r.
    + intros [[|b l] [r Hr]]; [left; by exists r|]. rewrite sapp_cons in Hr.
      injection Hr as -> ->. right. by exists l, r.
Qed.

Lemma endswith_contains s p : endswith s p = true → contains s p = true.
Proof.
  rewrite endswith_spec, contains_spec. intros [l ->]. exists l, "".
  by rewrite sapp_nil_r.
Qed.
End TextFacts.

Section PathFacts.
Context {L : Lower}.
Implicit Types s p t : string.

Lemma has_char_app c s t : has_char c (s +:+ t) = has_char c s || has_char c t.
Proof.
  induction s as [|a s IH]; [done|]. rewrite sapp_cons. cbn [has_char].
  by rewrite IH, orb_assoc.
Qed.

Lemma cut_last_none c s : has_char c s = false → cut_last c s = ("", s).
Proof.
  induction s as [|a s IH]; [done|]. cbn [has_char cut_last].
  intros [Ha Hs]%orb_false_iff. by rewrite (IH Hs), Ha.
Qed.

Lemma cut_last_at c s t :
  has_char c t = false → cut_last c (s +:+ String c t) = (s +:+ String c "", t).
Proof.
  intros Ht. induction s as [|a s IH].
  - rewrite !sapp_nil_l. cbn [cut_last]. rewrite (cut_last_none _ _ Ht).
    by rewrite Ascii.eqb_refl.
  - rewrite !sapp_cons. cbn [cut_last]. rewrite IH. by destruct s.
Qed.

Lemma cut_last_app_r c s t :
  has_char c t = false →
  cut_last c (s +:+ t) = ((cut_last c s).1, (cut_last c s).2 +:+ t).
Proof.
  intros Ht. induction s as [|a s IH].
  - rewrite sapp_nil_l. by rewrite (cut_last_none _ _ Ht).
  - rewrite sapp_cons. cbn [cut_last]. rewrite IH.
    destruct (cut_last c s) as [h u]. cbn [fst snd].
    destruct h; [destruct (Ascii.eqb a c)|]; done.
Qed.

Lemma cut_last_join c s : (cut_last c s).1 +:+ (cut_last c s).2 = s.
Proof.
  induction s as [|a s IH]; [done|]. cbn [cut_last].
  destruct (cut_last c s) as [h u]. cbn [fst snd] in *.
  destruct h; [destruct (Ascii.eqb a c)|]; cbn [fst snd];
    rewrite ?sapp_cons, ?sapp_nil_l in *; by f_equal.
Qed.

Lemma cut_last_tail c s : has_char c (cut_last c s).2 = false.
Proof.
  induction s as [|a s IH]; [done|]. cbn [cut_last].
  destruct (cut_last c s) as [h u]. cbn [fst snd] in *.
  destruct h; [destruct (Ascii.eqb a c) eqn:E|]; cbn [snd has_char]; try done.
  by rewrite E, IH.
Qed.

Lemma drop_last_snoc s a : drop_last (s +:+ String a "") = s.
Proof.
  induction s as [|b s IH]; [done|]. rewrite sapp_cons. cbn [drop_last].
  rewrite IH. by destruct s.
Qed.

Lemma snoc_not_nil s a : s +:+ String a "" ≠ "".
Proof. by destruct s. Qed.

(** [splitext] told by the shape of the name *)
Lemma splitext_dot stem t :
  has_char extsep t = false → has_char sep t = false →
  snd (splitext (stem +:+ "." +:+ t)) =
    if all_char extsep (basename stem) then "" else String extsep t.
Proof.
  intros Hdot Hsep. unfold splitext, basename.
  rewrite (cut_last_app_r sep stem ("." +:+ t)) by done.
  destruct (cut_last sep stem) as [dir name]. cbn [fst snd].
  change ("." +:+ t) with (String extsep t).
  rewrite (cut_last_at extsep name t Hdot), drop_last_snoc.
  destruct (name +:+ String extsep "") eqn:E; [by apply snoc_not_nil in E|].
  by destruct (all_char extsep name).
Qed.

Lemma splitext_no_dot p :
  has_char extsep (basename p) = false → snd (splitext p) = "".
Proof.
  unfold splitext, basename. destruct (cut_last sep p) as [dir name].
  cbn [snd]. intros Hn. by rewrite (cut_last_none _ _ Hn).
Qed.
End PathFacts.

(** ** The skip filter and the classifier *)

Section FilterFacts.
Context {L : Lower}.

Lemma existsb_eqb_elem (x : string) (l : list string) :
  existsb (String.eqb x) l = true ↔ x ∈ l.
Proof.
  rewrite existsb_exists, list_elem_of_In. split.
  - by intros (y & Hy & ->%String.eqb_eq).
  - intros Hx. exists x. by rewrite String.eqb_refl.
Qed.

Lemma find_category_Some ext cats category :
  find_category ext cats = Some category ↔
  ∃ before extensions after,
    cats = before ++ (category, extensions) :: after
    ∧ ext ∈ extensions
    ∧ ∀ c e, (c, e) ∈ before → ext ∉ e.
Proof.
  induction cats as [|[c0 e0] cats IH]; cbn [find_category].
  - split; [done|]. intros (before & e & after & Hc & _). by destruct before.
  - destruct (existsb (String.eqb ext) e0) eqn:E.
    + apply existsb_eqb_elem in E. split.
      * intros [= <-]. exists [], e0, cats. split_and!; [done..|].
        intros c e Hin. by apply elem_of_nil in Hin.
      * intros ([|[c1 e1] before] & e & after & Hc & Hin & Hno).
        -- by injection Hc as -> ->.
        -- injection Hc as -> -> _. exfalso. eapply Hno; [apply list_elem_of_here|done].
    + rewrite IH. split.
      * intros (before & e & after & -> & Hin & Hno).
        exists ((c0, e0) :: before), e, after. split_and!; [done..|].
        intros c e' [[= -> ->]|Hin']%elem_of_cons; [|by eapply Hno].
        intros Hx%existsb_eqb_elem. congruence.
      * intros ([|[c1 e1] before] & e & after & Hc & Hin & Hno).
        -- injection Hc as -> -> _. apply existsb_eqb_elem in Hin. congruence.
        -- injection Hc as -> -> ->. exists before, e, after.
           split_and!; [done..|]. intros c e' Hin'. eapply Hno. by right.
Qed.

Lemma find_category_None ext cats :
  find_category ext cats = None ↔ ∀ c e, (c, e) ∈ cats → ext ∉ e.
Proof.
  induction cats as [|[c0 e0] cats IH]; cbn [find_category].
  - split; [|done]. intros _ c e Hin. by apply elem_of_nil in Hin.
  - destruct (existsb (String.eqb ext) e0) eqn:E.
    + split; [done|]. intros Hno. apply existsb_eqb_elem in E.
      exfalso. eapply Hno; [apply list_elem_of_here|done].
    + rewrite IH. split.
      * intros Hno c e [[= -> ->]|Hin]%elem_of_cons; [|by eapply Hno].
        intros Hx%existsb_eqb_elem. congruence.
      * intros Hno c e Hin. eapply Hno. by right.
Qed.

Lemma lower_empty : lower "" = "".
Proof. by apply lower_ascii_text. Qed.

Context {W : Type} `{OS W}.

Lemma move_by_category_find config desktop_path total_files filename src_path
    ext cats p (s : state W) :
  move_by_category config desktop_path total_files filename src_path ext cats p s =
  match find_category ext cats with
  | Some category =>
      bind (move_into config desktop_path total_files filename src_path category p)
           (fun p => ret (true, p)) s
  | None => (s, inr (false, p))
  end.
Proof.
  induction cats as [|[c0 e0] cats IH]; cbn [move_by_category find_category]; [done|].
  by destruct (existsb (String.eqb ext) e0).
Qed.

Lemma move_file_classify config desktop_path total_files filename p (s : state W) :
  move_file config desktop_path total_files filename p s =
  match classify config filename with
  | Some category =>
      move_into config desktop_path total_files filename
        (join desktop_path filename) category p s
  | None =>
      move_to_others config desktop_path total_files filename
        (join desktop_path filename) p s
  end.
Proof.
  unfold move_file, classify, file_ext, bind at 1.
  rewrite move_by_category_find.
  destruct (find_category _ _); [|done].
  unfold bind at 1. by destruct (move_into _ _ _ _ _ _ _ s) as [s' [e|p']].
Qed.
End FilterFacts.

(** C3, as the code has it.  [should_skip_file] answers true exactly when
    some pattern of the list either begins with a dot and ends the
    lower-cased file name, or occurs in the lower-cased file name; the
    pattern is compared as it is written, it is not lower-cased. *)
Theorem should_skip_file_matches {L : Lower} (filename : string)
    (skip_patterns : list string) :
  should_skip_file filename skip_patterns = true ↔
  ∃ pattern, pattern ∈ skip_patterns ∧
    (startswith pattern "." = true ∧ endswith (lower filename) pattern = true
     ∨ contains (lower filename) pattern = true).
Proof.
  induction skip_patterns as [|pattern rest IH]; cbn [should_skip_file].
  - split; [done|]. intros (q & Hq & _). by apply elem_of_nil in Hq.
  - destruct (startswith pattern "." && endswith (lower filename) pattern) eqn:E1.
    + split; [|done]. intros _. exists pattern.
      apply andb_true_iff in E1. split; [left|]; tauto.
    + destruct (contains (lower filename) pattern) eqn:E2.
      * split; [|done]. intros _. exists pattern. split; [left|by right].
      * rewrite IH. split.
        -- intros (q & Hq & Hm). exists q. split; [by right|done].
        -- intros (q & [->|Hq]%elem_of_cons & Hm); [|by exists q].
           destruct Hm as [[H1 H2]|H3]; [|congruence].
           rewrite H1, H2 in E1. done.
Qed.

(** C3, the claim as worded fails: with the pattern [TMP] and the file
    [x.tmp] the lower-cased pattern occurs in the name, yet the filter
    answers false. *)
Lemma should_skip_file_keeps_pattern_case :
  should_skip_spec "x.tmp" ["TMP"] = true
  ∧ should_skip_file "x.tmp" ["TMP"] = false.
Proof. split; reflexivity. Qed.

(** C2, as the code has it.  The extension is the one [os.path.splitext]
    gives, lower-cased: the suffix from the last dot of the name on, unless
    nothing but dots comes before that dot in the name, and the empty
    string when the name has no dot.  The file goes to the first category,
    in the order of the configuration, whose extensions hold it, and to
    the folder [others] when no category does. *)
Theorem classify_first_match {L : Lower} (config : Configuration)
    (filename : string) :
  (∀ stem t, filename = stem +:+ "." +:+ t →
     has_char extsep t = false → has_char sep t = false →
     file_ext filename =
       if all_char extsep (basename stem) then "" else lower ("." +:+ t))
  ∧ (has_char extsep (basename filename) = false → file_ext filename = "")
  ∧ (∀ category, classify config filename = Some category ↔
       ∃ before extensions after,
         categories config = before ++ (category, extensions) :: after
         ∧ file_ext filename ∈ extensions
         ∧ ∀ c e, (c, e) ∈ before → file_ext filename ∉ e)
  ∧ (classify config filename = None ↔
       ∀ c e, (c, e) ∈ categories config → file_ext filename ∉ e)
  ∧ (∀ (W : Type) (H : OS W) desktop_path total_files p (s : state W),
       move_file config desktop_path total_files filename p s =
       match classify config filename with
       | Some category =>
           move_into config desktop_path total_files filename
             (join desktop_path filename) category p s
       | None =>
           move_to_others config desktop_path total_files filename
             (join desktop_path filename) p s
       end).
Proof.
  split_and!.
  - intros stem t -> Hdot Hsep. unfold file_ext.
    rewrite splitext_dot by done.
    destruct (all_char extsep (basename stem)); [apply lower_empty|done].
  - intros Hno. unfold file_ext. rewrite splitext_no_dot by done. apply lower_empty.
  - intros category. apply find_category_Some.
  - apply find_category_None.
  - intros. apply move_file_classify.
Qed.

Lemma classify_first_match_witness :
  file_ext "Photo.JPG" = ".jpg"
  ∧ file_ext "README" = ""
  ∧ file_ext ".jpg" = ""
  ∧ classify default_configuration "Photo.JPG" = Some "图片".
Proof.
  destruct (classify_first_match default_configuration "Photo.JPG")
    as (Hext & _ & Hsome & _).
  destruct (classify_first_match default_configuration "README")
    as (_ & Hnone & _).
  destruct (classify_first_match default_configuration ".jpg")
    as (Hdots & _).
  split_and!.
  - apply (Hext "Photo" "JPG"); reflexivity.
  - apply Hnone; reflexivity.
  - apply (Hdots "" "jpg"); reflexivity.
  - apply Hsome. exists [], [".jpg"; ".jpeg"; ".png"; ".gif"; ".bmp"; ".webp"], (tail (categories default_configuration)).
    split_and!; [reflexivity| |].
    + rewrite (Hext "Photo" "JPG") by reflexivity. apply list_elem_of_here.
    + intros c e Hin. by apply elem_of_nil in Hin.
Defined.

(** C2, the claim as worded fails: the name [.jpg] ends with the suffix
    [.jpg], which the first category holds, yet the file is left for the
    folder [others]. *)
Lemma classify_leading_dot :
  classify_spec default_configuration ".jpg" = Some "图片"
  ∧ classify default_configuration ".jpg" = None.
Proof. split; reflexivity. Qed.

(** ** The configuration loader *)

Section DictFacts.
Context {L : Lower}.
Context {V : Type}.
Implicit Types d : list (string * V).

Lemma dict_get_set_eq k v d : dict_get k (dict_set k v d) = Some v.
Proof.
  induction d as [|[k' v'] d IH]; cbn [dict_set dict_get].
  - by rewrite String.eqb_refl.
  - destruct (String.eqb k k') eqn:E; cbn [dict_get]; by rewrite E.
Qed.

Lemma dict_get_set_ne k k' v d : k ≠ k' → dict_get k (dict_set k' v d) = dict_get k d.
Proof.
  intros Hne. induction d as [|[k0 v0] d IH]; cbn [dict_set dict_get].
  - by apply String.eqb_neq in Hne as ->.
  - destruct (String.eqb k' k0) eqn:E; cbn [dict_get]; [|by rewrite IH].
    apply String.eqb_eq in E as ->. by apply String.eqb_neq in Hne as ->.
Qed.

Lemma dict_get_set k k' v d :
  dict_get k (dict_set k' v d) = if decide (k = k') then Some v else dict_get k d.
Proof.
  case_decide as E; [subst; apply dict_get_set_eq|by apply dict_get_set_ne].
Qed.

Lemma dict_get_None k d : dict_get k d = None ↔ k ∉ d.*1.
Proof.
  induction d as [|[k' v'] d IH]; cbn [dict_get fmap list_fmap fst].
  - split; [|done]. intros _ Hin. by apply elem_of_nil in Hin.
  - rewrite not_elem_of_cons. destruct (String.eqb_spec k k'); [|tauto].
    split; [done|tauto].
Qed.

Lemma dict_get_elem k v d : dict_get k d = Some v → (k, v) ∈ d.
Proof.
  induction d as [|[k' v'] d IH]; cbn [dict_get]; [done|].
  destruct (String.eqb_spec k k') as [->|]; [intros [= ->]; left|right; auto].
Qed.

Lemma dict_get_NoDup k v d : NoDup d.*1 → (k, v) ∈ d → dict_get k d = Some v.
Proof.
  induction d as [|[k' v'] d IH]; cbn [dict_get fmap list_fmap fst].
  - intros _ Hin. by apply elem_of_nil in Hin.
  - intros [Hk Hd]%NoDup_cons [[= -> ->]|Hin]%elem_of_cons.
    + by rewrite String.eqb_refl.
    + destruct (String.eqb_spec k k') as [->|]; [|auto].
      exfalso. apply Hk. apply list_elem_of_fmap. by exists (k', v).
Qed.

Lemma dict_set_keys k v d :
  (dict_set k v d).*1 = if decide (k ∈ d.*1) then d.*1 else d.*1 ++ [k].
Proof.
  induction d as [|[k' v'] d IH]; cbn [dict_set fmap list_fmap fst].
  - case_decide as E; [by apply elem_of_nil in E|done].
  - destruct (String.eqb_spec k k') as [->|Hne]; cbn [fmap list_fmap fst].
    + rewrite decide_True by left. done.
    + fold (fmap (M:=list) (@fst string V)). rewrite IH.
      destruct (decide (k ∈ d.*1)) as [Hin|Hin].
      * rewrite decide_True by (by right). done.
      * rewrite decide_False; [done|]. by intros [?|?]%elem_of_cons.
Qed.

Lemma dict_set_NoDup k v d : NoDup d.*1 → NoDup (dict_set k v d).*1.
Proof.
  intros Hd. rewrite dict_set_keys. case_decide as E; [done|].
  apply NoDup_app. split_and!; [done| |apply NoDup_singleton].
  intros x Hx ->%list_elem_of_singleton. done.
Qed.

(** an update replaces the entries it names and keeps the others *)
Lemma dict_merge_get k d o :
  NoDup o.*1 →
  dict_get k (dict_merge d o) =
    match dict_get k o with Some v => Some v | None => dict_get k d end.
Proof.
  unfold dict_merge. revert d.
  induction o as [|[k' v'] o IH]; intros d Hnd; cbn [fold_left dict_get]; [done|].
  cbn in Hnd. apply NoDup_cons in Hnd as [Hk Ho]. rewrite IH by done. cbn [fst snd].
  destruct (String.eqb_spec k k') as [->|Hne].
  - apply dict_get_None in Hk as ->. apply dict_get_set_eq.
  - destruct (dict_get k o); [done|]. by apply dict_get_set_ne.
Qed.
End DictFacts.

Section LoaderFacts.
Context {L : Lower}.
Implicit Types store : gmap nat (list (string * json)).
Implicit Types config : list (string * value).

Lemma view_set store k v config :
  view store (dict_set k v config) = dict_set k (deref store v) (view store config).
Proof.
  unfold view. induction config as [|[k' v'] c IH]; cbn; [done|].
  destruct (String.eqb k k'); cbn; [done|]. by f_equal.
Qed.

Lemma view_get store k config :
  dict_get k (view store config) = deref store <$> dict_get k config.
Proof.
  unfold view. induction config as [|[k' v'] c IH]; cbn; [done|].
  by destruct (String.eqb k k').
Qed.

Lemma view_insert_fresh store l d config :
  (∀ k, (k, Ref l) ∉ config) → view (<[l := d]> store) config = view store config.
Proof.
  unfold view. induction config as [|[k' v'] c IH]; intros Hno; cbn; [done|].
  rewrite IH by (intros k Hk; eapply Hno; by right). f_equal. f_equal.
  destruct v' as [j|l']; cbn; [done|].
  rewrite lookup_insert_ne; [done|]. intros ->. eapply Hno. left.
Qed.

Lemma view_insert store l d key config :
  wf_refs config → dict_get key config = Some (Ref l) →
  view (<[l := d]> store) config = dict_set key (JObj d) (view store config).
Proof.
  intros [Hnd Hinj]. induction config as [|[k' v'] c IH]; [done|].
  cbn [dict_get]. cbn in Hnd. apply NoDup_cons in Hnd as [Hk Hc].
  destruct (String.eqb_spec key k') as [->|Hne].
  - intros [= ->]. unfold view. cbn. rewrite String.eqb_refl.
    rewrite lookup_insert_eq. cbn. f_equal.
    apply view_insert_fresh. intros k Hin.
    assert (k = k') as -> by (eapply Hinj; [by right|left]).
    apply Hk. apply list_elem_of_fmap. by exists (k', Ref l).
  - intros Hget. unfold view. cbn.
    apply String.eqb_neq in Hne as Hne'. rewrite Hne'. f_equal.
    + f_equal. destruct v' as [j|l']; cbn; [done|].
      rewrite lookup_insert_ne; [done|]. intros ->. apply Hne.
      eapply Hinj; [right; by apply dict_get_elem|left].
    + apply IH; [done| |done]. intros k1 k2 l0 H1 H2.
      eapply Hinj; by right.
Qed.

Lemma elem_of_dict_set {V} k v (d : list (string * V)) k' v' :
  (k', v') ∈ dict_set k v d → (k', v') ∈ d ∨ (k' = k ∧ v' = v).
Proof.
  induction d as [|[k0 v0] d IH]; cbn [dict_set].
  - intros [[= -> ->]|Hin]%elem_of_cons; [by right|by apply elem_of_nil in Hin].
  - destruct (String.eqb_spec k k0) as [->|Hne].
    + intros [[= -> ->]|Hin]%elem_of_cons; [by right|left; by right].
    + intros [[= -> ->]|Hin]%elem_of_cons; [left; left|].
      destruct (IH Hin) as [?|?]; [left; by right|by right].
Qed.

Lemma wf_refs_set_imm config key j :
  wf_refs config → wf_refs (dict_set key (Imm j) config).
Proof.
  intros [Hnd Hinj]. split; [by apply dict_set_NoDup|].
  intros k1 k2 l [H1|[_ [=]]]%elem_of_dict_set [H2|[_ [=]]]%elem_of_dict_set.
  by eapply Hinj.
Qed.

Lemma merge_config_refines dflt user_config : ∀ store config,
  NoDup user_config.*1 → wf_refs config →
  (∀ key, key ∈ user_config.*1 →
     dict_get key (view store config) = dict_get key dflt) →
  mergeable dflt user_config →
  ∃ store' config',
    merge_config user_config store config = (store', config', None)
    ∧ view store' config' =
        fold_left
          (fun acc kv =>
             dict_set kv.1 (merge_value_spec (dict_get kv.1 dflt) kv.2) acc)
          user_config (view store config).
Proof.
  induction user_config as [|[key uv] rest IH]; intros store config Hnd Hwf Hsame Hm.
  { by exists store, config. }
  cbn in Hnd. apply NoDup_cons in Hnd as [Hkey Hrest].
  assert (Hm' : mergeable dflt rest).
  { intros k d v Hin. apply (Hm k d v). by right. }
  assert (Hkd := Hsame key ltac:(left)). rewrite view_get in Hkd.
  cbn [merge_config fold_left fst snd].
  assert (∀ store1 config1,
    wf_refs config1 →
    view store1 config1 =
      dict_set key (merge_value_spec (dict_get key dflt) uv) (view store config) →
    ∃ store' config',
      merge_config rest store1 config1 = (store', config', None)
      ∧ view store' config' =
          fold_left
            (fun acc kv =>
               dict_set kv.1 (merge_value_spec (dict_get kv.1 dflt) kv.2) acc)
            rest (dict_set key (merge_value_spec (dict_get key dflt) uv)
                    (view store config))) as Hnext.
  { intros store1 config1 Hwf1 Hview. rewrite <- Hview. apply IH; try done.
    intros k Hk. rewrite Hview, dict_get_set_ne; [apply Hsame; by right|].
    intros ->. done. }
  destruct (dict_get key config) as [[j|l]|] eqn:Hget; cbn in Hkd.
  - destruct j as [| | | | |d0];
      try (apply Hnext; [by apply wf_refs_set_imm|];
           rewrite view_set, <- Hkd; reflexivity).
    destruct (Hm key d0 uv ltac:(left) ltac:(done)) as [o ->].
    cbn [dict_update]. apply Hnext; [by apply wf_refs_set_imm|].
    by rewrite view_set, <- Hkd.
  - destruct (Hm key (default [] (store !! l)) uv ltac:(left) ltac:(done)) as [o ->].
    cbn [dict_update]. apply Hnext; [done|].
    rewrite <- Hkd. cbn [merge_value_spec]. by apply view_insert.
  - apply Hnext; [by apply wf_refs_set_imm|].
    rewrite view_set, <- Hkd. reflexivity.
Qed.

Lemma DEFAULT_CONFIG_wf : wf_refs DEFAULT_CONFIG.
Proof.
  split.
  - by apply (bool_decide_unpack _).
  - intros k1 k2 l H1 H2. unfold DEFAULT_CONFIG in *.
    repeat (apply elem_of_cons in H1 as [H1|H1]; [try discriminate|]);
      [|by apply elem_of_nil in H1].
    repeat (apply elem_of_cons in H2 as [H2|H2]; [try discriminate|]);
      [|by apply elem_of_nil in H2].
    congruence.
Qed.

(** the entry for the categories is never rebound *)
Lemma merge_config_keeps_ref user_config : ∀ store config key l,
  dict_get key config = Some (Ref l) →
  dict_get key (merge_config user_config store config).1.2 = Some (Ref l).
Proof.
  induction user_config as [|[k uv] rest IH]; intros store config key l Hget; [done|].
  cbn [merge_config].
  destruct (dict_get k config) as [[j|l']|] eqn:Hk.
  - assert (key ≠ k) by congruence.
    destruct j; try (apply IH; by rewrite dict_get_set_ne).
    destruct (dict_update fields uv) as [d [e|]]; cbn; [by rewrite dict_get_set_ne|].
    apply IH. by rewrite dict_get_set_ne.
  - destruct (dict_update _ uv) as [d [e|]]; cbn; [done|]. by apply IH.
  - assert (key ≠ k) by congruence. apply IH. by rewrite dict_get_set_ne.
Qed.
End LoaderFacts.

(** C8, as the code has it.  A file that cannot be read or parsed leaves
    the default as it is and gives a warning.  For an override that gives
    a mapping wherever the default has one, the loader returns, without a
    warning, the default merged one level deep: an override key whose
    default is a mapping has the override's entries replacing the
    same-named default entries and the others retained; any other
    override key carries the override value.  Whatever the override
    holds, a default entry that is a mapping is never rebound. *)
Theorem load_config_merges (store : gmap nat (list (string * json))) :
  (∀ e, load_config (BadConfigFile e) store
        = (store, DEFAULT_CONFIG, [MsgConfigError e]))
  ∧ (∀ user_config,
       NoDup user_config.*1 →
       mergeable (view store DEFAULT_CONFIG) user_config →
       ∃ store' config,
         load_config (ConfigFile user_config) store = (store', config, [])
         ∧ view store' config
           = load_config_spec (view store DEFAULT_CONFIG) user_config
         ∧ ∀ key,
             dict_get key (view store' config) =
             match dict_get key user_config with
             | Some uv =>
                 Some (merge_value_spec
                         (dict_get key (view store DEFAULT_CONFIG)) uv)
             | None => dict_get key (view store DEFAULT_CONFIG)
             end)
  ∧ (∀ d o key, NoDup o.*1 →
       dict_get key (dict_merge d o) =
       match dict_get (V:=json) key o with
       | Some v => Some v
       | None => dict_get key d
       end)
  ∧ (∀ user_config,
       dict_get "categories" (load_config (ConfigFile user_config) store).1.2
       = Some (Ref categories_loc)).
Proof.
  split_and!.
  - done.
  - intros user_config Hnd Hm.
    destruct (merge_config_refines (view store DEFAULT_CONFIG) user_config
                store DEFAULT_CONFIG Hnd DEFAULT_CONFIG_wf (fun _ _ => eq_refl) Hm)
      as (store' & config & Hrun & Hview).
    exists store', config. unfold load_config. rewrite Hrun.
    split_and!; [done|exact Hview|].
    intros key. rewrite Hview. clear Hrun Hview Hm.
    generalize (view store DEFAULT_CONFIG) at 2 4 as acc.
    induction user_config as [|[k uv] rest IH]; intros acc; [done|].
    cbn in Hnd. apply NoDup_cons in Hnd as [Hk Hrest].
    cbn [fold_left dict_get fst snd]. rewrite IH by done.
    destruct (String.eqb_spec key k) as [->|Hne].
    + apply dict_get_None in Hk as ->. by rewrite dict_get_set_eq.
    + destruct (dict_get key rest); [done|]. by rewrite dict_get_set_ne.
  - intros d o key Hnd. by apply dict_merge_get.
  - intros user_config. unfold load_config.
    pose proof (merge_config_keeps_ref user_config store DEFAULT_CONFIG
                  "categories" categories_loc eq_refl) as Hk.
    by destruct (merge_config user_config store DEFAULT_CONFIG) as [[s c] r].
Qed.

Lemma load_config_merges_witness :
  let user_config :=
    [ ("categories", JObj [("图片", jstrs [".heic"]); ("字体", jstrs [".ttf"])]);
      ("skip_files", jstrs [".bak"]);
      ("language", JStr "zh") ] in
  ∃ store' config,
    load_config (ConfigFile user_config) initial_store = (store', config, [])
    ∧ dict_get "skip_files" (view store' config) = Some (jstrs [".bak"])
    ∧ dict_get "language" (view store' config) = Some (JStr "zh")
    ∧ dict_get "backup_log" (view store' config) = Some (JBool true)
    ∧ dict_get "categories" (view store' config) =
        Some (JObj (dict_merge default_categories
                      [("图片", jstrs [".heic"]); ("字体", jstrs [".ttf"])])).
Proof.
  intros user_config.
  destruct (load_config_merges initial_store) as (_ & Hmerge & _).
  destruct (Hmerge user_config) as (store' & config & Hrun & _ & Hkeys).
  - by apply (bool_decide_unpack _).
  - intros key d uv Hin Hd. unfold user_config in Hin.
    repeat (apply elem_of_cons in Hin as [[= -> ->]|Hin]);
      [by eexists|discriminate Hd|discriminate Hd|by apply elem_of_nil in Hin].
  - exists store', config. split; [exact Hrun|].
    split_and!; rewrite Hkeys; reflexivity.
Defined.

(** C8, the claim as worded fails: the override gives the number 5 for
    [categories], whose default is a mapping; the claim has 5 replace the
    default, the loader keeps the default categories and warns. *)
Lemma load_config_keeps_mapping :
  dict_get "categories"
    (load_config_spec (view initial_store DEFAULT_CONFIG) [("categories", JNum 5)])
  = Some (JNum 5)
  ∧ load_config (ConfigFile [("categories", JNum 5)]) initial_store
    = (initial_store, DEFAULT_CONFIG, [MsgConfigError TypeError])
  ∧ dict_get "categories" (view initial_store DEFAULT_CONFIG)
    = Some (JObj default_categories).
Proof.
  split_and!; by vm_compute.
Qed.

(** C10.  [load_config] copies [DEFAULT_CONFIG] one level deep only.  For
    an override with entries for [categories], the merge changes the
    dictionary the default refers to; a later call without override then
    returns the merged categories, not the original ones, so two calls
    with the same argument differ.  An entry the loader rebinds in its
    copy ([skip_files]) does not leak in this way. *)
Theorem load_config_shares_default :
  ∃ user_config,
    let first := load_config (ConfigFile user_config) initial_store in
    let again := load_config NoConfigFile first.1.1 in
    let fresh := load_config NoConfigFile initial_store in
    first.1.1 !! categories_loc ≠ initial_store !! categories_loc
    ∧ view again.1.1 again.1.2 ≠ view initial_store fresh.1.2
    ∧ dict_get "categories" (view again.1.1 again.1.2)
      = dict_get "categories" (view first.1.1 first.1.2)
    ∧ dict_get "categories" (view again.1.1 again.1.2)
      ≠ dict_get "categories" (view initial_store fresh.1.2)
    ∧ dict_get "skip_files" (view first.1.1 first.1.2) = Some (jstrs [".bak"])
    ∧ dict_get "skip_files" (view again.1.1 again.1.2)
      = dict_get "skip_files" (view initial_store fresh.1.2).
Proof.
  exists [ ("skip_files", jstrs [".bak"]);
           ("categories", JObj [("图片", jstrs [".heic"])]) ].
  split_and!; vm_compute; congruence.
Qed.

(** ** The main loop of [organize_files] *)

Section LoopFacts.
Context {L : Lower}.
Context {W : Type} `{OS W}.
Implicit Types s : state W.

Lemma in_world_world s : in_world (world s) s = s.
Proof. by destruct s. Qed.

(** a move into a category folder either raises with nothing printed, or
  prints one line and counts the file *)
Lemma move_into_outcome config desktop_path total_files filename src_path
  category p s :
(∃ s1 e,
   move_into config desktop_path total_files filename src_path category p s
   = (s1, inl e) ∧ output s1 = output s)
∨ (∃ w dst_path,
   move_into config desktop_path total_files filename src_path category p s
   = (say (MsgMoved (processed p + 1) total_files filename category)
          (in_world w s),
      inr (moved_one config src_path dst_path p))).
Proof.
unfold move_into, bind, ask, now, call, print, ret.
destruct (os_exists _ (world s)).
- destruct (splitext filename) as [base ext]. cbn [world in_world].
  destruct (os_now (world s)) as [w1 t]. cbn [fst snd].
  destruct (os_move _ _ w1) as [w2 [e|]]; cbn [fst snd].
  + left. by eexists _, e.
  + right. by eexists w2, _.
- destruct (os_move _ _ (world s)) as [w2 [e|]]; cbn [fst snd].
  + left. by eexists _, e.
  + right. by eexists w2, _.
Qed.

Lemma move_to_others_outcome config desktop_path total_files filename src_path
  p s :
(∃ s1 e,
   move_to_others config desktop_path total_files filename src_path p s
   = (s1, inl e) ∧ output s1 = output s)
∨ (∃ w,
   move_to_others config desktop_path total_files filename src_path p s
   = (say (MsgUncategorized (processed p + 1) total_files filename)
          (in_world w s),
      inr (moved_one config src_path
             (join (join desktop_path others) filename) p))).
Proof.
unfold move_to_others, bind, call, print, ret.
destruct (os_makedirs _ (world s)) as [w1 [e|]]; cbn [fst snd world in_world].
- left. by eexists _, e.
- destruct (os_move _ _ w1) as [w2 [e|]]; cbn [fst snd].
  + left. by eexists _, e.
  + right. by eexists w2.
Qed.

(** one turn of the loop never raises: the file is counted, or it is
  reported as failed and the count stays *)
Lemma organize_one_outcome config desktop_path total_files filename p s :
∃ s' p' m,
  organize_one config desktop_path total_files filename p s = (s', inr p')
  ∧ output s' = output s ++ [m]
  ∧ ((is_failure m = false ∧ processed p' = processed p + 1)
     ∨ (is_failure m = true ∧ p' = p)).
Proof.
unfold organize_one, try_catch. rewrite move_file_classify.
destruct (classify config filename) as [category|].
- destruct (move_into_outcome config desktop_path total_files filename
              (join desktop_path filename) category p s)
    as [(s1 & e & -> & Hout)|(w & dst_path & ->)].
  + eexists _, p, _. split_and!; [done|by rewrite <- Hout|].
    right. split; [by destruct e|done].
  + eexists _, _, _. split_and!; [done|done|].
    left. split; [done|]. unfold moved_one. by destruct (backup_log config).
- destruct (move_to_others_outcome config desktop_path total_files filename
              (join desktop_path filename) p s)
    as [(s1 & e & -> & Hout)|(w & ->)].
  + eexists _, p, _. split_and!; [done|by rewrite <- Hout|].
    right. split; [by destruct e|done].
  + eexists _, _, _. split_and!; [done|done|].
    left. split; [done|]. unfold moved_one. by destruct (backup_log config).
Qed.



Lemma organize_loop_outcome config desktop_path total_files files p s :
  ∃ s' p' msgs,
    organize_loop config desktop_path total_files files p s = (s', inr p')
    ∧ output s' = output s ++ msgs
    ∧ List.length msgs = List.length files
    ∧ processed p' + List.length (List.filter is_failure msgs)
      = processed p + List.length files.
Proof.
  revert p s. induction files as [|f files IH]; intros p s.
  - exists s, p, []. split_and!; [done|by rewrite app_nil_r|done|cbn; lia].
  - cbn [organize_loop]. unfold bind.
    destruct (organize_one_outcome config desktop_path total_files f p s)
      as (s1 & p1 & m & -> & Hout & Hm).
    destruct (IH p1 s1) as (s' & p' & msgs & -> & Hout' & Hlen & Hcount).
    exists s', p', (m :: msgs). split_and!; [done| |cbn; lia|].
    + by rewrite Hout', Hout, <- app_assoc.
    + cbn [List.filter List.length].
      destruct Hm as [[-> Hp]|[-> ->]]; cbn [List.length]; lia.
Qed.

(** a turn of the loop records at most the move of its own file *)
Lemma organize_one_record config desktop_path total_files filename p s s' p' :
  organize_one config desktop_path total_files filename p s = (s', inr p') →
  operations p' = operations p
  ∨ ∃ dst_path,
      operations p' = operations p ++
        [{| original := join desktop_path filename; new_location := dst_path |}].
Proof.
  unfold organize_one, try_catch. rewrite move_file_classify.
  assert (∀ dst_path,
    operations (moved_one config (join desktop_path filename) dst_path p)
      = operations p
    ∨ ∃ dst_path0,
        operations (moved_one config (join desktop_path filename) dst_path p)
        = operations p ++
          [{| original := join desktop_path filename;
              new_location := dst_path0 |}]) as Hrec.
  { intros dst_path. unfold moved_one. cbn [operations].
    destruct (backup_log config); [right; by eexists|by left]. }
  destruct (classify config filename) as [category|].
  - destruct (move_into_outcome config desktop_path total_files filename
                (join desktop_path filename) category p s)
      as [(s1 & e & -> & _)|(w & dst_path & ->)].
    + intros [= _ <-]. by left.
    + intros [= _ <-]. apply Hrec.
  - destruct (move_to_others_outcome config desktop_path total_files filename
                (join desktop_path filename) p s)
      as [(s1 & e & -> & _)|(w & ->)].
    + intros [= _ <-]. by left.
    + intros [= _ <-]. apply Hrec.
Qed.

Lemma organize_loop_records config desktop_path total_files files p s s' p' :
  organize_loop config desktop_path total_files files p s = (s', inr p') →
  ∃ added,
    operations p' = operations p ++ added
    ∧ ∀ r, r ∈ added → ∃ g, g ∈ files ∧ original r = join desktop_path g.
Proof.
  revert p s. induction files as [|f files IH]; intros p s Hrun.
  - injection Hrun as <- <-. exists []. split; [by rewrite app_nil_r|].
    intros r Hr. by apply elem_of_nil in Hr.
  - cbn [organize_loop] in Hrun. unfold bind in Hrun.
    destruct (organize_one_outcome config desktop_path total_files f p s)
      as (s1 & p1 & m & Hone & _). rewrite Hone in Hrun.
    destruct (IH p1 s1 Hrun) as (added & Hadd & Horig).
    destruct (organize_one_record _ _ _ _ _ _ _ _ Hone) as [E|[dst E]].
    + exists added. split; [by rewrite Hadd, E|].
      intros r Hr. destruct (Horig r Hr) as (g & Hg & ->).
      exists g. split; [by right|done].
    + exists ({| original := join desktop_path f; new_location := dst |} :: added).
      split; [by rewrite Hadd, E, <- app_assoc|].
      intros r [->|Hr]%elem_of_cons.
      * exists f. split; [left|done].
      * destruct (Horig r Hr) as (g & Hg & ->). exists g. split; [by right|done].
Qed.
End LoopFacts.


(** ** [restore_files] *)

Section RestoreFacts.
Context {L : Lower}.
Context {W : Type} `{OS W}.
Implicit Types s : state W.

Lemma restore_files_unfold log_path s :
restore_files log_path s =
if os_exists (resolved log_path (world s)) (world s)
then try_catch (restore_from (resolved log_path (world s))) restore_aborted s
else (say MsgNoLog s, inr tt).
Proof.
unfold restore_files, bind, ask, resolved.
by destruct (os_exists _ (world s)).
Qed.

(** one turn of the loop on a record of the documented shape *)
Lemma restore_one_record r n d s :
restore_one (record_json r) {| success_count := n; dst := d |} s =
((restore_record r (s, n)).1,
 inr {| success_count := (restore_record r (s, n)).2;
        dst := Some (JStr (original r)) |}).
Proof.
unfold restore_one, record_json, restore_record.
cbn [subscript dict_get]. cbn.
unfold try_catch, restore_move, restore_failed, bind, lift, call, ask, print, ret.
cbn [as_path world in_world success_count dst].
destruct (os_makedirs (dirname (original r)) (world s)) as [w1 [e|]];
  cbn [fst snd world in_world]; [done|].
destruct (os_exists (new_location r) w1); cbn [fst snd world in_world]; [|done].
by destruct (os_move (new_location r) (original r) w1) as [w2 [e|]].
Qed.

Lemma restore_loop_records ops n d s :
∃ d',
  restore_loop (record_json <$> ops) {| success_count := n; dst := d |} s =
  ((restore_records ops (s, n)).1,
   inr {| success_count := (restore_records ops (s, n)).2; dst := d' |}).
Proof.
revert n d s. induction ops as [|r ops IH]; intros n d s.
- by exists d.
- cbn [fmap list_fmap restore_loop]. unfold bind.
  rewrite restore_one_record.
  destruct (IH (restore_record r (s, n)).2 (Some (JStr (original r)))
              (restore_record r (s, n)).1) as [d' Hd'].
  exists d'. fold (fmap (M:=list) record_json). rewrite Hd'.
  unfold restore_records. cbn [fold_left].
  by destruct (restore_record r (s, n)).
Qed.

Lemma restore_record_output r s n :
∃ m, output (restore_record r (s, n)).1 = output s ++ [m]
     ∧ (restore_record r (s, n)).2 ≤ n + 1.
Proof.
unfold restore_record.
destruct (os_makedirs _ (world s)) as [w1 [e|]]; cbn.
{ eexists. split; [done|lia]. }
destruct (os_exists _ w1); cbn.
- destruct (os_move _ _ w1) as [w2 [e|]]; cbn;
    eexists; (split; [done|lia]).
- eexists. split; [done|lia].
Qed.

Lemma restore_records_output ops s n :
∃ msgs, output (restore_records ops (s, n)).1 = output s ++ msgs
        ∧ List.length msgs = List.length ops
        ∧ (restore_records ops (s, n)).2 ≤ n + List.length ops.
Proof.
revert s n. induction ops as [|r ops IH]; intros s n.
- exists []. cbn. split_and!; [by rewrite app_nil_r|done|lia].
- unfold restore_records. cbn [fold_left].
  destruct (restore_record_output r s n) as (m & Hm & Hn).
  destruct (restore_record r (s, n)) as [s1 n1]. cbn [fst snd] in *.
  destruct (IH s1 n1) as (msgs & Hmsgs & Hlen & Hcount).
  exists (m :: msgs). split_and!.
  + unfold restore_records in Hmsgs. by rewrite Hmsgs, Hm, <- app_assoc.
  + cbn. lia.
  + unfold restore_records in Hcount. cbn [List.length]. lia.
Qed.

Lemma restore_from_records log_path s doc ops :
os_load log_path (world s) = inr doc →
get_operations doc = inr (JArr (record_json <$> ops)) →
ops ≠ [] →
try_catch (restore_from log_path) restore_aborted s =
(restore_finish log_path (List.length ops) (restore_records (reverse ops) (s, 0)),
 inr tt).
Proof.
intros Hload Hops Hne.
unfold try_catch, restore_from, bind at 1, query. rewrite Hload.
unfold bind at 1, lift at 1. rewrite Hops.
assert (truthy (JArr (record_json <$> ops)) = true) as ->.
{ by destruct ops. }
cbn [negb]. unfold bind at 1, lift at 1. cbn [has_len].
unfold bind at 1, lift at 1. cbn [reversed].
rewrite <- fmap_reverse. unfold bind at 1.
destruct (restore_loop_records (reverse ops) 0 None s) as [d' ->].
unfold restore_finish, bind, call, print, restore_aborted.
rewrite length_fmap, length_reverse.
destruct (restore_records (reverse ops) (s, 0)) as [s1 n1].
cbn [fst snd success_count].
destruct (os_remove log_path (world s1)) as [w2 [e|]]; cbn [fst snd]; [|done].
by destruct e.
Qed.
End RestoreFacts.

(** C6.  For a log whose operations are records, [restore_files] with an
    empty list reports it and changes nothing, the log included.  With a
    non-empty list it goes through every record, last one first, and then
    calls [os.remove] on the log whatever the count of restored files is.
    A record whose new location is not there gives one warning, leaves
    the count as it is, and the loop goes on: every record gives exactly
    one line. *)
Theorem restore_files_removes_log {W : Type} `{OS W}
    (log_path : option string) (s : state W) (doc : json)
    (ops : list MoveRecord) :
  os_exists (resolved log_path (world s)) (world s) = true →
  os_load (resolved log_path (world s)) (world s) = inr doc →
  get_operations doc = inr (JArr (record_json <$> ops)) →
  (ops = [] → restore_files log_path s = (say MsgNoOperations s, inr tt))
  ∧ (ops ≠ [] →
       restore_files log_path s =
       (restore_finish (resolved log_path (world s)) (List.length ops)
          (restore_records (reverse ops) (s, 0)), inr tt))
  ∧ (∀ total sn,
       world (restore_finish (resolved log_path (world s)) total sn)
       = (os_remove (resolved log_path (world s)) (world sn.1)).1)
  ∧ (∀ r s0 n,
       (os_makedirs (dirname (original r)) (world s0)).2 = None →
       os_exists (new_location r)
         (os_makedirs (dirname (original r)) (world s0)).1 = false →
       restore_record r (s0, n) =
       (say (MsgMissing (basename (new_location r)))
          (in_world (os_makedirs (dirname (original r)) (world s0)).1 s0), n))
  ∧ (∃ msgs,
       output (restore_records (reverse ops) (s, 0)).1 = output s ++ msgs
       ∧ List.length msgs = List.length ops
       ∧ (restore_records (reverse ops) (s, 0)).2 ≤ List.length ops).
Proof.
  intros Hfound Hload Hops. split_and!.
  - intros ->. rewrite restore_files_unfold, Hfound.
    unfold try_catch, restore_from, bind, query, lift. rewrite Hload, Hops. done.
  - intros Hne. rewrite restore_files_unfold, Hfound.
    by apply restore_from_records with doc.
  - intros total [s1 n1]. unfold restore_finish. cbn [fst snd].
    destruct (os_remove _ (world s1)) as [w2 [e|]]; cbn [fst snd]; [|done].
    by destruct e.
  - intros r s0 n Hmade Hgone. unfold restore_record. by rewrite Hmade, Hgone.
  - destruct (restore_records_output (reverse ops) s 0) as (msgs & Hout & Hlen & Hn).
    rewrite length_reverse in Hlen, Hn. by exists msgs.
Qed.

(** C7, as the code has it.  When no log is at the path,
    [restore_files] says so and leaves the world as it is.  When reading
    the log raises, it reports the format error for a text that is no
    JSON document and the exception for any other failure (a file that
    cannot be read, bytes that are no UTF-8), and leaves the world as it
    is: nothing is moved and the log stays.  The same holds when the
    document is no object, and when its operations are a number or a
    truth value. *)
Theorem restore_files_clean_failure {W : Type} `{OS W}
    (log_path : option string) (s : state W) :
  (os_exists (resolved log_path (world s)) (world s) = false →
     restore_files log_path s = (say MsgNoLog s, inr tt))
  ∧ (∀ e,
       os_exists (resolved log_path (world s)) (world s) = true →
       os_load (resolved log_path (world s)) (world s) = inl e →
       restore_files log_path s
       = (say (match e with
               | JSONDecodeError => MsgLogFormat
               | _ => MsgRestoreError e
               end) s, inr tt))
  ∧ (∀ doc,
       os_exists (resolved log_path (world s)) (world s) = true →
       os_load (resolved log_path (world s)) (world s) = inr doc →
       (∀ kv, doc ≠ JObj kv) →
       restore_files log_path s = (say (MsgRestoreError AttributeError) s, inr tt))
  ∧ (∀ kv v,
       os_exists (resolved log_path (world s)) (world s) = true →
       os_load (resolved log_path (world s)) (world s) = inr (JObj kv) →
       dict_get "operations" kv = Some v →
       truthy v = true → (∃ n, v = JNum n) ∨ (∃ b, v = JBool b) →
       restore_files log_path s = (say (MsgRestoreError TypeError) s, inr tt))
  ∧ (∀ m, world (say m s) = world s).
Proof.
  split_and!.
  - intros Hgone. by rewrite restore_files_unfold, Hgone.
  - intros e Hfound Hload. rewrite restore_files_unfold, Hfound.
    unfold try_catch, restore_from, bind, query. rewrite Hload.
    by destruct e.
  - intros doc Hfound Hload Hdoc. rewrite restore_files_unfold, Hfound.
    unfold try_catch, restore_from, bind, query, lift. rewrite Hload.
    destruct doc; try done. by destruct (Hdoc fields).
  - intros kv v Hfound Hload Hget Hv Hshape.
    rewrite restore_files_unfold, Hfound.
    unfold try_catch, restore_from, bind, query, lift. rewrite Hload.
    cbn [get_operations]. rewrite Hget.
    destruct Hshape as [[n ->]|[b ->]]; cbn in Hv |- *; by rewrite Hv.
  - done.
Qed.

(** ** Paths *)

Section JoinFacts.
Context {L : Lower}.
Implicit Types d f g x : string.

Lemma is_name_spec f : is_name f = true ↔ f ≠ "" ∧ has_char sep f = false.
Proof.
  unfold is_name. rewrite andb_true_iff, !negb_true_iff, String.eqb_neq. done.
Qed.

Lemma is_entry_name_name f : is_entry_name f = true → is_name f = true.
Proof.
  unfold is_entry_name. by intros [[? _]%andb_true_iff _]%andb_true_iff.
Qed.

Lemma is_entry_names l :
  Forall (fun f => is_entry_name f = true) l →
  Forall (fun f => is_name f = true) l.
Proof. intros H. eapply Forall_impl; [exact H|]. apply is_entry_name_name. Qed.

Lemma is_dir_path_spec d : is_dir_path d = true ↔ d ≠ "" ∧ endswith d "/" = false.
Proof.
  unfold is_dir_path. rewrite andb_true_iff, !negb_true_iff, String.eqb_neq. done.
Qed.

Lemma startswith_no_sep x : has_char sep x = false → startswith x "/" = false.
Proof.
  destruct x as [|a x]; [done|]. cbn [has_char startswith].
  intros [Ha _]%orb_false_iff. by rewrite Ha.
Qed.

Lemma endswith_char_app s t c :
  t ≠ "" → endswith (s +:+ t) (String c "") = endswith t (String c "").
Proof.
  intros Ht. induction s as [|a s IH]; [done|].
  rewrite sapp_cons. cbn [endswith]. rewrite IH.
  destruct (String.eqb_spec (String a (s +:+ t)) (String c "")) as [E|]; [|done].
  injection E as -> E. destruct s; [by rewrite sapp_nil_l in E|done].
Qed.

Lemma endswith_no_char t c :
  has_char c t = false → endswith t (String c "") = false.
Proof.
  induction t as [|a t IH]; [done|]. cbn [has_char endswith].
  intros [Ha Ht]%orb_false_iff. rewrite (IH Ht), orb_false_r.
  apply String.eqb_neq. intros [= -> _]. by rewrite Ascii.eqb_refl in Ha.
Qed.

Lemma join_rel d x :
  is_dir_path d = true → startswith x "/" = false → join d x = d +:+ "/" +:+ x.
Proof.
  intros [Hd Hend]%is_dir_path_spec Hx. unfold join. rewrite Hx, Hend.
  by apply String.eqb_neq in Hd as ->.
Qed.

Lemma join_name d f :
  is_dir_path d = true → is_name f = true → join d f = d +:+ "/" +:+ f.
Proof.
  intros Hd [_ Hf]%is_name_spec. apply join_rel; [done|].
  by apply startswith_no_sep.
Qed.

Lemma join_name_dir_path d f :
  is_dir_path d = true → is_name f = true → is_dir_path (join d f) = true.
Proof.
  intros Hd Hf. rewrite (join_name d f) by done.
  apply is_name_spec in Hf as [Hne Hf]. apply is_dir_path_spec. split.
  - destruct d; [by apply is_dir_path_spec in Hd as [? _]|done].
  - rewrite <- sapp_assoc, endswith_char_app by done. by apply endswith_no_char.
Qed.

Lemma child_inj d x y : d +:+ "/" +:+ x = d +:+ "/" +:+ y → x = y.
Proof. intros E. apply (inj (String.app d)) in E. by injection E. Qed.

(** a name directly under [d] is no path under a folder of [d] *)
Lemma child_not_deeper d f c x :
  has_char sep f = false → d +:+ "/" +:+ f ≠ d +:+ "/" +:+ c +:+ "/" +:+ x.
Proof.
  intros Hf E%child_inj. subst f. rewrite has_char_app in Hf.
  apply orb_false_iff in Hf as [_ Hf]. cbn in Hf. done.
Qed.

Lemma child_not_self d x : d ≠ d +:+ "/" +:+ x.
Proof.
  intros E. apply (f_equal String.length) in E.
  rewrite sapp_length in E. change ("/" +:+ x) with (String sep x) in E.
  cbn in E. lia.
Qed.

Lemma all_char_app c s t : all_char c (s +:+ t) = all_char c s && all_char c t.
Proof.
  induction s as [|a s IH]; [done|]. rewrite sapp_cons. cbn [all_char].
  by rewrite IH, andb_assoc.
Qed.

Lemma rstrip_snoc c s : endswith s (String c "") = false → s ≠ "" →
  rstrip c (s +:+ String c "") = s.
Proof.
  induction s as [|a s IH]; [done|]. intros Hend _.
  rewrite sapp_cons. cbn [rstrip].
  destruct s as [|b s].
  - rewrite sapp_nil_l. cbn [rstrip]. rewrite Ascii.eqb_refl.
    cbn [endswith] in Hend. rewrite orb_false_r in Hend.
    apply String.eqb_neq in Hend.
    destruct (Ascii.eqb_spec a c) as [->|]; [done|done].
  - rewrite IH; [done| |done].
    cbn [endswith] in Hend. by apply orb_false_iff in Hend as [_ ?].
Qed.

Lemma not_all_sep d : is_dir_path d = true → all_char sep d = false.
Proof.
  intros [Hne Hend]%is_dir_path_spec.
  induction d as [|a d IH]; [done|]. cbn [all_char].
  destruct d as [|b d].
  - cbn [endswith] in Hend. rewrite orb_false_r in Hend.
    apply String.eqb_neq in Hend. destruct (Ascii.eqb_spec a sep) as [->|]; done.
  - rewrite IH; [by rewrite andb_false_r|done|].
    cbn [endswith] in Hend. by apply orb_false_iff in Hend as [_ ?].
Qed.

Lemma dirname_child d f :
  is_dir_path d = true → has_char sep f = false → dirname (d +:+ "/" +:+ f) = d.
Proof.
  intros Hd Hf. unfold dirname, split.
  change ("/" +:+ f) with (String sep f). rewrite (cut_last_at sep d f Hf).
  cbn [fst]. rewrite all_char_app, (not_all_sep d Hd). cbn [andb negb].
  destruct (String.eqb_spec (d +:+ String sep "") "") as [E|_].
  { by apply snoc_not_nil in E. }
  cbn [negb andb]. apply is_dir_path_spec in Hd as [Hne Hend].
  by apply rstrip_snoc.
Qed.

Lemma basename_child d f :
  has_char sep f = false → basename (d +:+ "/" +:+ f) = f.
Proof.
  intros Hf. unfold basename. change ("/" +:+ f) with (String sep f).
  by rewrite (cut_last_at sep d f Hf).
Qed.

Lemma splitext_join p : (splitext p).1 +:+ (splitext p).2 = p.
Proof.
  unfold splitext. pose proof (cut_last_join sep p) as Hp.
  destruct (cut_last sep p) as [dir name]. cbn [fst snd] in Hp.
  pose proof (cut_last_join extsep name) as Hn.
  destruct (cut_last extsep name) as [sd tl] eqn:E. cbn [fst snd] in Hn.
  destruct sd as [|a sd]; [by rewrite sapp_nil_r|].
  destruct (all_char extsep (drop_last (String a sd))); [by rewrite sapp_nil_r|].
  cbn [fst snd]. rewrite <- Hp, <- Hn, sapp_assoc. f_equal.
  (* the stem ends with the dot *)
  assert (∃ stem, String a sd = stem +:+ String extsep "") as [stem Hs].
  { clear -E. revert a sd tl E. induction name as [|b name IH]; intros a sd tl E; [done|].
    cbn [cut_last] in E. destruct (cut_last extsep name) as [h u].
    destruct h as [|h0 h].
    - destruct (Ascii.eqb_spec b extsep) as [->|]; [|done].
      injection E as <- <- _. by exists "".
    - injection E as <- <- <-. destruct (IH h0 h u eq_refl) as [stem ->].
      by exists (String b stem). }
  rewrite Hs, drop_last_snoc, sapp_assoc. done.
Qed.
End JoinFacts.

(** ** The concrete file system *)

Section PosixFacts.
Context {L : Lower}.
Implicit Types fs : gmap string node.
Implicit Types p q src dst name : string.

Lemma exists_true p fs : Posix.exists_ p fs = true ↔ is_Some (fs !! p).
Proof. unfold Posix.exists_. by rewrite bool_decide_eq_true. Qed.

Lemma exists_false p fs : Posix.exists_ p fs = false ↔ fs !! p = None.
Proof.
  unfold Posix.exists_. rewrite bool_decide_eq_false.
  by rewrite <- eq_None_not_Some.
Qed.

Lemma isdir_true p fs : Posix.isdir p fs = true ↔ fs !! p = Some Dir.
Proof. unfold Posix.isdir. by destruct (fs !! p) as [[]|]. Qed.

Lemma isfile_true p fs : Posix.isfile p fs = true ↔ ∃ c, fs !! p = Some (File c).
Proof.
  unfold Posix.isfile. destruct (fs !! p) as [[c|]|]; split; try done.
  - by exists c.
  - by intros [c ?].
  - by intros [c ?].
Qed.

(** [mkdir] and [makedirs] only add directories where nothing was *)
Lemma mkdir_keeps name fs q :
  is_Some (fs !! q) → (Posix.mkdir name fs).1 !! q = fs !! q.
Proof.
  intros Hq. unfold Posix.mkdir. destruct (fs !! name) eqn:E; [done|].
  destruct (Posix.parent_error name fs); [done|]. cbn [fst].
  rewrite lookup_insert_ne; [done|]. intros ->. rewrite E in Hq. by destruct Hq.
Qed.

Lemma mkdir_exist_ok_keeps name fs q :
  is_Some (fs !! q) → (Posix.mkdir_exist_ok name fs).1 !! q = fs !! q.
Proof.
  intros Hq. unfold Posix.mkdir_exist_ok.
  pose proof (mkdir_keeps name fs q Hq) as Hk.
  destruct (Posix.mkdir name fs) as [fs' [e|]]; cbn [fst] in *; [|done].
  by destruct (Posix.isdir name fs).
Qed.

Lemma makedirs_rec_keeps depth name fs q :
  is_Some (fs !! q) → (Posix.makedirs_rec depth name fs).1 !! q = fs !! q.
Proof.
  revert name fs. induction depth as [|depth IH]; intros name fs Hq;
    cbn [Posix.makedirs_rec].
  - destruct (split name) as [head tail].
    destruct (if String.eqb tail "" then split head else (head, tail)) as [h t].
    destruct (_ && _); [done|]. by apply mkdir_exist_ok_keeps.
  - destruct (split name) as [head tail].
    destruct (if String.eqb tail "" then split head else (head, tail)) as [h t].
    destruct (_ && _); [|by apply mkdir_exist_ok_keeps].
    pose proof (IH h fs Hq) as Hk.
    destruct (Posix.makedirs_rec depth h fs) as [fs1 r]. cbn [fst] in Hk.
    assert (is_Some (fs1 !! q)) as Hq1 by (by rewrite Hk).
    assert ((if String.eqb t "." then (fs1, None)
             else Posix.mkdir_exist_ok name fs1).1 !! q = fs !! q) as Hgo.
    { destruct (String.eqb t "."); [done|].
      by rewrite mkdir_exist_ok_keeps. }
    destruct r as [e|]; [|done]. by destruct e.
Qed.

Lemma makedirs_keeps name fs q :
  is_Some (fs !! q) → (Posix.makedirs name fs).1 !! q = fs !! q.
Proof. apply makedirs_rec_keeps. Qed.

(** a folder of an existing directory: one [mkdir], no recursion *)
Lemma makedirs_child d c fs :
  is_dir_path d = true → is_name c = true → fs !! d = Some Dir →
  Posix.makedirs (join d c) fs =
  match fs !! join d c with
  | Some Dir => (fs, None)
  | Some (File _) => (fs, Some FileExistsError)
  | None => (<[join d c := Dir]> fs, None)
  end.
Proof.
  intros Hd Hc Hdir. rewrite (join_name d c) by done.
  apply is_name_spec in Hc as [Hne Hc].
  unfold Posix.makedirs.
  assert (split (d +:+ "/" +:+ c) = (d, c)) as Hsplit.
  { pose proof (dirname_child d c Hd Hc) as Hdn. unfold dirname in Hdn.
    pose proof (basename_child d c Hc) as Hbn. unfold basename in Hbn.
    unfold split in *. destruct (cut_last sep (d +:+ "/" +:+ c)) as [h t].
    cbn [fst snd] in *. by subst. }
  assert (Posix.mkdir_exist_ok (d +:+ "/" +:+ c) fs =
          match fs !! (d +:+ "/" +:+ c) with
          | Some Dir => (fs, None)
          | Some (File _) => (fs, Some FileExistsError)
          | None => (<[d +:+ "/" +:+ c := Dir]> fs, None)
          end) as Hmk.
  { unfold Posix.mkdir_exist_ok, Posix.mkdir, Posix.isdir, Posix.parent_error.
    rewrite (dirname_child d c Hd Hc), Hdir.
    destruct (fs !! (d +:+ "/" +:+ c)) as [[x|]|] eqn:E; try done.
    destruct (String.eqb_spec (d +:+ "/" +:+ c) "") as [E0|_].
    { by destruct d. }
    destruct (String.eqb_spec d "") as [->|_]; [by apply is_dir_path_spec in Hd as [? _]|].
    done. }
  destruct (String.length (d +:+ "/" +:+ c)) as [|depth];
    cbn [Posix.makedirs_rec]; rewrite Hsplit.
  - apply String.eqb_neq in Hne as ->.
    rewrite (proj2 (exists_true d fs)) by (by rewrite Hdir).
    by rewrite andb_false_r.
  - apply String.eqb_neq in Hne as ->.
    rewrite (proj2 (exists_true d fs)) by (by rewrite Hdir).
    by rewrite andb_false_r.
Qed.

(** a failed [rename] or [move] leaves the file system as it was *)
Lemma rename_failed src dst fs e :
  (Posix.rename src dst fs).2 = Some e → (Posix.rename src dst fs).1 = fs.
Proof.
  unfold Posix.rename. destruct (fs !! src) as [[c|]|]; try done.
  - destruct (Posix.parent_error dst fs); [done|].
    by destruct (fs !! dst) as [[]|].
  - destruct (Posix.parent_error dst fs); [done|].
    destruct (fs !! dst) as [[]|]; try done. by case_bool_decide.
Qed.

Lemma move_failed_same src dst fs e :
  (Posix.move src dst fs).2 = Some e → (Posix.move src dst fs).1 = fs.
Proof.
  unfold Posix.move. destruct (Posix.isdir dst fs).
  - destruct (String.eqb src dst); [done|].
    destruct (Posix.exists_ _ fs); [done|]. apply rename_failed.
  - apply rename_failed.
Qed.

(** a regular file moved to a free path *)
Lemma move_to_free src dst fs c :
  fs !! src = Some (File c) → fs !! dst = None →
  Posix.move src dst fs =
  match Posix.parent_error dst fs with
  | Some e => (fs, Some e)
  | None => (<[dst := File c]> (delete src fs), None)
  end.
Proof.
  intros Hsrc Hdst. unfold Posix.move, Posix.isdir, Posix.rename.
  rewrite Hdst, Hsrc. by destruct (Posix.parent_error dst fs).
Qed.

(** a regular file moved to a path where no directory is: what is at
    that path is replaced *)
Lemma move_onto_file src dst fs c :
  fs !! src = Some (File c) → fs !! dst ≠ Some Dir →
  Posix.move src dst fs =
  match Posix.parent_error dst fs with
  | Some e => (fs, Some e)
  | None => (<[dst := File c]> (delete src fs), None)
  end.
Proof.
  intros Hsrc Hdst. unfold Posix.move, Posix.isdir, Posix.rename.
  rewrite Hsrc. destruct (fs !! dst) as [[x|]|]; [|done|];
    by destruct (Posix.parent_error dst fs).
Qed.

(** what a move of a regular file can touch *)
Lemma move_file_frame src dst fs c q :
  fs !! src = Some (File c) →
  q ≠ src → q ≠ dst → q ≠ join dst (basename (rstrip sep src)) →
  (Posix.move src dst fs).1 !! q = fs !! q.
Proof.
  intros Hsrc Hq1 Hq2 Hq3.
  assert (∀ to, q ≠ to → (Posix.rename src to fs).1 !! q = fs !! q) as Hren.
  { intros to Hto. unfold Posix.rename. rewrite Hsrc.
    destruct (Posix.parent_error to fs); [done|].
    destruct (fs !! to) as [[]|]; cbn [fst]; try done;
      by rewrite lookup_insert_ne, lookup_delete_ne. }
  unfold Posix.move. destruct (Posix.isdir dst fs); [|by apply Hren].
  destruct (String.eqb src dst); [done|].
  destruct (Posix.exists_ _ fs); [done|]. by apply Hren.
Qed.

(** where a moved regular file ends up *)
Lemma move_file_done src dst fs c :
  fs !! src = Some (File c) → (Posix.move src dst fs).2 = None →
  src ≠ dst →
  ∃ to, (to = dst ∨ to = join dst (basename (rstrip sep src)))
        ∧ (Posix.move src dst fs).1 = <[to := File c]> (delete src fs).
Proof.
  intros Hsrc Hok Hne.
  assert (∀ to, (Posix.rename src to fs).2 = None →
                (Posix.rename src to fs).1 = <[to := File c]> (delete src fs))
    as Hren.
  { intros to. unfold Posix.rename. rewrite Hsrc.
    destruct (Posix.parent_error to fs); [done|].
    by destruct (fs !! to) as [[]|]. }
  unfold Posix.move in *. destruct (Posix.isdir dst fs) eqn:Hdir.
  - destruct (String.eqb_spec src dst) as [|_]; [done|].
    destruct (Posix.exists_ _ fs); [done|].
    eexists. split; [by right|]. by apply Hren.
  - exists dst. split; [by left|]. by apply Hren.
Qed.

Lemma dump_frame p doc fs q :
  q ≠ p → (Posix.dump p doc fs).1 !! q = fs !! q.
Proof.
  intros Hq. unfold Posix.dump.
  destruct (fs !! p) as [[]|]; try done;
    destruct (Posix.parent_error p fs); cbn [fst]; try done;
    by rewrite lookup_insert_ne.
Qed.

Lemma dump_done p doc fs :
  (Posix.dump p doc fs).2 = None →
  (Posix.dump p doc fs).1 = <[p := File (Json doc)]> fs.
Proof.
  unfold Posix.dump.
  destruct (fs !! p) as [[]|]; try done;
    by destruct (Posix.parent_error p fs).
Qed.

Lemma remove_not_file p fs : Posix.isfile p (Posix.remove p fs).1 = false.
Proof.
  unfold Posix.remove, Posix.isfile.
  destruct (fs !! p) as [[c|]|] eqn:E; cbn [fst].
  - by rewrite lookup_delete_eq.
  - by rewrite E.
  - by rewrite E.
Qed.
End PosixFacts.

(** ** [organize_files] on the concrete file system *)

Section OrganizePosix.
Context {L : Lower}.
Implicit Types s : state posix_world.
Implicit Types fs : gmap string node.

Lemma on_files_fst f w : files (Posix.on_files f w).1 = (f (files w)).1.
Proof. unfold Posix.on_files. by destruct (f (files w)). Qed.

Lemma on_files_snd f w : (Posix.on_files f w).2 = (f (files w)).2.
Proof. unfold Posix.on_files. by destruct (f (files w)). Qed.

Lemma tick_files w : files (Posix.tick w).1 = files w.
Proof. unfold Posix.tick. by destruct (clock w). Qed.

Lemma find_category_elem ext cats c :
  find_category ext cats = Some c → c ∈ cats.*1.
Proof.
  intros (before & e & after & -> & _)%find_category_Some.
  rewrite fmap_app. apply elem_of_app. right. left.
Qed.

(** what one turn of the loop does to the file system: the folder for
    the rest may be made, and then either nothing else happens and the
    count stays, or the file is moved and recorded *)
Lemma organize_one_effect config d total g p s :
  ∃ s' p' fs1,
    organize_one config d total g p s = (s', inr p')
    ∧ (fs1 = files (world s)
       ∨ fs1 = (Posix.makedirs (join d others) (files (world s))).1)
    ∧ ((p' = p ∧ files (world s') = fs1)
       ∨ (∃ c x,
            (c ∈ (categories config).*1 ∧ fs1 = files (world s) ∨ c = others)
            ∧ (x = g
               ∨ ∃ t, x = (splitext g).1 +:+ "_" +:+ t +:+ (splitext g).2)
            ∧ (Posix.move (join d g) (join (join d c) x) fs1).2 = None
            ∧ files (world s')
              = (Posix.move (join d g) (join (join d c) x) fs1).1
            ∧ p' = moved_one config (join d g) (join (join d c) x) p)).
Proof.
  unfold organize_one, try_catch. rewrite move_file_classify.
  destruct (classify config g) as [c|] eqn:Hc.
  - apply find_category_elem in Hc.
    unfold move_into, bind, ask, now, call, print, ret, move_failed.
    cbn [os_exists os_now os_move posix world in_world].
    destruct (Posix.exists_ (join (join d c) g) (files (world s))).
    + destruct (splitext g) as [base ext] eqn:Hsp. cbn [fst snd world in_world].
      set (t := hhmmss (Posix.tick (world s)).2).
      set (dst := join (join d c) (base +:+ "_" +:+ t +:+ ext)).
      rewrite on_files_snd, tick_files.
      destruct (Posix.move (join d g) dst (files (world s))).2 as [e|] eqn:Hr.
      * eexists _, p, (files (world s)). split_and!; [done|by left|left].
        split; [done|]. cbn [say in_world world files].
        rewrite on_files_fst, tick_files. by apply move_failed_same with e.
      * eexists _, _, (files (world s)). split_and!; [done|by left|right].
        exists c, (base +:+ "_" +:+ t +:+ ext). split_and!; try done.
        -- by left.
        -- right. by exists t.
        -- cbn [say in_world world files]. by rewrite on_files_fst, tick_files.
    + cbn [fst snd world in_world]. rewrite on_files_snd.
      destruct (Posix.move (join d g) (join (join d c) g) (files (world s))).2
        as [e|] eqn:Hr.
      * eexists _, p, (files (world s)). split_and!; [done|by left|left].
        split; [done|]. cbn [say in_world world files].
        rewrite on_files_fst. by apply move_failed_same with e.
      * eexists _, _, (files (world s)). split_and!; [done|by left|right].
        exists c, g. split_and!; try done.
        -- by left.
        -- by left.
        -- cbn [say in_world world files]. by rewrite on_files_fst.
  - unfold move_to_others, bind, call, print, ret, move_failed.
    cbn [os_makedirs os_move posix world in_world].
    set (fs1 := (Posix.makedirs (join d others) (files (world s))).1).
    rewrite on_files_snd.
    destruct (Posix.makedirs (join d others) (files (world s))).2 as [e|] eqn:Hmk.
    + eexists _, p, fs1. split_and!; [done|by right|left].
      split; [done|]. cbn [say in_world world files]. by rewrite on_files_fst.
    + cbn [fst snd world in_world]. rewrite on_files_snd, on_files_fst. fold fs1.
      destruct (Posix.move (join d g) (join (join d others) g) fs1).2
        as [e|] eqn:Hr.
      * eexists _, p, fs1. split_and!; [done|by right|left].
        split; [done|]. cbn [say in_world world files].
        rewrite !on_files_fst. by apply move_failed_same with e.
      * eexists _, _, fs1. split_and!; [done|by right|right].
        exists others, g. split_and!; try done.
        -- by right.
        -- by left.
        -- cbn [say in_world world files]. by rewrite !on_files_fst.
Qed.
End OrganizePosix.

Section FrameFacts.
Context {L : Lower}.
Implicit Types s : state posix_world.
Implicit Types fs : gmap string node.

Lemma rstrip_id c (t : string) :
  endswith t (String c "") = false → rstrip c t = t.
Proof.
  induction t as [|a t IH]; [done|]. cbn [endswith rstrip].
  intros [Ha Hs]%orb_false_iff. rewrite (IH Hs).
  destruct t as [|b t]; [|done].
  apply String.eqb_neq in Ha. destruct (Ascii.eqb_spec a c) as [->|]; done.
Qed.

Lemma stamped_rel g r :
  has_char sep g = false → startswith ((splitext g).1 +:+ "_" +:+ r) "/" = false.
Proof.
  intros Hg. pose proof (splitext_join g) as Hj.
  destruct (splitext g).1 as [|a base]; [done|].
  rewrite sapp_cons in Hj |- *. cbn [startswith].
  rewrite <- Hj in Hg. cbn [has_char] in Hg.
  apply orb_false_iff in Hg as [-> _]. done.
Qed.

(** the paths a move of the loop can write to lie two levels below the
    desktop *)
Lemma target_deeper d c x g :
  is_dir_path d = true → is_name c = true → startswith x "/" = false →
  is_name g = true →
  (∃ y, join (join d c) x = d +:+ "/" +:+ c +:+ "/" +:+ y)
  ∧ (∃ y, join (join (join d c) x) (basename (rstrip sep (join d g)))
          = d +:+ "/" +:+ c +:+ "/" +:+ y).
Proof.
  intros Hd Hc Hx Hg.
  assert (join (join d c) x = d +:+ "/" +:+ c +:+ "/" +:+ x) as Hdst.
  { rewrite (join_rel (join d c) x); [|by apply join_name_dir_path|done].
    rewrite (join_name d c) by done. by rewrite !sapp_assoc. }
  split; [by exists x|]. rewrite Hdst.
  pose proof (join_name_dir_path d g Hd Hg) as Hdg.
  apply is_dir_path_spec in Hdg as [_ Hend].
  rewrite (rstrip_id sep _ Hend), (join_name d g) by done.
  apply is_name_spec in Hg as [_ Hg].
  rewrite (basename_child d g Hg). unfold join.
  rewrite (startswith_no_sep g Hg).
  destruct (String.eqb _ "" || endswith _ "/").
  - exists (x +:+ g). by rewrite !sapp_assoc.
  - exists (x +:+ "/" +:+ g). by rewrite !sapp_assoc.
Qed.

Lemma others_is_name : is_name others = true.
Proof. reflexivity. Qed.

(** one turn of the loop leaves alone every entry that is neither the
    file at hand nor two levels below the desktop *)
Lemma organize_one_keeps config d total g p s s' p' x0 q :
  is_dir_path d = true → is_name g = true →
  Forall (fun c => is_name c = true) (categories config).*1 →
  files (world s) !! join d g = Some (File x0) →
  organize_one config d total g p s = (s', inr p') →
  is_Some (files (world s) !! q) → q ≠ join d g →
  (∀ c x, q ≠ d +:+ "/" +:+ c +:+ "/" +:+ x) →
  files (world s') !! q = files (world s) !! q.
Proof.
  intros Hd Hg Hcats Hsrc Hrun Hq Hne Hshallow.
  destruct (organize_one_effect config d total g p s)
    as (s1 & p1 & fs1 & Hrun' & Hfs1 & Hcase).
  rewrite Hrun in Hrun'. injection Hrun' as <- <-.
  assert (∀ q', is_Some (files (world s) !! q') →
                fs1 !! q' = files (world s) !! q') as Hkeep.
  { intros q' Hq'. destruct Hfs1 as [->| ->]; [done|]. by apply makedirs_keeps. }
  destruct Hcase as [[_ ->]|(c & x & Hc & Hx & Hok & -> & _)]; [by apply Hkeep|].
  assert (is_name c = true) as Hcn.
  { destruct Hc as [[Hc _]| ->]; [|apply others_is_name].
    by apply (proj1 (Forall_forall _ _) Hcats). }
  assert (startswith x "/" = false) as Hxr.
  { apply is_name_spec in Hg as [_ Hg].
    destruct Hx as [->|[t ->]]; [by apply startswith_no_sep|by apply stamped_rel]. }
  destruct (target_deeper d c x g Hd Hcn Hxr Hg) as [[y1 Hy1] [y2 Hy2]].
  rewrite (move_file_frame _ _ _ x0); [by apply Hkeep| | | |].
  - rewrite Hkeep; [done|by rewrite Hsrc].
  - done.
  - rewrite Hy1. apply Hshallow.
  - rewrite Hy2. apply Hshallow.
Qed.

(** so does the whole loop, for the entries that are not its files *)
Lemma organize_loop_keeps config d total names p s s' p' q :
  is_dir_path d = true →
  Forall (fun g => is_name g = true) names → NoDup names →
  Forall (fun c => is_name c = true) (categories config).*1 →
  (∀ g, g ∈ names → Posix.isfile (join d g) (files (world s)) = true) →
  organize_loop config d total names p s = (s', inr p') →
  is_Some (files (world s) !! q) →
  (∀ g, g ∈ names → q ≠ join d g) →
  (∀ c x, q ≠ d +:+ "/" +:+ c +:+ "/" +:+ x) →
  files (world s') !! q = files (world s) !! q.
Proof.
  intros Hd Hnames Hnd Hcats. revert p s.
  induction names as [|g rest IH]; intros p s Hfiles Hrun Hq Hne Hshallow.
  { by injection Hrun as <- <-. }
  apply Forall_cons in Hnames as [Hg Hrest]. apply NoDup_cons in Hnd as [Hg' Hnd].
  cbn [organize_loop] in Hrun. unfold bind in Hrun.
  destruct (organize_one_effect config d total g p s)
    as (s1 & p1 & fs1 & Hone & _). rewrite Hone in Hrun.
  destruct (proj1 (isfile_true _ _) (Hfiles g ltac:(left))) as [x0 Hsrc].
  assert (∀ q', is_Some (files (world s) !! q') → q' ≠ join d g →
                (∀ c x, q' ≠ d +:+ "/" +:+ c +:+ "/" +:+ x) →
                files (world s1) !! q' = files (world s) !! q')
    as Hstep.
  { intros q' ? ? ?. by eapply organize_one_keeps. }
  assert (Hq1 : files (world s1) !! q = files (world s) !! q).
  { apply Hstep; [done|apply Hne; left|done]. }
  rewrite <- Hq1. apply (IH Hrest Hnd p1 s1); [|done|by rewrite Hq1| |done].
  - intros g1 Hg1. apply isfile_true.
    destruct (proj1 (isfile_true _ _) (Hfiles g1 ltac:(by right))) as [x1 Hx1].
    pose proof (proj1 (Forall_forall _ _) Hrest g1 Hg1) as Hn1.
    exists x1. rewrite Hstep; [done|by rewrite Hx1| |].
    + rewrite !join_name by done. intros E%child_inj. by subst.
    + intros c x. rewrite join_name by done.
      apply child_not_deeper. by apply is_name_spec in Hn1 as [_ ?].
  - intros g1 Hg1. apply Hne. by right.
Qed.
End FrameFacts.

Section SkipFacts.
Context {L : Lower}.
Implicit Types s : state posix_world.

Lemma make_folders_keeps d cats s s' r q :
  make_folders d cats s = (s', r) →
  is_Some (files (world s) !! q) →
  files (world s') !! q = files (world s) !! q.
Proof.
  revert s. induction cats as [|[c e] cats IH]; intros s Hrun Hq.
  { by injection Hrun as <- _. }
  cbn [make_folders] in Hrun. unfold bind, call in Hrun.
  cbn [os_makedirs posix] in Hrun. rewrite on_files_snd in Hrun.
  assert (files (world (in_world
             (Posix.on_files (Posix.makedirs (join d c)) (world s)).1 s)) !! q
          = files (world s) !! q) as Hk.
  { cbn [world in_world]. rewrite on_files_fst. by apply makedirs_keeps. }
  destruct (Posix.makedirs (join d c) (files (world s))).2 as [e'|].
  - injection Hrun as <- _. done.
  - rewrite <- Hk. eapply IH; [done|]. by rewrite Hk.
Qed.

Lemma filter_NoDup {A} (f : A → bool) (l : list A) :
  NoDup l → NoDup (List.filter f l).
Proof.
  induction 1 as [|x l Hx Hl IH]; cbn [List.filter]; [constructor|].
  destruct (f x); [|done]. constructor; [|done].
  rewrite list_elem_of_In, filter_In, <- list_elem_of_In. tauto.
Qed.

Lemma listed_files_spec config d all_items w g :
  g ∈ listed_files config d all_items w ↔
  g ∈ all_items ∧ Posix.isfile (join d g) (files w) = true
  ∧ should_skip_file g (skip_files config) = false.
Proof.
  unfold listed_files. rewrite !list_elem_of_In, !filter_In, negb_true_iff.
  cbn [os_isfile posix]. tauto.
Qed.

(** up to the end of the loop, the run leaves alone every entry that is
    neither one of its files nor two levels below the desktop *)
Lemma organize_moves_keeps config d all_items s s' r q :
  is_dir_path d = true →
  Forall (fun g => is_name g = true) all_items → NoDup all_items →
  Forall (fun c => is_name c = true) (categories config).*1 →
  organize_moves config d all_items s = (s', r) →
  is_Some (files (world s) !! q) →
  (∀ g, g ∈ listed_files config d all_items (world s) → q ≠ join d g) →
  (∀ c x, q ≠ d +:+ "/" +:+ c +:+ "/" +:+ x) →
  files (world s') !! q = files (world s) !! q.
Proof.
  intros Hd Hnames Hnd Hcats Hrun Hq Hne Hshallow.
  unfold organize_moves, bind at 1, ask in Hrun.
  set (names := listed_files config d all_items (world s)) in *.
  unfold bind at 1 in Hrun.
  destruct (make_folders d (categories config) s) as [s1 [e|[]]] eqn:Hmk.
  { injection Hrun as <- _. by eapply make_folders_keeps. }
  assert (Hk1 : ∀ q', is_Some (files (world s) !! q') →
                      files (world s1) !! q' = files (world s) !! q').
  { intros q' Hq'. by eapply make_folders_keeps. }
  unfold bind at 1, now in Hrun. cbn [os_now posix] in Hrun.
  unfold bind at 1, print in Hrun. unfold bind at 1 in Hrun.
  set (s2 := say (MsgStart (List.length names))
               (in_world (Posix.tick (world s1)).1 s1)) in *.
  assert (Hk2 : files (world s2) = files (world s1)).
  { unfold s2. cbn [say in_world world]. apply tick_files. }
  destruct (organize_loop_outcome config d (List.length names) names
              {| processed := 0; operations := [] |} s2)
    as (s3 & p3 & msgs & Hloop & _).
  rewrite Hloop in Hrun. injection Hrun as <- _.
  rewrite <- Hk1 by done. rewrite <- Hk2.
  assert (Forall (fun g => is_name g = true) names) as Hn.
  { apply Forall_forall. intros g (Hg & _)%listed_files_spec.
    by apply (proj1 (Forall_forall _ _) Hnames). }
  assert (NoDup names) as Hndn.
  { unfold names, listed_files. by do 2 apply filter_NoDup. }
  assert (∀ g, g ∈ names → Posix.isfile (join d g) (files (world s2)) = true)
    as Hthere.
  { intros g Hg. rewrite Hk2. apply isfile_true.
    apply listed_files_spec in Hg as (_ & [x Hx]%isfile_true & _).
    exists x. rewrite Hk1; [done|by rewrite Hx]. }
  apply (organize_loop_keeps config d (List.length names) names
           {| processed := 0; operations := [] |} s2 s3 p3 q
           Hd Hn Hndn Hcats Hthere Hloop); [|done|done].
  rewrite Hk2, Hk1; done.
Qed.
End SkipFacts.

Section ReportFacts.
Context {L : Lower}.
Context {W : Type} `{OS W}.

(** every record of a run is the move of one of its files *)
Lemma organize_moves_records config d all_items (s s1 : state W) total started p :
  organize_moves config d all_items s = (s1, inr (total, started, p)) →
  ∀ r, r ∈ operations p →
    ∃ g, g ∈ listed_files config d all_items (world s) ∧ original r = join d g.
Proof.
  unfold organize_moves, bind at 1, ask.
  set (names := listed_files config d all_items (world s)).
  unfold bind at 1. destruct (make_folders _ _ s) as [s2 [e|[]]]; [done|].
  unfold bind at 1, now. unfold bind at 1, print. unfold bind at 1.
  destruct (organize_loop _ _ _ names _ _) as [s3 [e|p3]] eqn:Hloop; [done|].
  intros [= _ _ _ <-] r Hr.
  destruct (organize_loop_records _ _ _ _ _ _ _ _ Hloop) as (added & Hadd & Horig).
  cbn [operations app] in Hadd. rewrite Hadd in Hr. by apply Horig.
Qed.
End ReportFacts.

Section ReportPosix.
Context {L : Lower}.
Implicit Types s : state posix_world.

(** the end of a run writes the log, if it writes anything *)
Lemma organize_report_files config d total started p s s' r :
  organize_report config d total started p s = (s', r) →
  (backup_log config && negb (bool_decide (operations p = [])) = false
   ∧ files (world s') = files (world s))
  ∨ (backup_log config && negb (bool_decide (operations p = [])) = true
     ∧ files (world s')
       = (Posix.dump (join d log_name)
            (log_json (isoformat started) (operations p) d)
            (files (world s))).1
     ∧ (r = inr tt →
        (Posix.dump (join d log_name)
           (log_json (isoformat started) (operations p) d)
           (files (world s))).2 = None)).
Proof.
  unfold organize_report, bind at 1.
  destruct (backup_log config && negb (bool_decide (operations p = []))).
  - unfold bind at 1, call. cbn [os_dump posix].
    rewrite on_files_snd.
    destruct (Posix.dump _ _ (files (world s))).2 as [e|] eqn:Hd.
    + intros [= <- <-]. right. split_and!; [done| |done].
      cbn [in_world world]. by rewrite on_files_fst.
    + unfold print, bind.
      destruct (processed p <? total)%nat; intros [= <- <-]; right;
        (split_and!; [done| |done]);
        cbn [say in_world world]; by rewrite on_files_fst.
  - unfold ret, print, bind.
    destruct (processed p <? total)%nat; intros [= <- <-]; by left.
Qed.

Lemma dump_isfile p doc fs q :
  Posix.isfile q fs = true → Posix.isfile q (Posix.dump p doc fs).1 = true.
Proof.
  intros Hq. destruct (decide (q = p)) as [->|Hne].
  - unfold Posix.dump. apply isfile_true in Hq as [c Hc]. rewrite Hc.
    destruct (Posix.parent_error p fs); cbn [fst].
    + apply isfile_true. by exists c.
    + apply isfile_true. eexists. apply lookup_insert_eq.
  - unfold Posix.isfile in *. by rewrite dump_frame.
Qed.
End ReportPosix.

(** C9, as the code has it.  Let the categories bear plain folder names
    (not empty, no separator, neither [.] nor [..]).  A file that the
    skip filter matches is not among the files of the run: after the run
    a regular file is still at its path, no record of the run names it,
    and, unless the file bears the name of the log, its content is what
    it was.  The log that the run writes, its paths being text UTF-8 can
    encode, is the list of the run's records. *)
Theorem skipped_file_untouched {L : Lower} (config : Configuration) (d : string)
    (all_items : list string) (w : posix_world) (f : string)
    (s' : state posix_world) (r : exn + unit) :
  is_dir_path d = true →
  Forall (fun g => is_entry_name g = true) all_items → NoDup all_items →
  Forall (fun c => is_entry_name c = true) (categories config).*1 →
  is_entry_name f = true →
  should_skip_file f (skip_files config) = true →
  Posix.isfile (join d f) (files w) = true →
  organize_listed config d all_items (start w) = (s', r) →
  Posix.isfile (join d f) (files (world s')) = true
  ∧ (f ≠ log_name → files (world s') !! join d f = files w !! join d f)
  ∧ (∀ s1 total started p,
       organize_moves config d all_items (start w)
       = (s1, inr (total, started, p)) →
       (∀ rec, rec ∈ operations p → original rec ≠ join d f)
       ∧ (r = inr tt → backup_log config = true → operations p ≠ [] →
          json_encodable (log_json (isoformat started) (operations p) d)
          = true →
          files (world s') !! join d log_name
          = Some (File (Json (log_json (isoformat started) (operations p) d))))).
Proof.
  intros Hd Hnames%is_entry_names Hnd Hcats%is_entry_names
    Hf%is_entry_name_name Hskip Hthere Hrun.
  assert (Hfn := Hf). apply is_name_spec in Hfn as [_ Hfsep].
  unfold organize_listed, bind in Hrun.
  destruct (organize_moves config d all_items (start w)) as [s1 r1] eqn:Hmoves.
  assert (files (world s1) !! join d f = files w !! join d f) as Hkept.
  { apply (organize_moves_keeps config d all_items (start w) s1 r1);
      try done.
    - apply isfile_true in Hthere as [c Hc]. cbn. by rewrite Hc.
    - intros g (Hg & _ & Hnot)%listed_files_spec.
      pose proof (proj1 (Forall_forall _ _) Hnames g Hg) as Hgn.
      rewrite !join_name by done. intros E%child_inj. subst g. congruence.
    - intros c x. rewrite join_name by done. by apply child_not_deeper. }
  assert (Posix.isfile (join d f) (files (world s1)) = true) as Hfile1.
  { unfold Posix.isfile in *. by rewrite Hkept. }
  destruct r1 as [e|[[total started] p]].
  { injection Hrun as <- <-. split_and!; [done|done|]. intros. done. }
  destruct (organize_report_files _ _ _ _ _ _ _ _ Hrun)
    as [[Hno Hsame]|(Hyes & Hdump & Hok)].
  - split_and!.
    + by rewrite Hsame.
    + intros _. by rewrite Hsame.
    + intros s2 total' started' p' [= <- <- <- <-]. split.
      * intros rec Hrec.
        destruct (organize_moves_records _ _ _ _ _ _ _ _ Hmoves rec Hrec)
          as (g & (Hg & _ & Hnot)%listed_files_spec & ->).
        pose proof (proj1 (Forall_forall _ _) Hnames g Hg) as Hgn.
        rewrite !join_name by done. intros E%child_inj. subst g. congruence.
      * intros _ Hlog Hne _. rewrite Hlog in Hno. cbn in Hno.
        apply negb_false_iff, bool_decide_eq_true in Hno. done.
  - split_and!.
    + rewrite Hdump. by apply dump_isfile.
    + intros Hne. rewrite Hdump, dump_frame; [done|].
      rewrite !join_name by done. by intros E%child_inj.
    + intros s2 total' started' p' [= <- <- <- <-]. split.
      * intros rec Hrec.
        destruct (organize_moves_records _ _ _ _ _ _ _ _ Hmoves rec Hrec)
          as (g & (Hg & _ & Hnot)%listed_files_spec & ->).
        pose proof (proj1 (Forall_forall _ _) Hnames g Hg) as Hgn.
        rewrite !join_name by done. intros E%child_inj. subst g. congruence.
      * intros Hr _ _ _. rewrite Hdump, (dump_done _ _ _ (Hok Hr)).
        apply lookup_insert_eq.
Qed.

(** ** Collisions *)

Section StampFacts.
Context {L : Lower}.

Lemma digit_not_sep n : Ascii.eqb (digit n) sep = false.
Proof.
  unfold digit. pose proof (Nat.mod_upper_bound n 10 ltac:(lia)) as Hlt.
  destruct (n mod 10) as [|[|[|[|[|[|[|[|[|[|k]]]]]]]]]]; try reflexivity. lia.
Qed.

Lemma hhmmss_no_sep t : has_char sep (hhmmss t) = false.
Proof.
  unfold hhmmss, two_digits. rewrite !has_char_app. cbn [has_char].
  by rewrite !digit_not_sep.
Qed.

Lemma hhmmss_length t : String.length (hhmmss t) = 6.
Proof. unfold hhmmss, two_digits. by rewrite !sapp_length. Qed.



Lemma parent_of_child d f fs :
  is_dir_path d = true → is_name f = true → fs !! d = Some Dir →
  Posix.parent_error (join d f) fs = None.
Proof.
  intros Hd Hf Hdir. assert (Hfn := Hf). apply is_name_spec in Hfn as [_ Hsep].
  unfold Posix.parent_error. rewrite (join_name d f) by done.
  rewrite (dirname_child d f Hd Hsep), Hdir.
  destruct (String.eqb_spec (d +:+ "/" +:+ f) "") as [E|_]; [by destruct d|].
  destruct (String.eqb_spec d "") as [->|_]; [|done].
  by apply is_dir_path_spec in Hd as [? _].
Qed.
End StampFacts.


(** ** The theorems at work *)



(** The folder for the rest has no collision handling at all (lines
    121-125): a file of the same name there is replaced. *)
Lemma others_overwrites :
  let w := desk [ ("c.xyz", File (Raw "incoming"));
                  ("其他", Dir); ("其他/c.xyz", File (Raw "first")) ] [noon] in
  files (world (organize_files default_configuration (start w)).1)
    !! "/home/u/Desktop/其他/c.xyz"
  = Some (File (Raw "incoming"))
  ∧ map_Forall (fun _ n => n ≠ File (Raw "first"))
      (files (world (organize_files default_configuration (start w)).1)).
Proof.
  split; [by vm_compute|].
  apply map_Forall_to_list. vm_compute.
  repeat (constructor; [cbn; congruence|]). constructor.
Qed.

Lemma skipped_file_untouched_witness :
  Posix.isfile "/home/u/Desktop/x.tmp"
    (files (world (organize_listed default_configuration "/home/u/Desktop"
                     ["a.jpg"; "b.txt"; "c.xyz"; "x.tmp"] (start desk_a)).1))
  = true
  ∧ files (world (organize_listed default_configuration "/home/u/Desktop"
                    ["a.jpg"; "b.txt"; "c.xyz"; "x.tmp"] (start desk_a)).1)
      !! "/home/u/Desktop/x.tmp"
    = Some (File (Raw "T")).
Proof.
  pose proof (skipped_file_untouched default_configuration "/home/u/Desktop"
                ["a.jpg"; "b.txt"; "c.xyz"; "x.tmp"] desk_a "x.tmp"
                (organize_listed default_configuration "/home/u/Desktop"
                   ["a.jpg"; "b.txt"; "c.xyz"; "x.tmp"] (start desk_a)).1
                (organize_listed default_configuration "/home/u/Desktop"
                   ["a.jpg"; "b.txt"; "c.xyz"; "x.tmp"] (start desk_a)).2
                eq_refl) as Hthm.
  destruct Hthm as (Hfile & Hsame & _).
  - repeat constructor.
  - by apply (bool_decide_unpack _).
  - repeat constructor.
  - reflexivity.
  - reflexivity.
  - reflexivity.
  - by destruct (organize_listed _ _ _ _).
  - split; [exact Hfile|]. exact (Hsame ltac:(discriminate)).
Defined.

(** C9, the claim as worded fails: the filter skips JSON files, the log
    of an earlier run lies on the desktop, and the run writes its own
    log over it. *)
Lemma skipped_log_overwritten :
  should_skip_file log_name (skip_files skip_json) = true
  ∧ files desk_old_log !! "/home/u/Desktop/文件整理备份.json"
    = Some (File (Raw "log of an earlier run"))
  ∧ files (world (organize_files skip_json (start desk_old_log)).1)
      !! "/home/u/Desktop/文件整理备份.json"
    = Some (File (Json (log_json "2024-05-01T12:00:00"
                          [ {| original := "/home/u/Desktop/a.jpg";
                               new_location := "/home/u/Desktop/图片/a.jpg" |} ]
                          "/home/u/Desktop"))).
Proof. split_and!; by vm_compute. Qed.


Lemma restore_files_removes_log_witness :
  ∃ s',
    restore_files None (start desk_scenario_c) = (s', inr tt)
    ∧ output s' = [MsgMissing "a.jpg"; MsgRestoreDone 0 1]
    ∧ files (world s') !! "/home/u/Desktop/文件整理备份.json" = None.
Proof.
  set (ops := [ {| original := "/home/u/Desktop/a.jpg";
                   new_location := "/home/u/Desktop/图片/a.jpg" |} ]).
  set (doc := log_json "2024-05-01T12:00:00" ops "/home/u/Desktop").
  assert (os_exists (resolved None (world (start desk_scenario_c)))
            (world (start desk_scenario_c)) = true) as Hfound.
  { vm_compute. reflexivity. }
  assert (os_load (resolved None (world (start desk_scenario_c)))
            (world (start desk_scenario_c)) = inr doc) as Hload.
  { vm_compute. reflexivity. }
  assert (get_operations doc = inr (JArr (record_json <$> ops))) as Hops.
  { reflexivity. }
  destruct (restore_files_removes_log None (start desk_scenario_c) doc ops
              Hfound Hload Hops) as (_ & Hrun & _).
  eexists. split; [apply Hrun; discriminate|].
  split; vm_compute; reflexivity.
Defined.

Lemma restore_files_clean_failure_witness :
  restore_files None (start desk_a) = (say MsgNoLog (start desk_a), inr tt)
  ∧ restore_files None (start desk_bad_log)
    = (say MsgLogFormat (start desk_bad_log), inr tt).
Proof.
  split.
  - destruct (restore_files_clean_failure None (start desk_a)) as (Hgone & _).
    apply Hgone. by vm_compute.
  - destruct (restore_files_clean_failure None (start desk_bad_log))
      as (_ & Hbad & _).
    apply (Hbad JSONDecodeError); by vm_compute.
Defined.

(** C7, the claim as worded fails: the log parses, and its operations
    are a list with a number in it, which is no record.  The restore
    does not end there: it moves the file of the record that is sound,
    reports the number as a failed turn, and deletes the log. *)
Lemma restore_files_mixed_log :
  os_load "/home/u/Desktop/文件整理备份.json" desk_mixed_log
  = inr (JObj
           [ ("timestamp", JStr "2024-05-01T12:00:00");
             ("operations",
              JArr [ JNum 5;
                     record_json
                       {| original := "/home/u/Desktop/a.jpg";
                          new_location := "/home/u/Desktop/图片/a.jpg" |} ]);
             ("desktop_path", JStr "/home/u/Desktop") ])
  ∧ restore_files None (start desk_mixed_log)
    = ((restore_files None (start desk_mixed_log)).1, inr tt)
  ∧ output (restore_files None (start desk_mixed_log)).1
    = [ MsgRestored "a.jpg"; MsgRestoreFailed "a.jpg" TypeError;
        MsgRestoreDone 1 2 ]
  ∧ files desk_mixed_log !! "/home/u/Desktop/图片/a.jpg" = Some (File (Raw "A"))
  ∧ files (world (restore_files None (start desk_mixed_log)).1)
      !! "/home/u/Desktop/图片/a.jpg" = None
  ∧ files (world (restore_files None (start desk_mixed_log)).1)
      !! "/home/u/Desktop/a.jpg" = Some (File (Raw "A"))
  ∧ files (world (restore_files None (start desk_mixed_log)).1)
      !! "/home/u/Desktop/文件整理备份.json" = None.
Proof. split_and!; by vm_compute. Qed.

(** ** The round trip *)

Section RestorePosix.
Context {L : Lower}.
Implicit Types s : state posix_world.
Implicit Types fs : gmap string node.

Lemma endswith_cons a (t q : string) :
  endswith t q = true → endswith (String a t) q = true.
Proof. intros Ht. cbn [endswith]. fold (endswith t q). rewrite Ht. apply orb_true_r. Qed.

Lemma cut_last_head c (t : string) :
  (cut_last c t).1 = "" ∨ endswith (cut_last c t).1 (String c "") = true.
Proof.
  induction t as [|a t IH]; [by left|]. cbn [cut_last].
  destruct (cut_last c t) as [h u]. cbn [fst] in *.
  destruct h as [|b h].
  - destruct (Ascii.eqb_spec a c) as [->|]; [right|by left].
    cbn. by rewrite Ascii.eqb_refl.
  - right. destruct IH as [?|IH]; [done|]. by apply endswith_cons.
Qed.

Lemma basename_dir_path d : is_dir_path d = true → basename d ≠ "".
Proof.
  intros [Hne Hend]%is_dir_path_spec Hb. unfold basename in Hb.
  pose proof (cut_last_join sep d) as Hj. rewrite Hb, sapp_nil_r in Hj.
  destruct (cut_last_head sep d) as [E|E]; rewrite Hj in E; congruence.
Qed.

(** an existing directory whose parent is there: nothing to make *)
Lemma makedirs_existing d fs :
  is_dir_path d = true → fs !! d = Some Dir → is_Some (fs !! dirname d) →
  Posix.makedirs d fs = (fs, None).
Proof.
  intros Hd Hdir Hparent. pose proof (basename_dir_path d Hd) as Hb.
  assert (split d = (dirname d, basename d)) as Hsplit.
  { unfold dirname, basename, split. by destruct (cut_last sep d). }
  assert (Posix.mkdir_exist_ok d fs = (fs, None)) as Hmk.
  { unfold Posix.mkdir_exist_ok, Posix.mkdir, Posix.isdir. by rewrite Hdir. }
  unfold Posix.makedirs.
  destruct (String.length d) as [|depth]; cbn [Posix.makedirs_rec];
    rewrite Hsplit; apply String.eqb_neq in Hb as ->;
    rewrite (proj2 (exists_true _ fs) Hparent);
    by rewrite andb_false_r.
Qed.

Lemma dirname_length p : String.length (dirname p) ≤ String.length p.
Proof.
  assert (∀ c t, String.length (rstrip c t) ≤ String.length t) as Hstrip.
  { intros c t. induction t as [|a t IH]; [done|]. cbn [rstrip].
    destruct (rstrip c t); [destruct (Ascii.eqb a c)|]; cbn in *; lia. }
  unfold dirname, split. pose proof (cut_last_join sep p) as Hj.
  destruct (cut_last sep p) as [h t]. cbn [fst snd] in *.
  apply (f_equal String.length) in Hj. rewrite sapp_length in Hj.
  destruct (_ && _); [pose proof (Hstrip sep h)|]; lia.
Qed.

Lemma dirname_not_child d x : dirname d ≠ d +:+ "/" +:+ x.
Proof.
  intros E. pose proof (dirname_length d) as Hl. rewrite E in Hl.
  rewrite sapp_length in Hl. change ("/" +:+ x) with (String sep x) in Hl.
  cbn in Hl. lia.
Qed.

(** one record whose file is in its new place and whose old place is free *)
Lemma restore_record_exact d r s n x g :
  let fs := files (world s) in
  is_dir_path d = true → fs !! d = Some Dir → is_Some (fs !! dirname d) →
  is_name g = true → original r = join d g →
  fs !! new_location r = Some (File x) → fs !! original r = None →
  restore_record r (s, n) =
  (say (MsgRestored (basename (original r)))
     (in_world (Posix.with_files (world s)
                  (<[original r := File x]> (delete (new_location r) fs))) s),
   n + 1).
Proof.
  intros fs Hd Hdir Hparent Hg Ho Hnew Hold.
  assert (dirname (original r) = d) as Hdn.
  { rewrite Ho, (join_name d g) by done. apply dirname_child; [done|].
    by apply is_name_spec in Hg as [_ ?]. }
  assert (os_makedirs d (world s) = (world s, None)) as Hmk.
  { cbn [os_makedirs posix]. unfold Posix.on_files. fold fs.
    rewrite (makedirs_existing d fs Hd Hdir Hparent).
    unfold Posix.with_files, fs. by destruct (world s). }
  assert (os_exists (new_location r) (world s) = true) as Hex.
  { cbn [os_exists posix]. apply exists_true. fold fs. by rewrite Hnew. }
  assert (os_move (new_location r) (original r) (world s)
          = (Posix.with_files (world s)
               (<[original r := File x]> (delete (new_location r) fs)), None))
    as Hmv.
  { cbn [os_move posix]. unfold Posix.on_files. fold fs.
    rewrite (move_to_free _ _ _ x Hnew Hold).
    assert (Posix.parent_error (original r) fs = None) as ->; [|done].
    rewrite Ho. by apply parent_of_child. }
  unfold restore_record. rewrite Hdn, Hmk. cbn [fst snd].
  by rewrite Hex, Hmv.
Qed.
End RestorePosix.

Section RestoreAll.
Context {L : Lower}.
Implicit Types s : state posix_world.
Implicit Types fs : gmap string node.

Lemma record_paths_differ d r r' fs fs' :
  is_dir_path d = true → undoable d fs r → undoable d fs' r' →
  original r ≠ new_location r' ∧ d ≠ original r ∧ d ≠ new_location r
  ∧ dirname d ≠ original r ∧ dirname d ≠ new_location r.
Proof.
  intros Hd (x & g & c & y & Hg & Ho & Hn & _) (x' & g' & c' & y' & _ & _ & Hn' & _).
  rewrite Ho, Hn, Hn', (join_name d g) by done. split_and!.
  - apply child_not_deeper. by apply is_name_spec in Hg as [_ ?].
  - apply child_not_self.
  - apply child_not_self.
  - apply dirname_not_child.
  - apply dirname_not_child.
Qed.

(** the loop of [restore_files] on records that can be undone: each file
    goes back, in the order of the list *)
Lemma restore_records_exact d ops : ∀ s n,
  is_dir_path d = true →
  files (world s) !! d = Some Dir →
  is_Some (files (world s) !! dirname d) →
  (∀ r, r ∈ ops → undoable d (files (world s)) r) →
  NoDup (original <$> ops) → NoDup (new_location <$> ops) →
  ∃ s',
    restore_records ops (s, n) = (s', n + List.length ops)
    ∧ output s' = output s
        ++ ((fun r => MsgRestored (basename (original r))) <$> ops)
    ∧ (∀ r, r ∈ ops →
         files (world s') !! original r = files (world s) !! new_location r
         ∧ files (world s') !! new_location r = None)
    ∧ (∀ q, (∀ r, r ∈ ops → q ≠ original r ∧ q ≠ new_location r) →
         files (world s') !! q = files (world s) !! q).
Proof.
  induction ops as [|r rest IH]; intros s n Hd Hdir Hparent Hun Hndo Hndn.
  { exists s. cbn. split_and!; [f_equal; lia|by rewrite app_nil_r| |done].
    intros r Hr. by apply elem_of_nil in Hr. }
  cbn in Hndo, Hndn.
  apply NoDup_cons in Hndo as [Ho Hndo]. apply NoDup_cons in Hndn as [Hn Hndn].
  pose proof (Hun r ltac:(left)) as Hr.
  destruct (record_paths_differ d r r _ _ Hd Hr Hr) as (Hon & Hdo & Hdn & Hpo & Hpn).
  destruct Hr as (x & g & c & y & Hg & Hog & Hnc & Hnew & Hold).
  unfold restore_records. cbn [fold_left].
  rewrite (restore_record_exact d r s n x g Hd Hdir Hparent Hg Hog Hnew Hold).
  set (fs := files (world s)) in *.
  set (fs2 := <[original r := File x]> (delete (new_location r) fs)).
  set (s1 := say (MsgRestored (basename (original r)))
               (in_world (Posix.with_files (world s) fs2) s)).
  assert (files (world s1) = fs2) as Hfs1 by done.
  assert (∀ r', r' ∈ rest → original r' ≠ original r) as Hoo.
  { intros r' Hr' E. apply Ho. rewrite <- E. apply list_elem_of_fmap. by exists r'. }
  assert (∀ r', r' ∈ rest → new_location r' ≠ new_location r) as Hnn.
  { intros r' Hr' E. apply Hn. rewrite <- E. apply list_elem_of_fmap. by exists r'. }
  assert (∀ r', r' ∈ rest →
            original r' ≠ new_location r ∧ original r ≠ new_location r') as Hcross.
  { intros r' Hr'. pose proof (Hun r' ltac:(by right)) as Hu'.
    pose proof (Hun r ltac:(left)) as Hu.
    split.
    - by destruct (record_paths_differ d r' r _ _ Hd Hu' Hu) as (? & _).
    - by destruct (record_paths_differ d r r' _ _ Hd Hu Hu') as (? & _). }
  destruct (IH s1 (n + 1)) as (s' & Hrun & Hout & Hback & Hframe); try done.
  - rewrite Hfs1. unfold fs2. by rewrite lookup_insert_ne, lookup_delete_ne.
  - rewrite Hfs1. unfold fs2. by rewrite lookup_insert_ne, lookup_delete_ne.
  - intros r' Hr'. rewrite Hfs1.
    destruct (Hcross r' Hr') as [Hc1 Hc2].
    destruct (Hun r' ltac:(by right)) as (x' & g' & c' & y' & Hg' & Hog' & Hnc' & Hnew' & Hold').
    exists x', g', c', y'. split_and!; try done.
    + unfold fs2. rewrite lookup_insert_ne, lookup_delete_ne; [done| |done].
      intros E. by apply (Hnn r' Hr').
    + unfold fs2. rewrite lookup_insert_ne; [|intros E; by apply (Hoo r' Hr')].
      rewrite lookup_delete_ne; [done|]. intros E. by apply Hc1.
  - exists s'. fold (restore_records rest (s1, n + 1)). rewrite Hrun.
    split_and!.
    + f_equal. cbn [List.length]. lia.
    + rewrite Hout. cbn [output s1 say in_world fmap list_fmap].
      by rewrite <- app_assoc.
    + intros r0 [->|Hr0]%elem_of_cons.
      * rewrite !Hframe, Hfs1; unfold fs2.
        -- rewrite lookup_insert_eq, lookup_insert_ne, lookup_delete_eq by done.
           by rewrite Hnew.
        -- intros r' Hr'. destruct (Hcross r' Hr') as [Hc1 Hc2]. split.
           ++ intros E. by apply Hc1.
           ++ intros E. by apply (Hnn r' Hr').
        -- intros r' Hr'. destruct (Hcross r' Hr') as [Hc1 Hc2]. split.
           ++ intros E. by apply (Hoo r' Hr').
           ++ done.
      * destruct (Hback r0 Hr0) as [Hb1 Hb2]. split; [|done].
        rewrite Hb1, Hfs1. unfold fs2.
        destruct (Hcross r0 Hr0) as [Hc1 Hc2].
        rewrite lookup_insert_ne, lookup_delete_ne; [done| |done].
        intros E. by apply (Hnn r0 Hr0).
    + intros q Hq. rewrite Hframe, Hfs1.
      * unfold fs2. destruct (Hq r ltac:(left)) as [Hq1 Hq2].
        by rewrite lookup_insert_ne, lookup_delete_ne.
      * intros r' Hr'. apply Hq. by right.
Qed.
End RestoreAll.

Section TrackFacts.
Context {L : Lower}.
Implicit Types s : state posix_world.
Implicit Types fs : gmap string node.

Lemma clean_prefix fs0 ops later : clean fs0 (ops ++ later) → clean fs0 ops.
Proof.
  intros (Hfree & Hnd). split.
  - intros r Hr. apply Hfree. apply elem_of_app. by left.
  - rewrite fmap_app in Hnd. by apply NoDup_app in Hnd as [? _].
Qed.

Lemma tracks_pending d fs0 fs g rest ops :
  tracks d fs0 fs (g :: rest) ops → tracks d fs0 fs rest ops.
Proof.
  intros [H1 H2 H3 H4 H5]. split; try done.
  intros r Hr. destruct (H4 r Hr) as (g' & c & y & Hg' & Hnot & Ho & Hn).
  exists g', c, y. split_and!; try done. intros Hin. apply Hnot. by right.
Qed.

(** the folder for the rest appears: nothing recorded is disturbed *)
Lemma tracks_others d fs0 fs pending ops :
  is_dir_path d = true →
  fs !! join d others = None →
  tracks d fs0 fs pending ops →
  tracks d fs0 (<[join d others := Dir]> fs) pending ops.
Proof.
  intros Hd Hfree [H1 H2 H3 H4 H5]. split; [| | |done|done].
  - intros r Hr. destruct (H1 r Hr) as (x & Hx0 & Hxn).
    exists x. split; [done|].
    rewrite lookup_insert_ne; [done|]. intros E. rewrite <- E in Hxn. congruence.
  - intros q Hq Hno Hno'. rewrite lookup_insert_ne; [by apply H2|].
    intros <-. rewrite (H2 _ Hq Hno Hno') in Hfree. rewrite Hfree in Hq.
    by destruct Hq.
  - intros q Hq. destruct (decide (q = join d others)) as [->|Hne].
    + right. right. exists others. split; [apply others_is_name|done].
    + rewrite lookup_insert_ne in Hq by done. by apply H3.
Qed.

(** a file goes from the desktop to a place two levels below *)
Lemma tracks_move d fs0 fs g rest ops x c y :
  is_dir_path d = true → is_name g = true → g ∉ rest →
  fs0 !! join d g = Some (File x) →
  (∀ r, r ∈ ops → new_location r ≠ d +:+ "/" +:+ c +:+ "/" +:+ y) →
  tracks d fs0 fs (g :: rest) ops →
  tracks d fs0
    (<[d +:+ "/" +:+ c +:+ "/" +:+ y := File x]> (delete (join d g) fs))
    rest
    (ops ++ [{| original := join d g;
                new_location := d +:+ "/" +:+ c +:+ "/" +:+ y |}]).
Proof.
  intros Hd Hg Hrest Hsrc Hfresh [H1 H2 H3 H4 H5].
  set (dst := d +:+ "/" +:+ c +:+ "/" +:+ y) in *.
  assert (join d g ≠ dst) as Hsd.
  { unfold dst. rewrite (join_name d g) by done. apply child_not_deeper.
    by apply is_name_spec in Hg as [_ ?]. }
  split.
  - intros r [Hr|Hr]%elem_of_app; [|apply list_elem_of_singleton in Hr as ->].
    + destruct (H1 r Hr) as (x' & Hx0 & Hxn).
      destruct (H4 r Hr) as (g' & c' & y' & Hg' & Hnot & Ho & Hn).
      exists x'. split; [done|].
      rewrite lookup_insert_ne by (intros E; by apply (Hfresh r Hr)).
      rewrite lookup_delete_ne; [done|]. rewrite Hn, (join_name d g) by done.
      apply child_not_deeper. by apply is_name_spec in Hg as [_ ?].
    + cbn [original new_location]. exists x. split; [done|].
      apply lookup_insert_eq.
  - intros q Hq Hno Hno'.
    assert (q ≠ join d g) as Hq1.
    { intros ->.
      apply (Hno {| original := join d g; new_location := dst |}); [|done].
      apply elem_of_app. right. by apply list_elem_of_singleton. }
    assert (q ≠ dst) as Hq2.
    { intros ->.
      apply (Hno' {| original := join d g; new_location := dst |}); [|done].
      apply elem_of_app. right. by apply list_elem_of_singleton. }
    rewrite lookup_insert_ne, lookup_delete_ne by done. apply H2; [done| |].
    + intros r Hr. apply Hno. apply elem_of_app. by left.
    + intros r Hr. apply Hno'. apply elem_of_app. by left.
  - intros q Hq. destruct (decide (q = dst)) as [->|Hne].
    + right. left. exists {| original := join d g; new_location := dst |}.
      split; [|done]. apply elem_of_app. right.
      by apply list_elem_of_singleton.
    + rewrite lookup_insert_ne in Hq by done.
      destruct (decide (q = join d g)) as [->|Hne'].
      { rewrite lookup_delete_eq in Hq. by destruct Hq. }
      rewrite lookup_delete_ne in Hq by done.
      destruct (H3 q Hq) as [?|[(r & Hr & Hrq)|?]]; [by left| |by right; right].
      right. left. exists r. split; [|done]. apply elem_of_app. by left.
  - intros r [Hr|Hr]%elem_of_app; [|apply list_elem_of_singleton in Hr as ->].
    + destruct (H4 r Hr) as (g' & c' & y' & Hg' & Hnot & Ho & Hn).
      exists g', c', y'. split_and!; try done. intros Hin. apply Hnot. by right.
    + exists g, c, y. by split_and!.
  - rewrite fmap_app. apply NoDup_app. split_and!; [done| |apply NoDup_singleton].
    intros o (r & -> & Hr)%list_elem_of_fmap Ho.
    cbn in Ho. apply list_elem_of_singleton in Ho.
    destruct (H4 r Hr) as (g' & c' & y' & Hg' & Hnot & Hog & _).
    rewrite Hog, !join_name in Ho by done. apply child_inj in Ho. subst g'.
    apply Hnot. left.
Qed.
End TrackFacts.

Section TrackLoop.
Context {L : Lower}.
Implicit Types s : state posix_world.
Implicit Types fs : gmap string node.

Lemma tracks_desktop d fs0 fs pending ops :
  fs0 !! d = Some Dir → tracks d fs0 fs pending ops → fs !! d = Some Dir.
Proof.
  intros Hdir H. rewrite (tracks_kept _ _ _ _ _ H); [done|by rewrite Hdir| |].
  2:{ intros r Hr. destruct (tracks_shape _ _ _ _ _ H r Hr)
        as (g & c & y & _ & _ & _ & ->).
      intros E. symmetry in E. by apply child_not_self in E. }
  intros r Hr. destruct (tracks_shape _ _ _ _ _ H r Hr)
    as (g & c & y & Hg & _ & -> & _).
  intros E. unfold join in E. destruct (startswith g "/") eqn:Hs.
  - apply is_name_spec in Hg as [_ Hg].
    by rewrite (startswith_no_sep g Hg) in Hs.
  - destruct (String.eqb d "" || endswith d "/").
    + apply (f_equal String.length) in E. rewrite sapp_length in E.
      apply is_name_spec in Hg as [Hne _]. destruct g; [done|]. cbn in E. lia.
    + symmetry in E. by apply child_not_self in E.
Qed.

(** one turn of the loop keeps the file system on track *)
Lemma organize_one_tracks config d total g rest p s s' p' fs0 x0 :
  is_dir_path d = true → is_name g = true → g ∉ rest →
  Forall (fun c => is_name c = true) (categories config).*1 →
  backup_log config = true →
  fs0 !! d = Some Dir →
  fs0 !! join d g = Some (File x0) →
  tracks d fs0 (files (world s)) (g :: rest) (operations p) →
  organize_one config d total g p s = (s', inr p') →
  clean fs0 (operations p') →
  tracks d fs0 (files (world s')) rest (operations p').
Proof.
  intros Hd Hg Hrest Hcats Hlog Hdir Hsrc Htr Hrun Hclean.
  destruct (organize_one_effect config d total g p s)
    as (s1 & p1 & fs1 & Hrun' & Hfs1 & Hcase).
  rewrite Hrun in Hrun'. injection Hrun' as <- <-.
  set (fs := files (world s)) in *.
  pose proof (tracks_desktop d fs0 fs _ _ Hdir Htr) as Hdir'.
  assert (∃ later, operations p' = operations p ++ later) as [later Hlater].
  { destruct Hcase as [[-> _]|(c & x & _ & _ & _ & _ & ->)].
    - exists []. by rewrite app_nil_r.
    - unfold moved_one. cbn [operations]. rewrite Hlog. by eexists. }
  assert (tracks d fs0 fs1 (g :: rest) (operations p)) as Htr1.
  { destruct Hfs1 as [->| ->]; [done|].
    rewrite (makedirs_child d others fs Hd others_is_name Hdir').
    destruct (fs !! join d others) as [[]|] eqn:E; cbn [fst]; try done.
    by apply tracks_others. }
  destruct Hcase as [[-> ->]|(c & x & Hc & Hx & Hok & -> & ->)].
  { by apply tracks_pending with g. }
  assert (is_name c = true) as Hcn.
  { destruct Hc as [[Hc _]| ->]; [|apply others_is_name].
    by apply (proj1 (Forall_forall _ _) Hcats). }
  assert (startswith x "/" = false) as Hxr.
  { assert (Hgn := Hg). apply is_name_spec in Hgn as [_ Hgn].
    destruct Hx as [->|[t ->]]; [by apply startswith_no_sep|by apply stamped_rel]. }
  destruct (target_deeper d c x g Hd Hcn Hxr Hg) as [[y Hy] _].
  rewrite Hy in *. clear Hy.
  set (dst := d +:+ "/" +:+ c +:+ "/" +:+ y) in *.
  unfold moved_one in Hclean |- *. cbn [operations] in Hclean |- *.
  rewrite Hlog in Hclean |- *.
  destruct Hclean as (Hfree & Hnd).
  assert (fs0 !! dst ≠ Some Dir) as Hfree0.
  { apply (Hfree {| original := join d g; new_location := dst |}).
    apply elem_of_app. right. by apply list_elem_of_singleton. }
  assert (∀ r, r ∈ operations p → new_location r ≠ dst) as Hfresh.
  { intros r Hr E. rewrite fmap_app in Hnd.
    apply NoDup_app in Hnd as (_ & Hdisj & _).
    apply (Hdisj dst).
    - apply list_elem_of_fmap. by exists r.
    - cbn. by apply list_elem_of_singleton. }
  assert (∀ r, r ∈ operations p → original r ≠ dst) as Hold.
  { intros r Hr. destruct (tracks_shape _ _ _ _ _ Htr1 r Hr)
      as (g' & c' & y' & Hg' & _ & -> & _).
    rewrite join_name by done. apply child_not_deeper.
    by apply is_name_spec in Hg' as [_ ?]. }
  assert (fs1 !! join d g = Some (File x0)) as Hsrc1.
  { rewrite (tracks_kept _ _ _ _ _ Htr1); [done|by rewrite Hsrc| |].
    - intros r Hr. destruct (tracks_shape _ _ _ _ _ Htr1 r Hr)
        as (g' & c' & y' & Hg' & Hnot & -> & _).
      rewrite !join_name by done. intros E%child_inj. subst g'.
      apply Hnot. left.
    - intros r Hr. destruct (tracks_shape _ _ _ _ _ Htr1 r Hr)
        as (g' & c' & y' & _ & _ & _ & ->).
      rewrite join_name by done. intros E. symmetry in E. revert E.
      apply child_not_deeper. by apply is_name_spec in Hg as [_ ?]. }
  assert (fs1 !! dst ≠ Some Dir) as Hdst1.
  { intros Hsome.
    destruct (tracks_new _ _ _ _ _ Htr1 dst ltac:(by rewrite Hsome))
      as [Hin|[(r & Hr & E)|(c' & Hc' & E)]].
    - rewrite (tracks_kept _ _ _ _ _ Htr1 dst Hin Hold Hfresh) in Hsome. done.
    - by apply (Hfresh r Hr).
    - rewrite (join_name d c') in E by done. unfold dst in E.
      symmetry in E. revert E. apply child_not_deeper.
      by apply is_name_spec in Hc' as [_ ?]. }
  rewrite (move_onto_file _ _ _ x0 Hsrc1 Hdst1) in Hok |- *.
  destruct (Posix.parent_error dst fs1); [done|]. cbn [fst].
  by apply tracks_move.
Qed.

(** the whole loop keeps the file system on track *)
Lemma organize_loop_tracks config d total fs0 : ∀ names p s s' p',
  is_dir_path d = true →
  Forall (fun g => is_name g = true) names → NoDup names →
  Forall (fun c => is_name c = true) (categories config).*1 →
  backup_log config = true →
  fs0 !! d = Some Dir →
  (∀ g, g ∈ names → ∃ x, fs0 !! join d g = Some (File x)) →
  tracks d fs0 (files (world s)) names (operations p) →
  organize_loop config d total names p s = (s', inr p') →
  clean fs0 (operations p') →
  tracks d fs0 (files (world s')) [] (operations p').
Proof.
  induction names as [|g rest IH];
    intros p s s' p' Hd Hnames Hnd Hcats Hlog Hdir Hfiles Htr Hrun Hclean.
  { by injection Hrun as <- <-. }
  apply Forall_cons in Hnames as [Hg Hnames]. apply NoDup_cons in Hnd as [Hnot Hnd].
  cbn [organize_loop] in Hrun. unfold bind in Hrun.
  destruct (organize_one_outcome config d total g p s)
    as (s1 & p1 & m & Hone & _). rewrite Hone in Hrun.
  destruct (organize_loop_records _ _ _ _ _ _ _ _ Hrun) as (later & Hlater & _).
  destruct (Hfiles g ltac:(left)) as [x0 Hx0].
  apply (IH p1 s1 s' p'); try done.
  - intros g' Hg'. apply Hfiles. by right.
  - apply (organize_one_tracks config d total g rest p s s1 p1 fs0 x0);
      try done.
    rewrite Hlater in Hclean. by apply clean_prefix in Hclean.
Qed.
End TrackLoop.

Section TrackRun.
Context {L : Lower}.
Implicit Types s : state posix_world.
Implicit Types fs : gmap string node.

(** the folders of the categories are all that [make_folders] adds *)
Lemma make_folders_new d cats : ∀ s s' r q,
  is_dir_path d = true →
  Forall (fun c => is_name c = true) cats.*1 →
  files (world s) !! d = Some Dir →
  make_folders d cats s = (s', r) →
  is_Some (files (world s') !! q) →
  is_Some (files (world s) !! q) ∨ ∃ c, is_name c = true ∧ q = join d c.
Proof.
  induction cats as [|[c e] cats IH]; intros s s' r q Hd Hcats Hdir Hrun Hq.
  { injection Hrun as <- _. by left. }
  cbn in Hcats. apply Forall_cons in Hcats as [Hc Hcats].
  cbn [make_folders] in Hrun. unfold bind, call in Hrun.
  cbn [os_makedirs posix] in Hrun. rewrite on_files_snd in Hrun.
  set (s1 := in_world (Posix.on_files (Posix.makedirs (join d c)) (world s)).1 s)
    in *.
  assert (files (world s1) = (Posix.makedirs (join d c) (files (world s))).1)
    as Hfs1.
  { unfold s1. cbn [in_world world]. by rewrite on_files_fst. }
  assert (∀ q', is_Some (files (world s1) !! q') →
                is_Some (files (world s) !! q') ∨ q' = join d c) as Hnew.
  { intros q' Hq'. rewrite Hfs1, (makedirs_child d c _ Hd Hc Hdir) in Hq'.
    destruct (files (world s) !! join d c) as [[]|] eqn:E; cbn [fst] in Hq';
      try by left.
    destruct (decide (q' = join d c)) as [->|Hne]; [by right|left].
    by rewrite lookup_insert_ne in Hq'. }
  destruct (Posix.makedirs (join d c) (files (world s))).2 as [e'|].
  - injection Hrun as <- _. destruct (Hnew q Hq) as [?| ->]; [by left|right].
    by exists c.
  - assert (files (world s1) !! d = Some Dir) as Hdir1.
    { rewrite Hfs1, makedirs_keeps; [done|by rewrite Hdir]. }
    destruct (IH s1 s' r q Hd Hcats Hdir1 Hrun Hq) as [Hq1|?]; [|by right].
    destruct (Hnew q Hq1) as [?| ->]; [by left|right]. by exists c.
Qed.

(** up to the end of its loop, a run in which no moved file took the
    place of another keeps the file system on track *)
Lemma organize_moves_tracks config d all_items w s1 total started p :
  is_dir_path d = true →
  Forall (fun g => is_name g = true) all_items → NoDup all_items →
  Forall (fun c => is_name c = true) (categories config).*1 →
  backup_log config = true →
  files w !! d = Some Dir →
  organize_moves config d all_items (start w) = (s1, inr (total, started, p)) →
  clean (files w) (operations p) →
  tracks d (files w) (files (world s1)) [] (operations p).
Proof.
  intros Hd Hnames Hnd Hcats Hlog Hdir Hrun Hclean.
  unfold organize_moves, bind at 1, ask in Hrun.
  set (names := listed_files config d all_items (world (start w))) in *.
  unfold bind at 1 in Hrun.
  destruct (make_folders d (categories config) (start w)) as [s2 [e|[]]] eqn:Hmk;
    [done|].
  unfold bind at 1, now in Hrun. cbn [os_now posix] in Hrun.
  unfold bind at 1, print in Hrun. unfold bind at 1 in Hrun.
  set (s3 := say (MsgStart (List.length names))
               (in_world (Posix.tick (world s2)).1 s2)) in *.
  assert (Hfs3 : files (world s3) = files (world s2)).
  { unfold s3. cbn [say in_world world]. apply tick_files. }
  destruct (organize_loop config d (List.length names) names
              {| processed := 0; operations := [] |} s3)
    as [s4 [e|p4]] eqn:Hloop; [done|].
  injection Hrun as <- _ _ <-.
  apply (organize_loop_tracks config d (List.length names) (files w) names
           {| processed := 0; operations := [] |} s3 s4 p4); try done.
  - apply Forall_forall. intros g (Hg & _)%listed_files_spec.
    by apply (proj1 (Forall_forall _ _) Hnames).
  - unfold names, listed_files. by do 2 apply filter_NoDup.
  - intros g (_ & Hg & _)%listed_files_spec. by apply isfile_true.
  - rewrite Hfs3. split.
    + intros r Hr. by apply elem_of_nil in Hr.
    + intros q Hq _ _. exact (make_folders_keeps d _ (start w) s2 _ q Hmk Hq).
    + intros q Hq.
      destruct (make_folders_new d _ (start w) s2 _ q Hd Hcats Hdir Hmk Hq)
        as [?|?]; [by left|by right; right].
    + intros r Hr. by apply elem_of_nil in Hr.
    + constructor.
Qed.
End TrackRun.

(** C1, as the code has it.  Take a run of [organize_files] that wrote
    its log, with categories that bear plain folder names and a log whose
    paths are text UTF-8 can encode.  Let no moved file have gone to a
    path where a directory was before the run, no two files to the same
    path, and let the original path of every moved file be free when the
    run is over (the log file and the folder for the rest are what a run
    can put there).  Then [restore_files] on that log, with nothing
    changed in between, undoes the recorded moves last one first: every
    recorded file is back at its original path with its content, its new
    location is empty, and the log is gone. *)
Theorem organize_restore_roundtrip {L : Lower} (config : Configuration) (d : string)
    (all_items : list string) (w : posix_world)
    (s_mid s1 : state posix_world) (total : nat) (started : datetime)
    (p : progress) :
  is_dir_path d = true →
  Forall (fun g => is_entry_name g = true) all_items → NoDup all_items →
  Forall (fun c => is_entry_name c = true) (categories config).*1 →
  files w !! d = Some Dir → is_Some (files w !! dirname d) →
  backup_log config = true →
  organize_moves config d all_items (start w)
  = (s_mid, inr (total, started, p)) →
  organize_listed config d all_items (start w) = (s1, inr tt) →
  operations p ≠ [] →
  json_encodable (log_json (isoformat started) (operations p) d) = true →
  clean (files w) (operations p) →
  (∀ r, r ∈ operations p → files (world s1) !! original r = None) →
  ∃ s2,
    restore_files (Some (join d log_name)) s1 = (s2, inr tt)
    ∧ files (world s1) !! join d log_name
      = Some (File (Json (log_json (isoformat started) (operations p) d)))
    ∧ output s2
      = output s1
        ++ ((fun r => MsgRestored (basename (original r)))
              <$> reverse (operations p))
        ++ [MsgRestoreDone (List.length (operations p))
              (List.length (operations p))]
    ∧ (∀ r, r ∈ operations p →
         Posix.isfile (original r) (files w) = true
         ∧ files (world s2) !! original r = files w !! original r
         ∧ files (world s2) !! new_location r = None)
    ∧ files (world s2) !! join d log_name = None.
Proof.
  intros Hd Hnames%is_entry_names Hnd Hcats%is_entry_names Hdir Hparent Hlog
    Hmoves Hrun Hne _ Hclean Hgone.
  pose proof (organize_moves_tracks config d all_items w s_mid total started p
                Hd Hnames Hnd Hcats Hlog Hdir Hmoves Hclean) as Htr.
  set (ops := operations p) in *. set (fs0 := files w) in *.
  set (lp := join d log_name).
  set (doc := log_json (isoformat started) ops d).
  assert (lp = d +:+ "/" +:+ log_name) as Hlp.
  { unfold lp. by rewrite join_name. }
  (* the end of the run: the log is written *)
  unfold organize_listed, bind in Hrun. rewrite Hmoves in Hrun.
  destruct (organize_report_files _ _ _ _ _ _ _ _ Hrun)
    as [[Hno _]|(_ & Hdump & Hok)].
  { rewrite Hlog in Hno. cbn in Hno.
    apply negb_false_iff, bool_decide_eq_true in Hno. done. }
  rewrite (dump_done _ _ _ (Hok eq_refl)) in Hdump. fold lp ops doc in Hdump.
  set (fsm := files (world s_mid)) in *.
  (* no moved file bore the name of the log *)
  assert (∀ r, r ∈ ops → original r ≠ lp) as Hnolog.
  { intros r Hr E. specialize (Hgone r Hr).
    by rewrite E, Hdump, lookup_insert_eq in Hgone. }
  (* every record can be undone in the file system the run leaves *)
  assert (∀ r, r ∈ ops → undoable d (files (world s1)) r) as Hun.
  { intros r Hr. destruct (tracks_moved _ _ _ _ _ Htr r Hr) as (x & Hx0 & Hxn).
    destruct (tracks_shape _ _ _ _ _ Htr r Hr) as (g & c & y & Hg & _ & Ho & Hn).
    exists x, g, c, y. split_and!; [done..| |by apply Hgone].
    rewrite Hdump, lookup_insert_ne; [done|]. rewrite Hlp, Hn.
    apply child_not_deeper. reflexivity. }
  assert (files (world s1) !! d = Some Dir) as Hdir1.
  { rewrite Hdump, lookup_insert_ne; [|rewrite Hlp; intros E; symmetry in E;
                                       by apply child_not_self in E].
    by apply (tracks_desktop d fs0 fsm [] ops). }
  assert (is_Some (files (world s1) !! dirname d)) as Hparent1.
  { rewrite Hdump, lookup_insert_ne;
      [|rewrite Hlp; intros E; symmetry in E; by apply dirname_not_child in E].
    rewrite (tracks_kept _ _ _ _ _ Htr); [done|done| |].
    - intros r Hr. destruct (tracks_shape _ _ _ _ _ Htr r Hr)
        as (g & c & y & Hg & _ & -> & _).
      rewrite join_name by done. intros E. symmetry in E.
      by apply dirname_not_child in E.
    - intros r Hr. destruct (tracks_shape _ _ _ _ _ Htr r Hr)
        as (g & c & y & _ & _ & _ & ->).
      intros E. symmetry in E. by apply dirname_not_child in E. }
  destruct (restore_records_exact d (reverse ops) s1 0 Hd Hdir1 Hparent1)
    as (s' & Hloop & Hout & Hback & Hframe).
  { intros r Hr. rewrite elem_of_reverse in Hr. by apply Hun. }
  { rewrite fmap_reverse, reverse_Permutation. apply (tracks_distinct _ _ _ _ _ Htr). }
  { rewrite fmap_reverse, reverse_Permutation. by destruct Hclean as (_ & ?). }
  rewrite length_reverse in Hloop. cbn [plus] in Hloop.
  (* the log is still there when the loop is over, and is removed *)
  assert (files (world s') !! lp = Some (File (Json doc))) as Hlog'.
  { rewrite Hframe, Hdump; [apply lookup_insert_eq|].
    intros r Hr. rewrite elem_of_reverse in Hr. split.
    - intros E. by apply (Hnolog r Hr).
    - destruct (tracks_shape _ _ _ _ _ Htr r Hr) as (g & c & y & _ & _ & _ & ->).
      rewrite Hlp. apply child_not_deeper. reflexivity. }
  assert (resolved (Some lp) (world s1) = lp) as Hres.
  { cbn [resolved]. rewrite Hlp. by destruct d. }
  eexists. split_and!.
  - rewrite restore_files_unfold, Hres.
    cbn [os_exists posix]. rewrite (proj2 (exists_true _ _)).
    2:{ rewrite Hdump. rewrite lookup_insert_eq. by eexists. }
    rewrite (restore_from_records lp s1 doc ops); [|..|done].
    + rewrite Hloop. unfold restore_finish. cbn [fst snd os_remove posix].
      unfold Posix.on_files, Posix.remove. rewrite Hlog'. cbn [fst snd]. done.
    + cbn [os_load posix]. unfold Posix.load. rewrite Hdump.
      by rewrite lookup_insert_eq.
    + reflexivity.
  - by rewrite Hdump, lookup_insert_eq.
  - cbn [say in_world output]. by rewrite Hout, <- app_assoc.
  - intros r Hr. destruct (tracks_moved _ _ _ _ _ Htr r Hr) as (x & Hx0 & Hxn).
    destruct (Hun r Hr) as (x' & g & c & y & Hg & Ho & Hn & Hn1 & Ho1).
    destruct (Hback r ltac:(by rewrite elem_of_reverse)) as [Hb1 Hb2].
    cbn [say in_world world files Posix.with_files].
    split_and!.
    + apply isfile_true. by exists x.
    + rewrite lookup_delete_ne by (intros E; by apply (Hnolog r Hr)).
      rewrite Hb1, Hdump, lookup_insert_ne, Hxn; [done|].
      rewrite Hlp, Hn. apply child_not_deeper. reflexivity.
    + rewrite lookup_delete_ne; [done|].
      rewrite Hlp, Hn. apply child_not_deeper. reflexivity.
  - cbn [say in_world world files Posix.with_files]. apply lookup_delete_eq.
Qed.

Lemma organize_restore_roundtrip_witness :
  ∃ s2,
    restore_files (Some "/home/u/Desktop/文件整理备份.json")
      (organize_listed default_configuration "/home/u/Desktop"
         ["a.jpg"; "b.txt"; "c.xyz"; "x.tmp"] (start desk_a)).1
    = (s2, inr tt)
    ∧ files (world s2) !! "/home/u/Desktop/a.jpg" = Some (File (Raw "A"))
    ∧ files (world s2) !! "/home/u/Desktop/图片/a.jpg" = None
    ∧ files (world s2) !! "/home/u/Desktop/文件整理备份.json" = None.
Proof.
  set (items := ["a.jpg"; "b.txt"; "c.xyz"; "x.tmp"]).
  set (d := "/home/u/Desktop").
  set (ra := {| original := "/home/u/Desktop/a.jpg";
                new_location := "/home/u/Desktop/图片/a.jpg" |}).
  set (rb := {| original := "/home/u/Desktop/b.txt";
                new_location := "/home/u/Desktop/文档/b.txt" |}).
  set (rc := {| original := "/home/u/Desktop/c.xyz";
                new_location := "/home/u/Desktop/其他/c.xyz" |}).
  set (p := {| processed := 3; operations := [ra; rb; rc] |}).
  assert (organize_moves default_configuration d items (start desk_a)
          = ((organize_moves default_configuration d items (start desk_a)).1,
             inr (3, noon, p))) as Hmoves.
  { vm_compute. reflexivity. }
  assert (organize_listed default_configuration d items (start desk_a)
          = ((organize_listed default_configuration d items (start desk_a)).1,
             inr tt)) as Hrun.
  { vm_compute. reflexivity. }
  assert (∀ (P : MoveRecord → Prop), P ra → P rb → P rc →
            ∀ r, r ∈ operations p → P r) as Heach.
  { intros P Ha Hb Hc r Hr. cbn [operations p] in Hr.
    repeat (apply elem_of_cons in Hr as [->|Hr]; [assumption|]).
    apply elem_of_nil in Hr as []. }
  destruct (organize_restore_roundtrip default_configuration d items desk_a
              (organize_moves default_configuration d items (start desk_a)).1
              (organize_listed default_configuration d items (start desk_a)).1
              3 noon p) as (s2 & Hrestore & _ & _ & Hback & Hgone).
  - reflexivity.
  - repeat constructor.
  - by apply (bool_decide_unpack _).
  - repeat constructor.
  - reflexivity.
  - by eexists.
  - reflexivity.
  - exact Hmoves.
  - exact Hrun.
  - discriminate.
  - reflexivity.
  - split.
    + apply Heach; discriminate.
    + by apply (bool_decide_unpack _).
  - apply Heach; by vm_compute.
  - exists s2. destruct (Hback ra ltac:(left)) as (_ & Ha & Hna).
    split_and!; [exact Hrestore|exact Ha|exact Hna|exact Hgone].
Defined.

(** C1, the claim as worded fails: the log of an earlier run lies on the
    desktop; the run moves it like any file and records the move; the
    restore puts it back where the new log is and then removes the log.
    The recorded file is not at its original path afterwards, nor
    anywhere else. *)
Lemma earlier_log_not_restored :
  files desk_old_log !! "/home/u/Desktop/文件整理备份.json"
  = Some (File (Raw "log of an earlier run"))
  ∧ os_load "/home/u/Desktop/文件整理备份.json"
      (world (organize_files default_configuration (start desk_old_log)).1)
    = inr (log_json "2024-05-01T12:00:00"
             [ {| original := "/home/u/Desktop/a.jpg";
                  new_location := "/home/u/Desktop/图片/a.jpg" |};
               {| original := "/home/u/Desktop/文件整理备份.json";
                  new_location := "/home/u/Desktop/其他/文件整理备份.json" |} ]
             "/home/u/Desktop")
  ∧ (restore_files None
       (organize_files default_configuration (start desk_old_log)).1).2
    = inr tt
  ∧ files (world
       (restore_files None
          (organize_files default_configuration (start desk_old_log)).1).1)
      !! "/home/u/Desktop/文件整理备份.json" = None
  ∧ map_Forall (fun _ n => n ≠ File (Raw "log of an earlier run"))
      (files (world
         (restore_files None
            (organize_files default_configuration (start desk_old_log)).1).1)).
Proof.
  split_and!; [reflexivity|by vm_compute|by vm_compute|by vm_compute|].
  apply map_Forall_to_list. vm_compute.
  repeat (constructor; [cbn; congruence|]). constructor.
Qed.

(** * Further properties *)

(** ** Text and names, once more *)

Section NameFacts.
Context {L : Lower}.
Implicit Types s p t : string.

Lemma contains_empty s : contains s "" = true.
Proof. by destruct s. Qed.

Lemma lower_char_idem a : lower_char (lower_char a) = lower_char a.
Proof. by destruct a as [[] [] [] [] [] [] [] []]. Qed.

Lemma lower_idem s : lower_ascii (lower_ascii s) = lower_ascii s.
Proof.
  induction s as [|a s IH]; [done|]. cbn [lower_ascii].
  by rewrite lower_char_idem, IH.
Qed.

Lemma lower_app s t : lower_ascii (s +:+ t) = lower_ascii s +:+ lower_ascii t.
Proof.
  induction s as [|a s IH]; [done|]. rewrite sapp_cons. cbn [lower_ascii].
  by rewrite sapp_cons, IH.
Qed.

(** [lower_ascii] touches neither dots nor separators *)
Lemma lower_char_dot a : Ascii.eqb (lower_char a) extsep = Ascii.eqb a extsep.
Proof. by destruct a as [[] [] [] [] [] [] [] []]. Qed.

Lemma lower_char_sep a : Ascii.eqb (lower_char a) sep = Ascii.eqb a sep.
Proof. by destruct a as [[] [] [] [] [] [] [] []]. Qed.

Lemma has_char_lower c s :
  (∀ a, Ascii.eqb (lower_char a) c = Ascii.eqb a c) →
  has_char c (lower_ascii s) = has_char c s.
Proof.
  intros Hc. induction s as [|a s IH]; [done|]. cbn [lower_ascii has_char].
  by rewrite Hc, IH.
Qed.

Lemma all_char_lower c s :
  (∀ a, Ascii.eqb (lower_char a) c = Ascii.eqb a c) →
  all_char c (lower_ascii s) = all_char c s.
Proof.
  intros Hc. induction s as [|a s IH]; [done|]. cbn [lower_ascii all_char].
  by rewrite Hc, IH.
Qed.

Lemma drop_last_lower s : drop_last (lower_ascii s) = lower_ascii (drop_last s).
Proof.
  induction s as [|a s IH]; [done|]. cbn [lower_ascii drop_last].
  destruct s as [|b s]; [done|]. cbn [lower_ascii] in *. by rewrite IH.
Qed.

Lemma cut_last_lower c s :
  (∀ a, Ascii.eqb (lower_char a) c = Ascii.eqb a c) →
  cut_last c (lower_ascii s) = (lower_ascii (cut_last c s).1, lower_ascii (cut_last c s).2).
Proof.
  intros Hc. induction s as [|a s IH]; [done|]. cbn [lower_ascii cut_last].
  rewrite IH. destruct (cut_last c s) as [h t]. cbn [fst snd].
  destruct h as [|b h]; cbn [lower_ascii]; [|done].
  rewrite Hc. by destruct (Ascii.eqb a c).
Qed.

Lemma splitext_lower p :
  splitext (lower_ascii p) = (lower_ascii (splitext p).1, lower_ascii (splitext p).2).
Proof.
  unfold splitext. rewrite (cut_last_lower sep p lower_char_sep).
  destruct (cut_last sep p) as [dir name]. cbn [fst snd].
  rewrite (cut_last_lower extsep name lower_char_dot).
  destruct (cut_last extsep name) as [stem_dot tail]. cbn [fst snd].
  destruct stem_dot as [|a stem_dot]; [done|].
  destruct (lower_ascii (String a stem_dot)) eqn:E; [done|]. rewrite <- E.
  rewrite drop_last_lower, (all_char_lower extsep _ lower_char_dot).
  destruct (all_char extsep (drop_last (String a stem_dot))); [done|].
  cbn [fst snd]. by rewrite lower_app.
Qed.

Lemma is_ascii_app s t : is_ascii (s +:+ t) = is_ascii s && is_ascii t.
Proof.
  induction s as [|a s IH]; [done|]. rewrite sapp_cons. cbn [is_ascii].
  by rewrite IH, andb_assoc.
Qed.

Lemma is_ascii_splitext p : is_ascii p = true → is_ascii (splitext p).2 = true.
Proof.
  intros Hp. rewrite <- (splitext_join p), is_ascii_app in Hp.
  by apply andb_true_iff in Hp as [_ ?].
Qed.

(** on an ASCII name the extension is that of the lower-cased name *)
Lemma file_ext_ascii filename :
  is_ascii filename = true →
  file_ext filename = (splitext (lower_ascii filename)).2.
Proof.
  intros Hf. unfold file_ext. rewrite splitext_lower. cbn [snd].
  apply lower_ascii_text. by apply is_ascii_splitext.
Qed.

(** what [splitext] gives, told by the last dot of the path *)
Lemma splitext_cases p :
  (has_char extsep (basename p) = false ∧ splitext p = (p, ""))
  ∨ (∃ stem t,
       p = stem +:+ "." +:+ t
       ∧ has_char extsep t = false ∧ has_char sep t = false
       ∧ splitext p =
           if all_char extsep (basename stem) then (p, "")
           else (stem, String extsep t)).
Proof.
  assert (∀ q e, snd (splitext q) = e → splitext q = ((splitext q).1, e))
    as Hpair.
  { intros q e <-. by destruct (splitext q). }
  destruct (has_char extsep (basename p)) eqn:Hdot.
  - right. unfold basename in Hdot.
    pose proof (cut_last_join sep p) as Hp.
    pose proof (cut_last_tail sep p) as Hsep.
    destruct (cut_last sep p) as [dir name]. cbn [fst snd] in *.
    pose proof (cut_last_join extsep name) as Hn.
    pose proof (cut_last_tail extsep name) as Ht.
    pose proof (cut_last_head extsep name) as Hh.
    destruct (cut_last extsep name) as [h t]. cbn [fst snd] in *.
    destruct Hh as [->|Hh].
    { rewrite sapp_nil_l in Hn. subst t. congruence. }
    apply endswith_spec in Hh as [stem ->].
    assert (has_char sep t = false) as Hts.
    { rewrite <- Hn, has_char_app in Hsep. by apply orb_false_iff in Hsep as [_ ?]. }
    assert (p = (dir +:+ stem) +:+ "." +:+ t) as Ep.
    { rewrite <- Hp, <- Hn. by rewrite !sapp_assoc. }
    exists (dir +:+ stem), t. split_and!; try done.
    pose proof (splitext_dot (dir +:+ stem) t Ht Hts) as Hsnd.
    rewrite <- Ep in Hsnd. pose proof (splitext_join p) as Hj.
    destruct (all_char extsep (basename (dir +:+ stem))).
    + rewrite (Hpair p "" Hsnd). rewrite Hsnd, sapp_nil_r in Hj. by rewrite Hj.
    + rewrite (Hpair p _ Hsnd). rewrite Hsnd in Hj. f_equal.
      rewrite Ep in Hj at 2. change ("." +:+ t) with (String extsep t) in Hj.
      by apply sapp_inv_tail in Hj.
  - left. split; [done|]. pose proof (splitext_no_dot p Hdot) as Hsnd.
    pose proof (splitext_join p) as Hj. rewrite (Hpair p "" Hsnd).
    rewrite Hsnd, sapp_nil_r in Hj. by rewrite Hj.
Qed.

Lemma digit_not_dot n : Ascii.eqb (digit n) extsep = false.
Proof.
  unfold digit. pose proof (Nat.mod_upper_bound n 10 ltac:(lia)) as Hlt.
  destruct (n mod 10) as [|[|[|[|[|[|[|[|[|[|k]]]]]]]]]]; try reflexivity. lia.
Qed.

Lemma hhmmss_no_dot (now : datetime) : has_char extsep (hhmmss now) = false.
Proof.
  unfold hhmmss, two_digits. rewrite !has_char_app. cbn [has_char].
  by rewrite !digit_not_dot.
Qed.

End NameFacts.

(** ** The skip filter *)

Lemma should_skip_file_contains {L : Lower} filename skip_patterns :
  should_skip_file filename skip_patterns
  = existsb (contains (lower filename)) skip_patterns.
Proof.
  induction skip_patterns as [|pattern rest IH]; [done|].
  cbn [should_skip_file existsb]. rewrite <- IH.
  destruct (contains (lower filename) pattern) eqn:Hc.
  - by destruct (startswith pattern "." && endswith (lower filename) pattern).
  - destruct (endswith (lower filename) pattern) eqn:He.
    + apply endswith_contains in He. congruence.
    + by rewrite andb_false_r.
Qed.

(** X1.  For a pattern that begins with a dot the test on the end of the
    name adds nothing to the test for an occurrence: [should_skip_file]
    answers true exactly when some pattern occurs somewhere in the
    lower-cased file name.  A dotted pattern is no test of the extension:
    it also skips a file whose lower-cased name has it in the middle; for
    an ASCII name that is a name with the pattern, itself in lower case,
    anywhere in it. *)
Theorem should_skip_file_anywhere {L : Lower} (filename : string)
    (skip_patterns : list string) :
  should_skip_file filename skip_patterns
  = existsb (contains (lower filename)) skip_patterns
  ∧ (∀ before after pattern,
       pattern ∈ skip_patterns →
       lower filename = before +:+ pattern +:+ after →
       should_skip_file filename skip_patterns = true)
  ∧ (∀ stem rest pattern,
       pattern ∈ skip_patterns → lower_ascii pattern = pattern →
       is_ascii (stem +:+ pattern +:+ rest) = true →
       should_skip_file (stem +:+ pattern +:+ rest) skip_patterns = true).
Proof.
  split_and!; [apply should_skip_file_contains| |].
  - intros before after pattern Hin Hlow. rewrite should_skip_file_contains.
    apply existsb_exists. exists pattern. split; [by apply list_elem_of_In|].
    apply contains_spec. by exists before, after.
  - intros stem rest pattern Hin Hdot Hascii. rewrite should_skip_file_contains.
    apply existsb_exists. exists pattern. split; [by apply list_elem_of_In|].
    apply contains_spec. exists (lower_ascii stem), (lower_ascii rest).
    rewrite (lower_ascii_text _ Hascii), !lower_app. by rewrite Hdot.
Qed.

(** X2.  The empty string occurs in every name: with an empty pattern in
    [skip_files] the filter holds back every file, and the run has no
    file to move, whatever the desktop holds. *)
Theorem empty_pattern_skips_all {L : Lower} {W : Type} `{OS W} (config : Configuration)
    (desktop_path : string) (all_items : list string) (w : W) :
  "" ∈ skip_files config →
  (∀ filename, should_skip_file filename (skip_files config) = true)
  ∧ listed_files config desktop_path all_items w = [].
Proof.
  intros Hin.
  assert (∀ filename, should_skip_file filename (skip_files config) = true)
    as Hall.
  { intros filename. rewrite should_skip_file_contains. apply existsb_exists.
    exists "". split; [by apply list_elem_of_In|apply contains_empty]. }
  split; [done|]. unfold listed_files.
  induction (List.filter _ all_items) as [|f l IH]; [done|].
  cbn [List.filter]. by rewrite Hall.
Qed.

Lemma empty_pattern_skips_all_witness :
  should_skip_file "a.jpg" [".tmp"; ""] = true
  ∧ listed_files
      {| skip_files := [".tmp"; ""]; backup_log := true;
         categories := categories default_configuration |}
      "/home/u/Desktop" ["a.jpg"; "b.txt"; "c.xyz"; "x.tmp"] desk_a = [].
Proof.
  pose proof (empty_pattern_skips_all
                {| skip_files := [".tmp"; ""]; backup_log := true;
                   categories := categories default_configuration |}
                "/home/u/Desktop" ["a.jpg"; "b.txt"; "c.xyz"; "x.tmp"] desk_a)
    as Hw.
  destruct Hw as [Hall Hnone].
  - cbn [skip_files]. right. left.
  - split; [exact (Hall "a.jpg")|exact Hnone].
Defined.

(** ** The extension *)

(** X3.  The extension the classifier looks up is the lower-cased form
    of a text that is either empty or a dot followed by characters that
    are neither dots nor separators.  For an ASCII file name it is itself
    of that form and has no capital letter, so an entry of a category's
    list that has an ASCII capital in it, or that lacks the dot in front,
    matches no such file at all. *)
Theorem file_ext_shape {L : Lower} (filename : string) :
  (∃ e, file_ext filename = lower e
        ∧ (e = ""
           ∨ ∃ t, e = String extsep t
                  ∧ has_char extsep t = false ∧ has_char sep t = false))
  ∧ (is_ascii filename = true →
     lower_ascii (file_ext filename) = file_ext filename
     ∧ (file_ext filename = ""
        ∨ ∃ t, file_ext filename = String extsep t
               ∧ has_char extsep t = false ∧ has_char sep t = false)
     ∧ (∀ ext,
          lower_ascii ext ≠ ext ∨ (ext ≠ "" ∧ startswith ext "." = false) →
          file_ext filename ≠ ext)
     ∧ (∀ config category,
          (∀ extensions ext,
             (category, extensions) ∈ categories config → ext ∈ extensions →
             lower_ascii ext ≠ ext ∨ (ext ≠ "" ∧ startswith ext "." = false)) →
          classify config filename ≠ Some category)).
Proof.
  assert (∃ e, (splitext filename).2 = e
               ∧ (e = ""
                  ∨ ∃ t, e = String extsep t
                         ∧ has_char extsep t = false ∧ has_char sep t = false))
    as (e & He & Hshape0).
  { destruct (splitext_cases filename) as [[_ ->]|(stem & t & _ & Hd & Hs & ->)];
      [by exists ""; split; [|left]|].
    destruct (all_char extsep (basename stem)); [by exists ""; split; [|left]|].
    exists (String extsep t). split; [done|]. right. by exists t. }
  split; [exists e; split; [unfold file_ext; by rewrite He|done]|].
  intros Hascii.
  assert (file_ext filename = lower_ascii e) as Hext.
  { unfold file_ext. rewrite He. apply lower_ascii_text.
    rewrite <- He. by apply is_ascii_splitext. }
  assert (lower_ascii (file_ext filename) = file_ext filename) as Hlow.
  { rewrite Hext. apply lower_idem. }
  assert (file_ext filename = ""
          ∨ ∃ t, file_ext filename = String extsep t
                 ∧ has_char extsep t = false ∧ has_char sep t = false) as Hshape.
  { rewrite Hext. destruct Hshape0 as [->|(t & -> & Hd & Hs)]; [by left|].
    right. exists (lower_ascii t). cbn [lower_ascii]. split_and!; [done| |].
    - by rewrite (has_char_lower extsep t lower_char_dot).
    - by rewrite (has_char_lower sep t lower_char_sep). }
  assert (∀ ext,
            lower_ascii ext ≠ ext ∨ (ext ≠ "" ∧ startswith ext "." = false) →
            file_ext filename ≠ ext) as Hnever.
  { intros ext [Hcap|[Hne Hnodot]] E; subst ext; [done|].
    destruct Hshape as [E|(t & E & _)]; [done|]. rewrite E in Hnodot.
    by destruct t. }
  split_and!; [done|done|done|].
  - intros config category Hbad
      (before & extensions & after & Hcats & Hin & _)%find_category_Some.
    apply (Hnever (file_ext filename)); [|done].
    apply (Hbad extensions); [|done].
    rewrite Hcats. apply elem_of_app. right. left.
Qed.


Section StampedFacts.
Context {L : Lower}.
Implicit Types s p t : string.

Lemma splitext_parts q base ext :
  snd (splitext q) = ext → q = base +:+ ext → splitext q = (base, ext).
Proof.
  intros Hsnd Hq. pose proof (splitext_join q) as Hj.
  rewrite Hsnd in Hj. rewrite Hq in Hj at 2. apply sapp_inv_tail in Hj.
  destruct (splitext q) as [b e]. cbn [fst snd] in *. by subst.
Qed.

Lemma basename_app stem t :
  has_char sep t = false → basename (stem +:+ t) = basename stem +:+ t.
Proof.
  intros Ht. unfold basename. by rewrite (cut_last_app_r sep stem t Ht).
Qed.

(** the name with a tag put before its extension, the tag having neither
    dot nor separator: the extension stays *)
Lemma splitext_tagged g tag :
  has_char extsep tag = false → has_char sep tag = false → tag ≠ "" →
  splitext ((splitext g).1 +:+ tag +:+ (splitext g).2)
  = ((splitext g).1 +:+ tag, (splitext g).2).
Proof.
  intros Hdot Hsep Hne.
  destruct (splitext_cases g) as [[Hnd ->]|(stem & t & -> & Ht & Hts & ->)].
  - cbn [fst snd]. rewrite sapp_nil_r. apply splitext_parts; [|by rewrite sapp_nil_r].
    apply splitext_no_dot. rewrite (basename_app g tag Hsep), has_char_app.
    by rewrite Hnd, Hdot.
  - destruct (all_char extsep (basename stem)) eqn:Hall; cbn [fst snd].
    + rewrite sapp_nil_r. apply splitext_parts; [|by rewrite sapp_nil_r].
      rewrite !sapp_assoc.
      rewrite (splitext_dot stem (t +:+ tag)), Hall; [done| |].
      * by rewrite has_char_app, Ht, Hdot.
      * by rewrite has_char_app, Hts, Hsep.
    + apply splitext_parts; [|by rewrite sapp_assoc].
      change (String extsep t) with ("." +:+ t). rewrite <- sapp_assoc.
      rewrite (splitext_dot (stem +:+ tag) t Ht Hts).
      rewrite (basename_app stem tag Hsep), all_char_app, Hall. done.
Qed.
End StampedFacts.

(** X4.  The name a file gets when its destination is taken, the time of
    the move put between the stem and the extension, has the extension
    of the original name: it is classified as the original is, and it is
    seven characters longer. *)
Theorem stamped_name_keeps_extension {L : Lower} (config : Configuration)
    (filename : string) (now : datetime) :
  let new_name :=
    (splitext filename).1 +:+ "_" +:+ hhmmss now +:+ (splitext filename).2 in
  splitext new_name
  = ((splitext filename).1 +:+ "_" +:+ hhmmss now, (splitext filename).2)
  ∧ file_ext new_name = file_ext filename
  ∧ classify config new_name = classify config filename
  ∧ String.length new_name = String.length filename + 7.
Proof.
  intros new_name.
  assert (splitext new_name
          = ((splitext filename).1 +:+ "_" +:+ hhmmss now, (splitext filename).2))
    as Hsplit.
  { unfold new_name. rewrite <- (sapp_assoc "_" (hhmmss now)).
    apply (splitext_tagged filename ("_" +:+ hhmmss now)).
    - change ("_" +:+ hhmmss now) with (String "_" (hhmmss now)).
      cbn [has_char]. by rewrite hhmmss_no_dot.
    - change ("_" +:+ hhmmss now) with (String "_" (hhmmss now)).
      cbn [has_char]. by rewrite hhmmss_no_sep.
    - done. }
  assert (file_ext new_name = file_ext filename) as Hext.
  { unfold file_ext. by rewrite Hsplit. }
  split_and!; [done|done|unfold classify; by rewrite Hext|].
  unfold new_name. rewrite <- (splitext_join filename) at 3.
  rewrite !sapp_length, hhmmss_length. cbn. lia.
Qed.

(** X5.  Two ASCII names that differ in the case of their letters only
    have the same extension, go to the same category, and are skipped or
    kept together. *)
Theorem classify_ignores_case {L : Lower} (config : Configuration)
    (f g : string) :
  is_ascii f = true → is_ascii g = true →
  lower_ascii f = lower_ascii g →
  file_ext f = file_ext g
  ∧ classify config f = classify config g
  ∧ should_skip_file f (skip_files config)
    = should_skip_file g (skip_files config).
Proof.
  intros Hf Hg Hfg.
  assert (file_ext f = file_ext g) as Hext.
  { by rewrite (file_ext_ascii f Hf), (file_ext_ascii g Hg), Hfg. }
  split_and!; [done|unfold classify; by rewrite Hext|].
  by rewrite !should_skip_file_contains, (lower_ascii_text f Hf),
    (lower_ascii_text g Hg), Hfg.
Qed.

Lemma classify_ignores_case_witness :
  classify default_configuration "Photo.JPG"
  = classify default_configuration "photo.jpg"
  ∧ should_skip_file "Thumbs.DB" (skip_files default_configuration)
    = should_skip_file "thumbs.db" (skip_files default_configuration).
Proof.
  split.
  - apply (classify_ignores_case default_configuration "Photo.JPG" "photo.jpg");
      reflexivity.
  - apply (classify_ignores_case default_configuration "Thumbs.DB" "thumbs.db");
      reflexivity.
Defined.


(** ** The loader, once more *)

Section MergeFacts.
Context {L : Lower}.
Implicit Types store : gmap nat (list (string * json)).
Implicit Types config : list (string * value).

(** the loop of the loader over two lists in a row *)
Lemma merge_config_app a b store config :
  merge_config (a ++ b) store config =
  match merge_config a store config with
  | (store', config', None) => merge_config b store' config'
  | r => r
  end.
Proof.
  revert store config. induction a as [|[key uv] a IH]; intros store config.
  - done.
  - cbn [app merge_config].
    destruct (dict_get key config) as [[j|l]|].
    + destruct j; try apply IH.
      destruct (dict_update fields uv) as [d [e|]]; [done|apply IH].
    + destruct (dict_update _ uv) as [d [e|]]; [done|apply IH].
    + apply IH.
Qed.

(** keys that hold no mapping are rebound one after the other *)
Lemma merge_config_plain user_config : ∀ store config,
  NoDup user_config.*1 →
  (∀ key, key ∈ user_config.*1 → is_dict <$> dict_get key config ≠ Some true) →
  merge_config user_config store config
  = (store,
     fold_left (fun c kv => dict_set kv.1 (Imm kv.2) c) user_config config,
     None).
Proof.
  induction user_config as [|[key uv] rest IH]; intros store config Hnd Hplain;
    [done|].
  cbn in Hnd. apply NoDup_cons in Hnd as [Hkey Hnd].
  assert (merge_config ((key, uv) :: rest) store config
          = merge_config rest store (dict_set key (Imm uv) config)) as ->.
  { cbn [merge_config]. pose proof (Hplain key ltac:(left)) as Hk.
    destruct (dict_get key config) as [[j|l]|]; [|by destruct Hk|done].
    by destruct j. }
  cbn [fold_left fst snd]. apply IH; [done|].
  intros k Hk. rewrite dict_get_set_ne; [|by intros ->].
  apply Hplain. by right.
Qed.

Lemma fold_set_get (user_config : list (string * json)) : ∀ config key v,
  NoDup user_config.*1 → (key, v) ∈ user_config →
  dict_get key
    (fold_left (fun c kv => dict_set kv.1 (Imm kv.2) c) user_config config)
  = Some (Imm v).
Proof.
  induction user_config as [|[k uv] rest IH]; intros config key v Hnd Hin.
  { by apply elem_of_nil in Hin. }
  cbn in Hnd. apply NoDup_cons in Hnd as [Hk Hnd]. cbn [fold_left fst snd].
  apply elem_of_cons in Hin as [[= -> ->]|Hin]; [|by apply IH].
  clear IH. revert config.
  assert (∀ config, dict_get k config = Some (Imm uv) →
            dict_get k
              (fold_left (fun c kv => dict_set kv.1 (Imm kv.2) c) rest config)
            = Some (Imm uv)) as Hkeep.
  { induction rest as [|[k' v'] rest IH]; intros config Hget; [done|].
    cbn in Hk, Hnd. apply NoDup_cons in Hnd as [_ Hnd].
    apply not_elem_of_cons in Hk as [Hne Hk].
    cbn [fold_left fst snd]. apply IH; [done..|].
    by rewrite dict_get_set_ne. }
  intros config. apply Hkeep, dict_get_set_eq.
Qed.

Lemma fold_set_other (user_config : list (string * json)) : ∀ config key,
  key ∉ user_config.*1 →
  dict_get key
    (fold_left (fun c kv => dict_set kv.1 (Imm kv.2) c) user_config config)
  = dict_get key config.
Proof.
  induction user_config as [|[k uv] rest IH]; intros config key Hk; [done|].
  cbn in Hk. apply not_elem_of_cons in Hk as [Hne Hk].
  cbn [fold_left fst snd]. rewrite IH by done. by apply dict_get_set_ne.
Qed.

(** the keys of the copy stay, and stay in front *)
Lemma merge_config_keys user_config : ∀ store config,
  config.*1 `prefix_of` (merge_config user_config store config).1.2.*1.
Proof.
  assert (∀ key v config, config.*1 `prefix_of` (dict_set key v config).*1)
    as Hset.
  { intros key v config. rewrite dict_set_keys. case_decide; [done|].
    by apply prefix_app_r. }
  induction user_config as [|[key uv] rest IH]; intros store config; [done|].
  cbn [merge_config].
  destruct (dict_get key config) as [[j|l]|].
  - destruct j; try (etrans; [apply (Hset key)|apply IH]).
    destruct (dict_update fields uv) as [d [e|]]; [apply Hset|].
    etrans; [apply (Hset key)|apply IH].
  - destruct (dict_update _ uv) as [d [e|]]; [done|apply IH].
  - etrans; [apply (Hset key)|apply IH].
Qed.

Lemma dict_set_fresh {V} key (v : V) (d : list (string * V)) :
  key ∉ d.*1 → dict_set key v d = d ++ [(key, v)].
Proof.
  induction d as [|[k' v'] d IH]; [done|]. cbn [fmap list_fmap fst].
  intros [Hne Hk]%not_elem_of_cons. cbn [dict_set app].
  apply String.eqb_neq in Hne as ->. by rewrite IH.
Qed.

(** an update with new keys only puts them behind the others *)
Lemma dict_merge_fresh {V} (o : list (string * V)) : ∀ d,
  NoDup o.*1 → (∀ k, k ∈ o.*1 → k ∉ d.*1) → dict_merge d o = d ++ o.
Proof.
  unfold dict_merge.
  induction o as [|[k v] o IH]; intros d Hnd Hfresh; [by rewrite app_nil_r|].
  cbn in Hnd. apply NoDup_cons in Hnd as [Hk Hnd]. cbn [fold_left fst snd].
  rewrite dict_set_fresh by (apply Hfresh; left).
  rewrite IH; [by rewrite <- app_assoc|done|].
  intros k' Hk'. rewrite fmap_app. intros [Hin|Hin]%elem_of_app.
  - revert Hin. apply Hfresh. by right.
  - apply list_elem_of_singleton in Hin. cbn in Hin. by subst.
Qed.

Lemma find_category_app ext a b :
  find_category ext (a ++ b) =
  match find_category ext a with
  | Some c => Some c
  | None => find_category ext b
  end.
Proof.
  induction a as [|[c e] a IH]; [done|]. cbn [app find_category].
  by destruct (existsb (String.eqb ext) e).
Qed.
End MergeFacts.

(** X6.  The loader does not undo what it has merged when the merge
    fails.  With an override whose value for [categories] is no list and
    makes [dict.update] raise (a number, a truth value, [null], a string
    that is not empty), the keys that come before it in the file are
    overridden all the same, the keys that come after it are not looked
    at, and the warning is given: the configuration returned is neither
    the default nor the override. *)
Theorem load_config_stops_at_error
    (store : gmap nat (list (string * json)))
    (before after : list (string * json)) (uv : json) (e : exn) :
  NoDup before.*1 → "categories" ∉ before.*1 →
  (∀ items, uv ≠ JArr items) →
  (dict_update (default [] (store !! categories_loc)) uv).2 = Some e →
  let result :=
    load_config (ConfigFile (before ++ ("categories", uv) :: after)) store in
  result.2 = [MsgConfigError e]
  ∧ result.1.1
    = <[categories_loc :=
          (dict_update (default [] (store !! categories_loc)) uv).1]> store
  ∧ result.1.2
    = (load_config (ConfigFile before) store).1.2
  ∧ (∀ key v, (key, v) ∈ before → dict_get key result.1.2 = Some (Imm v))
  ∧ (∀ key, key ∉ before.*1 →
       dict_get key result.1.2 = dict_get key DEFAULT_CONFIG).
Proof.
  intros Hnd Hcat _ Hraise result.
  assert (∀ key, key ∈ before.*1 →
            is_dict <$> dict_get key DEFAULT_CONFIG ≠ Some true) as Hplain.
  { intros key Hkey. unfold DEFAULT_CONFIG. cbn [dict_get].
    destruct (String.eqb key "skip_files"); [done|].
    destruct (String.eqb key "backup_log"); [done|].
    destruct (String.eqb_spec key "categories") as [->|_]; done. }
  pose proof (merge_config_plain before store DEFAULT_CONFIG Hnd Hplain) as Hbefore.
  set (config := fold_left (fun c kv => dict_set kv.1 (Imm kv.2) c) before
                   DEFAULT_CONFIG) in *.
  assert (dict_get "categories" config = Some (Ref categories_loc)) as Href.
  { unfold config. by rewrite fold_set_other. }
  assert (result
          = (<[categories_loc :=
                 (dict_update (default [] (store !! categories_loc)) uv).1]> store,
             config, [MsgConfigError e])) as ->.
  { unfold result, load_config. rewrite merge_config_app, Hbefore.
    cbn [merge_config]. rewrite Href.
    destruct (dict_update _ uv) as [d r]. cbn [fst snd] in *. by subst r. }
  cbn [fst snd]. split_and!; [done|done| | |].
  - unfold load_config. by rewrite Hbefore.
  - intros key v Hin. by apply fold_set_get.
  - intros key Hkey. by apply fold_set_other.
Qed.

Lemma load_config_stops_at_error_witness :
  let result :=
    load_config
      (ConfigFile [ ("skip_files", jstrs [".bak"]); ("categories", JNum 5);
                    ("backup_log", JBool false) ])
      initial_store in
  result.2 = [MsgConfigError TypeError]
  ∧ dict_get "skip_files" result.1.2 = Some (Imm (jstrs [".bak"]))
  ∧ dict_get "backup_log" result.1.2 = Some (Imm (JBool true)).
Proof.
  intros result.
  destruct (load_config_stops_at_error initial_store
              [("skip_files", jstrs [".bak"])] [("backup_log", JBool false)]
              (JNum 5) TypeError) as (Hmsg & _ & _ & Hset & Hkept).
  - by apply (bool_decide_unpack _).
  - by apply (bool_decide_unpack _).
  - discriminate.
  - reflexivity.
  - split_and!; [exact Hmsg| |].
    + apply (Hset "skip_files"). left.
    + apply (Hkept "backup_log"). by apply (bool_decide_unpack _).
Defined.

(** X7.  A category that the override adds comes after the categories of
    the default, and the classifier takes the first category that lists
    the extension: such a category gets no file that a default category
    takes, whatever extensions it lists. *)
Theorem new_category_never_shadows {L : Lower} (o : list (string * json))
    (added : list (string * list string)) :
  NoDup o.*1 →
  (∀ k, k ∈ o.*1 → k ∉ default_categories.*1) →
  as_categories (JObj o) = Some added →
  ∃ store' config c,
    load_config (ConfigFile [("categories", JObj o)]) initial_store
    = (store', config, [])
    ∧ configuration_of (view store' config) = Some c
    ∧ skip_files c = skip_files default_configuration
    ∧ backup_log c = backup_log default_configuration
    ∧ categories c = categories default_configuration ++ added
    ∧ ∀ filename category,
        classify default_configuration filename = Some category →
        classify c filename = Some category.
Proof.
  intros Hnd Hfresh Hadded.
  exists (<[categories_loc := default_categories ++ o]> initial_store),
         DEFAULT_CONFIG,
         {| skip_files := skip_files default_configuration;
            backup_log := backup_log default_configuration;
            categories := categories default_configuration ++ added |}.
  assert (as_categories (JObj (default_categories ++ o))
          = Some (categories default_configuration ++ added)) as Hcats.
  { cbn [as_categories] in *. apply mapM_Some. apply Forall2_app.
    - apply mapM_Some. reflexivity.
    - by apply mapM_Some. }
  split_and!; try done.
  - unfold load_config. cbn [merge_config DEFAULT_CONFIG dict_get].
    cbn [String.eqb Ascii.eqb Bool.eqb fst snd].
    unfold initial_store. rewrite lookup_singleton_eq. cbn [default dict_update].
    unfold id.
    by rewrite (dict_merge_fresh o default_categories Hnd Hfresh).
  - unfold view, DEFAULT_CONFIG. cbn [fmap list_fmap fst snd deref].
    rewrite lookup_insert_eq. cbn [default].
    unfold configuration_of. cbn [dict_get String.eqb Ascii.eqb Bool.eqb].
    unfold id. cbn [mbind option_bind]. rewrite Hcats. reflexivity.
  - intros filename category. unfold classify. cbn [categories].
    rewrite find_category_app. by intros ->.
Qed.

Lemma new_category_never_shadows_witness :
  ∃ store' config c,
    load_config (ConfigFile [("categories", JObj [("照片", jstrs [".jpg"; ".heic"])])])
      initial_store
    = (store', config, [])
    ∧ configuration_of (view store' config) = Some c
    ∧ classify c "a.jpg" = Some "图片".
Proof.
  destruct (new_category_never_shadows
              [("照片", jstrs [".jpg"; ".heic"])] [("照片", [".jpg"; ".heic"])])
    as (store' & config & c & Hload & Hconf & _ & _ & _ & Hfirst).
  - by apply (bool_decide_unpack _).
  - intros k Hk. apply list_elem_of_singleton in Hk. subst k.
    by apply (bool_decide_unpack _).
  - reflexivity.
  - exists store', config, c. split_and!; [exact Hload|exact Hconf|].
    apply Hfirst. reflexivity.
Defined.

(** X8.  Be there no configuration file, a file that cannot be read or
    parsed, or a file that holds a JSON object, and whether or not the
    merge goes through: the configuration that [load_config] returns has
    the keys of the default, in front and in the order of the default;
    the three entries [organize_files] reads are always there. *)
Theorem load_config_keeps_keys (file : config_file)
    (store : gmap nat (list (string * json))) :
  DEFAULT_CONFIG.*1 `prefix_of` (load_config file store).1.2.*1
  ∧ is_Some (dict_get "skip_files" (load_config file store).1.2)
  ∧ is_Some (dict_get "backup_log" (load_config file store).1.2)
  ∧ is_Some (dict_get "categories" (load_config file store).1.2).
Proof.
  assert (DEFAULT_CONFIG.*1 `prefix_of` (load_config file store).1.2.*1) as Hpre.
  { destruct file as [|e|user_config]; [done|done|]. unfold load_config.
    pose proof (merge_config_keys user_config store DEFAULT_CONFIG) as Hk.
    by destruct (merge_config user_config store DEFAULT_CONFIG) as [[s c] r]. }
  assert (∀ key, key ∈ DEFAULT_CONFIG.*1 →
            is_Some (dict_get key (load_config file store).1.2)) as Hkey.
  { intros key Hin. destruct (dict_get key _) eqn:E; [done|].
    apply dict_get_None in E. destruct E.
    destruct Hpre as [more ->]. apply elem_of_app. by left. }
  split_and!; [done|apply Hkey..]; by apply (bool_decide_unpack _).
Qed.


(** ** The folders of a run *)

Section FolderFacts.
Context {L : Lower}.
Implicit Types s : state posix_world.
Implicit Types fs : gmap string node.

(** one turn of the loop that makes the folders *)
Lemma make_folders_cons d c e cats s :
  make_folders d ((c, e) :: cats) s =
  match (Posix.makedirs (join d c) (files (world s))).2 with
  | Some err =>
      (in_world (Posix.with_files (world s)
                   (Posix.makedirs (join d c) (files (world s))).1) s,
       inl err)
  | None =>
      make_folders d cats
        (in_world (Posix.with_files (world s)
                     (Posix.makedirs (join d c) (files (world s))).1) s)
  end.
Proof.
  cbn [make_folders]. unfold bind, call. cbn [os_makedirs posix].
  unfold Posix.on_files.
  by destruct (Posix.makedirs (join d c) (files (world s))) as [fs1 [err|]].
Qed.

(** the name of a folder is taken by a regular file: making the folders
    raises, with nothing said *)
Lemma make_folders_taken d cats : ∀ s c x,
  is_dir_path d = true →
  Forall (fun c => is_name c = true) cats.*1 →
  files (world s) !! d = Some Dir →
  c ∈ cats.*1 → files (world s) !! join d c = Some (File x) →
  ∃ s', make_folders d cats s = (s', inl FileExistsError)
        ∧ output s' = output s.
Proof.
  induction cats as [|[c0 e0] cats IH]; intros s c x Hd Hcats Hdir Hc Hx.
  { by apply elem_of_nil in Hc. }
  cbn in Hcats, Hc. apply Forall_cons in Hcats as [Hc0 Hcats].
  rewrite make_folders_cons, (makedirs_child d c0 _ Hd Hc0 Hdir).
  destruct (files (world s) !! join d c0) as [[y|]|] eqn:E0; cbn [fst snd].
  - by eexists.
  - apply elem_of_cons in Hc as [->|Hc]; [congruence|].
    destruct (IH (in_world (Posix.with_files (world s) (files (world s))) s)
                c x Hd Hcats Hdir Hc Hx) as (s' & Hrun & Hout).
    by exists s'.
  - apply elem_of_cons in Hc as [->|Hc]; [congruence|].
    destruct (IH (in_world (Posix.with_files (world s)
                              (<[join d c0 := Dir]> (files (world s)))) s)
                c x Hd Hcats) as (s' & Hrun & Hout); [|done| |by exists s'].
    + cbn [in_world world Posix.with_files files].
      rewrite lookup_insert_ne; [done|]. intros E. by rewrite E, Hdir in E0.
    + cbn [in_world world Posix.with_files files].
      rewrite lookup_insert_ne; [done|]. intros E. by rewrite E, Hx in E0.
Qed.

End FolderFacts.

(** X9.  The folders are made before the first file is looked at, and
    outside the [try] of the loop.  When the name of a category is taken
    on the desktop by a regular file, [os.makedirs] raises
    [FileExistsError] and [organize_files] ends with it: nothing is
    printed, no file is moved, no log is written, and every entry that
    was there is as it was. *)
Theorem category_name_taken_aborts {L : Lower} (config : Configuration) (d : string)
    (all_items : list string) (w : posix_world) (c : string) (x : content) :
  is_dir_path d = true →
  Forall (fun c => is_name c = true) (categories config).*1 →
  files w !! d = Some Dir →
  c ∈ (categories config).*1 →
  files w !! join d c = Some (File x) →
  ∃ s',
    organize_listed config d all_items (start w) = (s', inl FileExistsError)
    ∧ output s' = []
    ∧ ∀ q, is_Some (files w !! q) → files (world s') !! q = files w !! q.
Proof.
  intros Hd Hcats Hdir Hc Hx.
  destruct (make_folders_taken d (categories config) (start w) c x
              Hd Hcats Hdir Hc Hx) as (s' & Hmk & Hout).
  exists s'. split_and!; [|done|].
  - unfold organize_listed, bind at 1, organize_moves, bind at 1, ask.
    unfold bind at 1. by rewrite Hmk.
  - intros q Hq.
    by apply (make_folders_keeps d (categories config) (start w) s' _ q Hmk).
Qed.


Lemma category_name_taken_aborts_witness :
  ∃ s',
    organize_listed default_configuration "/home/u/Desktop" ["a.jpg"; "图片"]
      (start desk_name_taken)
    = (s', inl FileExistsError)
    ∧ output s' = []
    ∧ files (world s') !! "/home/u/Desktop/a.jpg" = Some (File (Raw "A")).
Proof.
  destruct (category_name_taken_aborts default_configuration "/home/u/Desktop"
              ["a.jpg"; "图片"] desk_name_taken "图片" (Raw "no folder"))
    as (s' & Hrun & Hout & Hkept).
  - reflexivity.
  - repeat constructor.
  - reflexivity.
  - left.
  - reflexivity.
  - exists s'. split_and!; [exact Hrun|exact Hout|].
    apply (Hkept "/home/u/Desktop/a.jpg"). by eexists.
Defined.



Section TurnFacts.
Context {L : Lower}.
Implicit Types s : state posix_world.
Implicit Types fs : gmap string node.

End TurnFacts.

(** X11.  A regular file named [其他] on the desktop blocks the folder
    for the rest: [os.makedirs] raises [FileExistsError] inside the
    [try], so every file that no category takes is reported as failed and
    stays, with the count, the log and the file system as they were. *)
Theorem others_name_taken_blocks {L : Lower} (config : Configuration) (d : string)
    (total : nat) (g : string) (p : progress) (s : state posix_world)
    (x : content) :
  is_dir_path d = true →
  files (world s) !! d = Some Dir →
  files (world s) !! join d others = Some (File x) →
  classify config g = None →
  organize_one config d total g p s
  = (say (MsgFailed (processed p) total g FileExistsError) s, inr p).
Proof.
  intros Hd Hdir Htaken Hnone.
  unfold organize_one, try_catch. rewrite move_file_classify, Hnone.
  unfold move_to_others, bind at 1, call. cbn [os_makedirs posix].
  rewrite on_files_snd, (makedirs_child d others _ Hd others_is_name Hdir), Htaken.
  cbn [fst snd]. unfold move_failed, bind, print, ret. cbn [failure_report].
  f_equal. unfold say. cbn [in_world world output]. f_equal.
  unfold Posix.on_files.
  rewrite (makedirs_child d others _ Hd others_is_name Hdir), Htaken.
  by destruct (world s).
Qed.

Lemma others_name_taken_blocks_witness :
  organize_one default_configuration "/home/u/Desktop" 2 "c.xyz"
    {| processed := 0; operations := [] |} (start desk_blocked)
  = (say (MsgFailed 0 2 "c.xyz" FileExistsError) (start desk_blocked),
     inr {| processed := 0; operations := [] |}).
Proof.
  apply (others_name_taken_blocks default_configuration "/home/u/Desktop" 2
           "c.xyz" {| processed := 0; operations := [] |} (start desk_blocked)
           (Raw "notes")); reflexivity.
Defined.




(** ** The log and the count *)

Section CountFacts.
Context {L : Lower}.
Context {W : Type} `{OS W}.
Implicit Types s : state W.

(** a turn of the loop leaves its variables alone or counts its file,
    with the record of the move if records are kept *)
Lemma organize_one_progress config desktop_path total_files filename p s s' p' :
  organize_one config desktop_path total_files filename p s = (s', inr p') →
  p' = p
  ∨ ∃ dst_path, p' = moved_one config (join desktop_path filename) dst_path p.
Proof.
  unfold organize_one, try_catch. rewrite move_file_classify.
  destruct (classify config filename) as [category|].
  - destruct (move_into_outcome config desktop_path total_files filename
                (join desktop_path filename) category p s)
      as [(s1 & e & -> & _)|(w & dst_path & ->)].
    + intros [= _ <-]. by left.
    + intros [= _ <-]. right. by exists dst_path.
  - destruct (move_to_others_outcome config desktop_path total_files filename
                (join desktop_path filename) p s)
      as [(s1 & e & -> & _)|(w & ->)].
    + intros [= _ <-]. by left.
    + intros [= _ <-]. right. by eexists.
Qed.

Lemma organize_loop_progress config desktop_path total_files files : ∀ p s s' p',
  organize_loop config desktop_path total_files files p s = (s', inr p') →
  ∃ moved,
    sublist (original <$> moved) (join desktop_path <$> files)
    ∧ processed p' = processed p + List.length moved
    ∧ operations p' = operations p ++ (if backup_log config then moved else []).
Proof.
  induction files as [|f files IH]; intros p s s' p' Hrun.
  - injection Hrun as <- <-. exists []. split_and!; [done|cbn; lia|].
    by destruct (backup_log config); rewrite app_nil_r.
  - cbn [organize_loop] in Hrun. unfold bind in Hrun.
    destruct (organize_one_outcome config desktop_path total_files f p s)
      as (s1 & p1 & m & Hone & _). rewrite Hone in Hrun.
    destruct (IH p1 s1 s' p' Hrun) as (moved & Hsub & Hcount & Hops).
    destruct (organize_one_progress _ _ _ _ _ _ _ _ Hone) as [->|[dst_path ->]].
    + exists moved. split_and!; [|done|done].
      cbn [fmap list_fmap]. by apply sublist_cons.
    + exists ({| original := join desktop_path f; new_location := dst_path |}
               :: moved).
      split_and!.
      * cbn [fmap list_fmap original]. by apply sublist_skip.
      * rewrite Hcount. cbn [moved_one processed List.length]. lia.
      * rewrite Hops. cbn [moved_one operations].
        destruct (backup_log config); [by rewrite <- app_assoc|done].
Qed.
End CountFacts.

(** X13.  With [backup_log] on, the log of a run holds one record for
    every file counted as processed and none besides, in the order in
    which the files were moved, and each record's original path is the
    path of one of the listed files; the count never exceeds the number
    of files announced.  This holds whatever the operating system
    does. *)
Theorem log_matches_count {L : Lower} {W : Type} `{OS W} (config : Configuration)
    (desktop_path : string) (all_items : list string) (s s1 : state W)
    (total_files : nat) (started : datetime) (p : progress) :
  backup_log config = true →
  organize_moves config desktop_path all_items s
  = (s1, inr (total_files, started, p)) →
  List.length (operations p) = processed p
  ∧ processed p ≤ total_files
  ∧ total_files
    = List.length (listed_files config desktop_path all_items (world s))
  ∧ sublist (original <$> operations p)
      (join desktop_path
         <$> listed_files config desktop_path all_items (world s)).
Proof.
  intros Hlog. unfold organize_moves, bind at 1, ask.
  set (names := listed_files config desktop_path all_items (world s)).
  unfold bind at 1. destruct (make_folders _ _ s) as [s2 [e|[]]]; [done|].
  unfold bind at 1, now. unfold bind at 1, print. unfold bind at 1.
  destruct (organize_loop _ _ _ names _ _) as [s3 [e|p3]] eqn:Hloop; [done|].
  intros [= _ <- _ <-].
  destruct (organize_loop_progress _ _ _ _ _ _ _ _ Hloop)
    as (moved & Hsub & Hcount & Hops).
  rewrite Hlog in Hops. cbn [operations processed app] in Hops, Hcount.
  rewrite Hops, Hcount. split_and!; [done| |done|done].
  apply sublist_length in Hsub. by rewrite !length_fmap in Hsub.
Qed.

Lemma log_matches_count_witness :
  ∃ s1 started p,
    organize_moves default_configuration "/home/u/Desktop"
      ["a.jpg"; "b.txt"; "c.xyz"; "x.tmp"] (start desk_a)
    = (s1, inr (3, started, p))
    ∧ List.length (operations p) = processed p
    ∧ processed p ≤ 3.
Proof.
  set (p := {| processed := 3;
               operations :=
                 [ {| original := "/home/u/Desktop/a.jpg";
                      new_location := "/home/u/Desktop/图片/a.jpg" |};
                   {| original := "/home/u/Desktop/b.txt";
                      new_location := "/home/u/Desktop/文档/b.txt" |};
                   {| original := "/home/u/Desktop/c.xyz";
                      new_location := "/home/u/Desktop/其他/c.xyz" |} ] |}).
  set (run := organize_moves default_configuration "/home/u/Desktop"
                ["a.jpg"; "b.txt"; "c.xyz"; "x.tmp"] (start desk_a)).
  assert (run = (run.1, inr (3, noon, p))) as Hrun.
  { vm_compute. reflexivity. }
  exists run.1, noon, p.
  destruct (log_matches_count default_configuration "/home/u/Desktop"
              ["a.jpg"; "b.txt"; "c.xyz"; "x.tmp"] (start desk_a) run.1
              3 noon p eq_refl Hrun) as (Hlen & Hle & _).
  split_and!; [exact Hrun|exact Hlen|exact Hle].
Defined.

(** X14.  With [backup_log] off the run keeps no record and does not
    call the operating system once the loop is over: no log is written,
    so nothing is there for [restore_files] to undo the run with. *)
Theorem no_backup_log_no_record {L : Lower} {W : Type} `{OS W} (config : Configuration)
    (desktop_path : string) (all_items : list string) (s s1 : state W)
    (total_files : nat) (started : datetime) (p : progress) :
  backup_log config = false →
  organize_moves config desktop_path all_items s
  = (s1, inr (total_files, started, p)) →
  operations p = []
  ∧ ∃ s',
      organize_listed config desktop_path all_items s = (s', inr tt)
      ∧ world s' = world s1
      ∧ output s'
        = output s1 ++ MsgDone (processed p) total_files
            :: (if (processed p <? total_files)%nat then [MsgAttention] else []).
Proof.
  intros Hlog Hmoves.
  assert (operations p = []) as Hops.
  { revert Hmoves. unfold organize_moves, bind at 1, ask.
    unfold bind at 1. destruct (make_folders _ _ s) as [s2 [e|[]]]; [done|].
    unfold bind at 1, now. unfold bind at 1, print. unfold bind at 1.
    destruct (organize_loop _ _ _ _ _ _) as [s3 [e|p3]] eqn:Hloop; [done|].
    intros [= _ _ _ <-].
    destruct (organize_loop_progress _ _ _ _ _ _ _ _ Hloop)
      as (moved & _ & _ & Hops).
    by rewrite Hlog in Hops. }
  split; [done|].
  unfold organize_listed, bind at 1. rewrite Hmoves.
  unfold organize_report. rewrite Hlog. cbn [andb].
  unfold bind, ret, print.
  destruct (processed p <? total_files)%nat; eexists; (split; [done|]);
    cbn [say world output]; split; try done.
  by rewrite <- app_assoc.
Qed.

Lemma no_backup_log_no_record_witness :
  ∃ s',
    organize_listed
      {| skip_files := skip_files default_configuration; backup_log := false;
         categories := categories default_configuration |}
      "/home/u/Desktop" ["a.jpg"; "b.txt"; "c.xyz"; "x.tmp"] (start desk_a)
    = (s', inr tt)
    ∧ files (world s') !! "/home/u/Desktop/图片/a.jpg" = Some (File (Raw "A"))
    ∧ files (world s') !! "/home/u/Desktop/文件整理备份.json" = None.
Proof.
  set (config := {| skip_files := skip_files default_configuration;
                    backup_log := false;
                    categories := categories default_configuration |}).
  set (run := organize_moves config "/home/u/Desktop"
                ["a.jpg"; "b.txt"; "c.xyz"; "x.tmp"] (start desk_a)).
  assert (run = (run.1, inr (3, noon, {| processed := 3; operations := [] |})))
    as Hrun.
  { vm_compute. reflexivity. }
  destruct (no_backup_log_no_record config "/home/u/Desktop"
              ["a.jpg"; "b.txt"; "c.xyz"; "x.tmp"] (start desk_a) run.1
              3 noon {| processed := 3; operations := [] |} eq_refl Hrun)
    as (_ & s' & Hlisted & Hworld & _).
  exists s'. split; [exact Hlisted|]. rewrite Hworld.
  split; vm_compute; reflexivity.
Defined.


(** ** What a run leaves alone *)

Section AsideFacts.
Context {L : Lower}.
Implicit Types s : state posix_world.
Implicit Types fs : gmap string node.

(** a regular file that moves replaces no directory *)
Lemma move_keeps_dir src dst fs c q :
  fs !! src = Some (File c) → fs !! q = Some Dir →
  (Posix.move src dst fs).1 !! q = Some Dir.
Proof.
  intros Hsrc Hq.
  assert (∀ to, (Posix.rename src to fs).1 !! q = Some Dir) as Hren.
  { intros to. unfold Posix.rename. rewrite Hsrc.
    destruct (Posix.parent_error to fs); [done|].
    destruct (fs !! to) as [[y|]|] eqn:Hto; cbn [fst]; [|done|].
    - rewrite lookup_insert_ne by congruence.
      rewrite lookup_delete_ne by congruence. done.
    - rewrite lookup_insert_ne by congruence.
      rewrite lookup_delete_ne by congruence. done. }
  unfold Posix.move. destruct (Posix.isdir dst fs); [|apply Hren].
  destruct (String.eqb src dst); [done|].
  destruct (Posix.exists_ _ fs); [done|apply Hren].
Qed.

Lemma organize_one_keeps_dir config d total g p s s' p' x0 q :
  files (world s) !! join d g = Some (File x0) →
  organize_one config d total g p s = (s', inr p') →
  files (world s) !! q = Some Dir →
  files (world s') !! q = Some Dir.
Proof.
  intros Hsrc Hrun Hq.
  destruct (organize_one_effect config d total g p s)
    as (s1 & p1 & fs1 & Hrun' & Hfs1 & Hcase).
  rewrite Hrun in Hrun'. injection Hrun' as <- <-.
  assert (∀ q', is_Some (files (world s) !! q') →
                fs1 !! q' = files (world s) !! q') as Hkeep.
  { intros q' Hq'. destruct Hfs1 as [->| ->]; [done|]. by apply makedirs_keeps. }
  destruct Hcase as [[_ ->]|(c & x & _ & _ & _ & -> & _)].
  - rewrite Hkeep; [done|by rewrite Hq].
  - apply (move_keeps_dir _ _ _ x0).
    + rewrite Hkeep; [done|by rewrite Hsrc].
    + rewrite Hkeep; [done|by rewrite Hq].
Qed.



(** the loop keeps an entry that every turn keeps *)
Lemma organize_loop_keeps_at config d total q (v : option node) :
  is_dir_path d = true →
  Forall (fun c => is_name c = true) (categories config).*1 →
  (∀ g p s s' p' x0,
     is_name g = true →
     files (world s) !! join d g = Some (File x0) →
     organize_one config d total g p s = (s', inr p') →
     files (world s) !! q = v → files (world s') !! q = v) →
  ∀ names p s s' p',
    Forall (fun g => is_name g = true) names → NoDup names →
    (∀ g, g ∈ names → Posix.isfile (join d g) (files (world s)) = true) →
    organize_loop config d total names p s = (s', inr p') →
    files (world s) !! q = v → files (world s') !! q = v.
Proof.
  intros Hd Hcats Hturn.
  induction names as [|g rest IH]; intros p s s' p' Hnames Hnd Hfiles Hrun Hq.
  { by injection Hrun as <- <-. }
  apply Forall_cons in Hnames as [Hg Hrest]. apply NoDup_cons in Hnd as [Hg' Hnd].
  cbn [organize_loop] in Hrun. unfold bind in Hrun.
  destruct (organize_one_effect config d total g p s)
    as (s1 & p1 & fs1 & Hone & _). rewrite Hone in Hrun.
  destruct (proj1 (isfile_true _ _) (Hfiles g ltac:(left))) as [x0 Hsrc].
  apply (IH p1 s1 s' p' Hrest Hnd); [|done|by apply (Hturn g p s s1 p1 x0)].
  intros g1 Hg1. apply isfile_true.
  destruct (proj1 (isfile_true _ _) (Hfiles g1 ltac:(by right))) as [x1 Hx1].
  pose proof (proj1 (Forall_forall _ _) Hrest g1 Hg1) as Hn1.
  exists x1.
  rewrite (organize_one_keeps config d total g p s s1 p1 x0 (join d g1));
    try done.
  - rewrite !join_name by done. intros E%child_inj. by subst.
  - intros c x. rewrite join_name by done.
    apply child_not_deeper. by apply is_name_spec in Hn1 as [_ ?].
Qed.

(** so does the run, if the entry was there and is not where the log
    goes *)
Lemma organize_listed_keeps_at config d all_items w s' r q :
  is_dir_path d = true →
  Forall (fun g => is_name g = true) all_items → NoDup all_items →
  Forall (fun c => is_name c = true) (categories config).*1 →
  (∀ total g p s s1 p1 x0,
     is_name g = true →
     files (world s) !! join d g = Some (File x0) →
     organize_one config d total g p s = (s1, inr p1) →
     files (world s) !! q = files w !! q → files (world s1) !! q = files w !! q) →
  is_Some (files w !! q) →
  q ≠ join d log_name ∨ files w !! q = Some Dir →
  organize_listed config d all_items (start w) = (s', r) →
  files (world s') !! q = files w !! q.
Proof.
  intros Hd Hnames Hnd Hcats Hturn Hq Hlog.
  unfold organize_listed, bind at 1.
  destruct (organize_moves config d all_items (start w)) as [s1 r1] eqn:Hmoves.
  assert (files (world s1) !! q = files w !! q) as Hkept.
  { revert Hmoves. unfold organize_moves, bind at 1, ask.
    set (names := listed_files config d all_items (world (start w))).
    unfold bind at 1.
    destruct (make_folders d (categories config) (start w)) as [s2 [e|[]]] eqn:Hmk.
    { intros [= <- _]. by apply (make_folders_keeps d _ (start w) s2 _ q Hmk). }
    assert (Hk1 : ∀ q', is_Some (files w !! q') →
                        files (world s2) !! q' = files w !! q').
    { intros q' Hq'. by apply (make_folders_keeps d _ (start w) s2 _ q' Hmk). }
    unfold bind at 1, now. cbn [os_now posix].
    unfold bind at 1, print. unfold bind at 1.
    set (s3 := say (MsgStart (List.length names))
                 (in_world (Posix.tick (world s2)).1 s2)).
    assert (Hk2 : files (world s3) = files (world s2)).
    { unfold s3. cbn [say in_world world]. apply tick_files. }
    destruct (organize_loop_outcome config d (List.length names) names
                {| processed := 0; operations := [] |} s3)
      as (s4 & p4 & msgs & Hloop & _).
    rewrite Hloop. intros [= <- _].
    assert (Forall (fun g => is_name g = true) names) as Hn.
    { apply Forall_forall. intros g (Hg & _)%listed_files_spec.
      by apply (proj1 (Forall_forall _ _) Hnames). }
    assert (NoDup names) as Hndn.
    { unfold names, listed_files. by do 2 apply filter_NoDup. }
    apply (organize_loop_keeps_at config d (List.length names) q (files w !! q)
             Hd Hcats (Hturn (List.length names)) names
             {| processed := 0; operations := [] |} s3 s4 p4 Hn Hndn);
      [|done|by rewrite Hk2, Hk1].
    intros g Hg. rewrite Hk2. apply isfile_true.
    apply listed_files_spec in Hg as (_ & [x Hx]%isfile_true & _).
    exists x. cbn [start world] in Hx. rewrite Hk1; [done|by rewrite Hx]. }
  destruct r1 as [e|[[total started] p]].
  { by intros [= <- _]. }
  intros Hreport.
  destruct (organize_report_files config d total started p s1 s' r Hreport)
    as [[_ ->]|(_ & -> & _)]; [done|].
  destruct Hlog as [Hne|Hdir].
  - by rewrite dump_frame.
  - destruct (decide (q = join d log_name)) as [->|Hne]; [|by rewrite dump_frame].
    unfold Posix.dump. rewrite Hkept, Hdir. cbn [fst]. by rewrite Hkept.
Qed.
End AsideFacts.

Section ListingFacts.
Context {L : Lower}.
Implicit Types fs : gmap string node.

Lemma strip_prefix_Some p (t r : string) :
  Posix.strip_prefix p t = Some r → t = p +:+ r.
Proof.
  revert t. induction p as [|b p IH]; intros t; cbn [Posix.strip_prefix].
  - by intros [= ->].
  - destruct t as [|a t]; [done|].
    destruct (Ascii.eqb_spec a b) as [->|]; [|done].
    intros Hr. rewrite sapp_cons. f_equal. by apply IH.
Qed.

Lemma child_of_Some d k n :
  Posix.child_of d k = Some n →
  is_name n = true ∧ k = (if endswith d "/" then d else d +:+ "/") +:+ n.
Proof.
  unfold Posix.child_of.
  destruct (Posix.strip_prefix _ k) as [r|] eqn:Hr; [|done].
  apply strip_prefix_Some in Hr. cbn [mbind option_bind].
  destruct (String.eqb r "" || has_char sep r) eqn:E; [done|].
  intros [= <-]. split; [|done].
  apply orb_false_iff in E as [E1 E2]. unfold is_name. by rewrite E1, E2.
Qed.

Lemma NoDup_omap_inj {A B} (f : A → option B) (l : list A) :
  (∀ x y z, x ∈ l → y ∈ l → f x = Some z → f y = Some z → x = y) →
  NoDup l → NoDup (omap f l).
Proof.
  intros Hinj Hnd. induction Hnd as [|x l Hx Hl IH]; [constructor|].
  assert (NoDup (omap f l)) as Hrest.
  { apply IH. intros x' y' z Hx' Hy'. apply Hinj; by right. }
  cbn [omap list_omap]. destruct (f x) as [z|] eqn:Hz; [|done].
  apply NoDup_cons. split; [|done].
  intros (y & Hy & Hin)%list_elem_of_omap.
  rewrite (Hinj x y z) in Hx; try done; [left|by right].
Qed.

(** what [os.listdir] gives: plain names, each one once *)
Lemma listdir_names d fs items :
  Posix.listdir d fs = inr items →
  Forall (fun g => is_name g = true) items ∧ NoDup items.
Proof.
  unfold Posix.listdir. destruct (fs !! d) as [[c|]|]; try done.
  intros [= <-]. split.
  - apply Forall_forall. intros g ([k v] & _ & Hg)%list_elem_of_omap.
    by apply child_of_Some in Hg as [? _].
  - apply NoDup_omap_inj.
    + intros [k1 v1] [k2 v2] n Hin1 Hin2 H1 H2. cbn [fst] in *.
      apply child_of_Some in H1 as [_ E1]. apply child_of_Some in H2 as [_ E2].
      assert (k1 = k2) as -> by congruence.
      apply elem_of_map_to_list in Hin1, Hin2. congruence.
    + apply NoDup_map_to_list.
Qed.
End ListingFacts.

(** X15.  A run never moves, removes or replaces a directory: every
    directory that is there before [organize_files] is called is there
    when it is over, wherever it lies and however the run ends. *)
Theorem directories_stay {L : Lower} (config : Configuration) (w : posix_world)
    (s' : state posix_world) (r : exn + unit) (q : string) :
  is_dir_path (home w) = true →
  Forall (fun c => is_name c = true) (categories config).*1 →
  organize_files config (start w) = (s', r) →
  files w !! q = Some Dir →
  files (world s') !! q = Some Dir.
Proof.
  intros Hhome Hcats Hrun Hq.
  pose proof (join_name_dir_path (home w) "Desktop" Hhome eq_refl) as Hd.
  revert Hrun. unfold organize_files, bind at 1, ask. cbn [os_home posix].
  unfold bind at 1, query. cbn [os_listdir posix start world].
  destruct (Posix.listdir _ (files w)) as [e|all_items] eqn:Hlist.
  { by intros [= <- _]. }
  apply listdir_names in Hlist as [Hnames Hnd]. intros Hrun. rewrite <- Hq.
  apply (organize_listed_keeps_at config (join (home w) "Desktop") all_items
           w s' r q Hd Hnames Hnd Hcats);
    [|by rewrite Hq|by right|exact Hrun].
  intros total g p s s1 p1 x0 Hg Hsrc Hone. rewrite Hq.
  by apply (organize_one_keeps_dir config (join (home w) "Desktop") total g
              p s s1 p1 x0).
Qed.

Lemma directories_stay_witness :
  files (world (organize_files default_configuration (start desk_folders)).1)
    !! "/home/u/Desktop/图片/a.jpg"
  = Some Dir
  ∧ files (world (organize_files default_configuration (start desk_folders)).1)
      !! "/home/u/Desktop/图片/a_120000.jpg"
    = Some (File (Raw "A")).
Proof.
  split.
  - apply (directories_stay default_configuration desk_folders _
             (organize_files default_configuration (start desk_folders)).2).
    + reflexivity.
    + repeat constructor.
    + apply surjective_pairing.
    + reflexivity.
  - vm_compute. reflexivity.
Defined.




(** ** [restore_files], once more *)

Section RestoreSafe.
Context {L : Lower}.
Context {W : Type} `{OS W}.
Implicit Types s : state W.

Lemma restore_failed_extends r e s :
  ∃ msgs, output (restore_failed r e s).1 = output s ++ msgs.
Proof.
  unfold restore_failed. destruct (dst r) as [d|].
  - unfold bind, lift, print, ret. destruct (as_path d) as [e'|dst_path].
    + exists []. by rewrite app_nil_r.
    + by eexists [_].
  - exists []. by rewrite app_nil_r.
Qed.

Lemma restore_one_extends op r s :
  ∃ msgs, output (restore_one op r s).1 = output s ++ msgs.
Proof.
  unfold restore_one.
  destruct (subscript op "new_location") as [e|src];
    [apply restore_failed_extends|].
  destruct (subscript op "original") as [e|d]; [apply restore_failed_extends|].
  unfold try_catch, restore_move, bind at 1, bind at 1, lift at 1.
  destruct (as_path d) as [e|dst_path] eqn:Hd.
  { unfold restore_failed. cbn [dst]. rewrite Hd. unfold bind, lift.
    exists []. by rewrite app_nil_r. }
  unfold bind at 1, call.
  set (s1 := in_world (os_makedirs (dirname dst_path) (world s)).1 s).
  assert (output s1 = output s) as Hs1 by done.
  assert (∀ r' e, ∃ msgs, output (restore_failed r' e s1).1 = output s ++ msgs)
    as Hfail.
  { intros r' e. rewrite <- Hs1. apply restore_failed_extends. }
  destruct (os_makedirs (dirname dst_path) (world s)).2 as [e|]; [apply Hfail|].
  unfold bind at 1, lift at 1.
  destruct (as_path src) as [e|src_path]; [apply Hfail|].
  unfold bind at 1, ask. destruct (os_exists src_path (world s1)).
  - unfold bind at 1.
    set (s2 := in_world (os_move src_path dst_path (world s1)).1 s1).
    assert (output s2 = output s) as Hs2 by done.
    destruct (os_move src_path dst_path (world s1)).2 as [e|].
    + rewrite <- Hs2. apply restore_failed_extends.
    + unfold bind, print, ret. cbn [fst say output]. rewrite Hs2. by eexists [_].
  - unfold bind, print, ret. cbn [fst say output]. rewrite Hs1. by eexists [_].
Qed.

Lemma restore_loop_extends ops : ∀ r s,
  ∃ msgs, output (restore_loop ops r s).1 = output s ++ msgs.
Proof.
  induction ops as [|op ops IH]; intros r s.
  - exists []. by rewrite app_nil_r.
  - cbn [restore_loop]. unfold bind.
    destruct (restore_one_extends op r s) as [m1 Hm1].
    destruct (restore_one op r s) as [s1 [e|r1]]; cbn [fst] in *; [by exists m1|].
    destruct (IH r1 s1) as [m2 Hm2]. exists (m1 ++ m2).
    by rewrite Hm2, Hm1, <- app_assoc.
Qed.

(** the body of the outer [try] says nothing when it raises before the
    loop, and what the loop said otherwise *)
Lemma restore_from_extends log_path s :
  ∃ msgs, output (restore_from log_path s).1 = output s ++ msgs.
Proof.
  unfold restore_from, bind at 1, query.
  destruct (os_load log_path (world s)) as [e|doc];
    [exists []; by rewrite app_nil_r|].
  unfold bind at 1, lift at 1.
  destruct (get_operations doc) as [e|operations];
    [exists []; by rewrite app_nil_r|].
  destruct (truthy operations); cbn [negb]; [|by eexists [_]].
  unfold bind at 1, lift at 1.
  destruct (has_len operations) as [e|[]]; [exists []; by rewrite app_nil_r|].
  unfold bind at 1, lift at 1.
  destruct (reversed operations) as [e|ops]; [exists []; by rewrite app_nil_r|].
  unfold bind at 1.
  destruct (restore_loop_extends ops {| success_count := 0; dst := None |} s)
    as [msgs Hmsgs].
  destruct (restore_loop ops _ s) as [s1 [e|r1]]; cbn [fst] in *;
    [by exists msgs|].
  unfold bind, call, print.
  destruct (os_remove log_path (world s1)).2 as [e|]; cbn [fst].
  - by exists msgs.
  - exists (msgs ++ [MsgRestoreDone (success_count r1) (List.length ops)]).
    cbn [say output in_world]. by rewrite Hmsgs, <- app_assoc.
Qed.
End RestoreSafe.

(** X17.  [restore_files] lets no exception out, whatever the log holds
    and whatever the operating system does: every call that can raise is
    inside a [try] whose handlers only print.  It always returns, and it
    never returns without having said something. *)
Theorem restore_files_never_raises {W : Type} `{OS W}
    (log_path : option string) (s : state W) :
  ∃ s' msgs,
    restore_files log_path s = (s', inr tt)
    ∧ output s' = output s ++ msgs
    ∧ msgs ≠ [].
Proof.
  rewrite restore_files_unfold.
  destruct (os_exists _ (world s)); [|by eexists _, [_]].
  unfold try_catch.
  destruct (restore_from_extends (resolved log_path (world s)) s) as [msgs Hmsgs].
  destruct (restore_from _ s) as [s1 [e|[]]] eqn:Hfrom; cbn [fst] in Hmsgs.
  - exists (restore_aborted e s1).1,
           (msgs ++ [match e with
                     | JSONDecodeError => MsgLogFormat
                     | _ => MsgRestoreError e
                     end]).
    split_and!.
    + by destruct e.
    + rewrite app_assoc, <- Hmsgs. by destruct e.
    + by destruct msgs.
  - exists s1, msgs. split_and!; [done|done|].
    intros ->. rewrite app_nil_r in Hmsgs. revert Hfrom.
    unfold restore_from, bind at 1, query.
    destruct (os_load _ (world s)) as [e|doc]; [done|].
    unfold bind at 1, lift at 1.
    destruct (get_operations doc) as [e|operations]; [done|].
    destruct (truthy operations); cbn [negb].
    + unfold bind at 1, lift at 1.
      destruct (has_len operations) as [e|[]]; [done|].
      unfold bind at 1, lift at 1.
      destruct (reversed operations) as [e|ops]; [done|].
      unfold bind at 1.
      destruct (restore_loop_extends ops {| success_count := 0; dst := None |} s)
        as [m Hm].
      destruct (restore_loop ops _ s) as [s2 [e|r2]]; [done|]. cbn [fst] in Hm.
      unfold bind, call, print.
      destruct (os_remove _ (world s2)).2 as [e|]; [done|].
      intros [= <-]. cbn [say output in_world] in Hmsgs.
      rewrite Hm, <- app_assoc in Hmsgs.
      apply (f_equal List.length) in Hmsgs. rewrite !length_app in Hmsgs.
      cbn in Hmsgs. lia.
    + unfold print. intros [= <-]. cbn [say output] in Hmsgs.
      apply (f_equal List.length) in Hmsgs. rewrite length_app in Hmsgs.
      cbn in Hmsgs. lia.
Qed.

(** X18.  A record that lacks one of its two paths makes the loop of
    [restore_files] fail in its handler, which names [dst].  When the
    record is the first one visited, the last of the log, [dst] is not
    bound yet: the handler raises, the outer handler reports an error,
    and nothing is restored and the log stays although the records
    before it are sound.  When a record has been visited before, the
    failure is reported under the name of that record's file, and the
    loop goes on. *)
Theorem restore_ill_shaped_record {W : Type} `{OS W}
    (log_path : option string) (s : state W) (doc : json)
    (items : list json) (last : json) :
  os_exists (resolved log_path (world s)) (world s) = true →
  os_load (resolved log_path (world s)) (world s) = inr doc →
  get_operations doc = inr (JArr (items ++ [last])) →
  (∃ e, subscript last "new_location" = inl e)
  ∨ (∃ e, subscript last "original" = inl e) →
  restore_files log_path s
  = (say (MsgRestoreError UnboundLocalError) s, inr tt)
  ∧ (∀ op e n path s0,
       subscript op "new_location" = inl e
       ∨ ((∃ src, subscript op "new_location" = inr src)
          ∧ subscript op "original" = inl e) →
       restore_one op {| success_count := n; dst := Some (JStr path) |} s0
       = (say (MsgRestoreFailed (basename path) e) s0,
          inr {| success_count := n; dst := Some (JStr path) |})).
Proof.
  intros Hfound Hload Hops Hbad. split.
  - rewrite restore_files_unfold, Hfound.
    unfold try_catch, restore_from, bind at 1, query. rewrite Hload.
    unfold bind at 1, lift at 1. rewrite Hops.
    assert (truthy (JArr (items ++ [last])) = true) as ->.
    { by destruct items. }
    cbn [negb]. unfold bind at 1, lift at 1. cbn [has_len].
    unfold bind at 1, lift at 1. cbn [reversed]. rewrite reverse_snoc.
    cbn [restore_loop]. unfold bind at 1. unfold bind at 1.
    assert (restore_one last {| success_count := 0; dst := None |} s
            = (s, inl UnboundLocalError)) as ->; [|done].
    unfold restore_one.
    destruct Hbad as [[e ->]|[e He]]; [done|].
    destruct (subscript last "new_location"); [done|]. by rewrite He.
  - intros op e n path s0 Hop. unfold restore_one.
    destruct Hop as [->|[[src ->] ->]]; reflexivity.
Qed.

Lemma restore_ill_shaped_record_witness :
  restore_files None (start desk_broken_record)
  = (say (MsgRestoreError UnboundLocalError) (start desk_broken_record), inr tt).
Proof.
  apply (restore_ill_shaped_record None (start desk_broken_record)
           (JObj
              [ ("timestamp", JStr "2024-05-01T12:00:00");
                ("operations",
                 JArr [ record_json
                          {| original := "/home/u/Desktop/a.jpg";
                             new_location := "/home/u/Desktop/图片/a.jpg" |};
                        JObj [("original", JStr "/home/u/Desktop/b.txt")] ]);
                ("desktop_path", JStr "/home/u/Desktop") ])
           [ record_json
               {| original := "/home/u/Desktop/a.jpg";
                  new_location := "/home/u/Desktop/图片/a.jpg" |} ]
           (JObj [("original", JStr "/home/u/Desktop/b.txt")])).
  - reflexivity.
  - reflexivity.
  - reflexivity.
  - left. by exists KeyError.
Defined.


Section RestoreEdge.
Context {L : Lower}.
Implicit Types s : state posix_world.
Implicit Types fs : gmap string node.

(** the calls of [restore_files] leave the home directory where it is *)
Lemma restore_one_home op r s :
  home (world (restore_one op r s).1) = home (world s).
Proof.
  assert (∀ r' e s0, home (world (restore_failed r' e s0).1) = home (world s0))
    as Hfail.
  { intros r' e s0. unfold restore_failed. destruct (dst r') as [d|]; [|done].
    unfold bind, lift, print, ret. by destruct (as_path d). }
  assert (∀ f s0, home (world (in_world (Posix.on_files f (world s0)).1 s0))
                  = home (world s0)) as Hon.
  { intros f s0. cbn [in_world world]. unfold Posix.on_files.
    by destruct (f (files (world s0))). }
  unfold restore_one.
  destruct (subscript op "new_location") as [e|src]; [apply Hfail|].
  destruct (subscript op "original") as [e|d]; [apply Hfail|].
  unfold try_catch, restore_move, bind at 1, bind at 1, lift at 1.
  destruct (as_path d) as [e|dst_path] eqn:Hd; [apply Hfail|].
  unfold bind at 1, call. cbn [os_makedirs os_move os_exists posix].
  set (s1 := in_world (Posix.on_files (Posix.makedirs (dirname dst_path))
                         (world s)).1 s).
  assert (home (world s1) = home (world s)) as Hs1 by apply Hon.
  destruct (Posix.on_files _ (world s)).2 as [e|];
    [by rewrite Hfail|].
  unfold bind at 1, lift at 1.
  destruct (as_path src) as [e|src_path]; [by rewrite Hfail|].
  unfold bind at 1, ask. destruct (Posix.exists_ src_path (files (world s1))).
  - unfold bind at 1.
    set (s2 := in_world (Posix.on_files (Posix.move src_path dst_path)
                           (world s1)).1 s1).
    assert (home (world s2) = home (world s)) as Hs2.
    { unfold s2. by rewrite Hon. }
    destruct (Posix.on_files _ (world s1)).2 as [e|]; [by rewrite Hfail|].
    unfold bind, print, ret. cbn [fst say world]. done.
  - unfold bind, print, ret. cbn [fst say world]. done.
Qed.

Lemma restore_loop_home ops : ∀ r s,
  home (world (restore_loop ops r s).1) = home (world s).
Proof.
  induction ops as [|op ops IH]; intros r s; [done|].
  cbn [restore_loop]. unfold bind.
  pose proof (restore_one_home op r s) as H1.
  destruct (restore_one op r s) as [s1 [e|r1]]; cbn [fst] in *; [done|].
  by rewrite IH.
Qed.

(** what [restore_files] has done when its last word is the count *)
Lemma restore_files_done log_path s s' r n m :
  restore_files log_path s = (s', r) →
  last (output s') = Some (MsgRestoreDone n m) →
  ∃ fs1,
    files (world s') = (Posix.remove (resolved log_path (world s)) fs1).1
    ∧ (Posix.remove (resolved log_path (world s)) fs1).2 = None
    ∧ home (world s') = home (world s).
Proof.
  rewrite restore_files_unfold.
  destruct (os_exists _ (world s)).
  2:{ intros [= <- _]. cbn [say output]. by rewrite last_snoc. }
  unfold try_catch.
  assert (∀ e s0, last (output (restore_aborted e s0).1)
                  ≠ Some (MsgRestoreDone n m)) as Hab.
  { intros e s0. destruct e; cbn [restore_aborted print fst say output];
      by rewrite last_snoc. }
  set (lp := resolved log_path (world s)).
  unfold restore_from, bind at 1, query.
  destruct (os_load lp (world s)) as [e|doc].
  { intros E Hlast. destruct (Hab e s). by rewrite E. }
  unfold bind at 1, lift at 1.
  destruct (get_operations doc) as [e|operations].
  { intros E Hlast. destruct (Hab e s). by rewrite E. }
  destruct (truthy operations); cbn [negb].
  2:{ unfold print. intros [= <- _]. cbn [say output]. by rewrite last_snoc. }
  unfold bind at 1, lift at 1.
  destruct (has_len operations) as [e|[]].
  { intros E Hlast. destruct (Hab e s). by rewrite E. }
  unfold bind at 1, lift at 1.
  destruct (reversed operations) as [e|ops].
  { intros E Hlast. destruct (Hab e s). by rewrite E. }
  unfold bind at 1.
  pose proof (restore_loop_home ops {| success_count := 0; dst := None |} s)
    as Hhome.
  destruct (restore_loop ops _ s) as [s1 [e|r1]]; cbn [fst] in Hhome.
  { intros E Hlast. destruct (Hab e s1). by rewrite E. }
  unfold bind, call, print. cbn [os_remove posix]. rewrite on_files_snd.
  destruct (Posix.remove lp (files (world s1))).2 as [e|] eqn:Hrm.
  { intros E Hlast. destruct (Hab e (in_world (Posix.on_files (Posix.remove lp)
                                               (world s1)).1 s1)).
    by rewrite E. }
  intros [= <- _] _. exists (files (world s1)).
  cbn [say world in_world]. rewrite on_files_fst. split_and!; [done|done|].
  unfold Posix.on_files. by destruct (Posix.remove lp (files (world s1))).
Qed.
End RestoreEdge.

(** X19.  [restore_files] does not ask before it writes: when a new
    file has taken the original place of a recorded file, the recorded
    file is moved over it, the new file is lost, and the move counts as
    a success. *)
Theorem restore_overwrites_newer_file (d : string) (r : MoveRecord)
    (s : state posix_world) (n : nat) (x y : content) (g : string) :
  let fs := files (world s) in
  is_dir_path d = true → fs !! d = Some Dir → is_Some (fs !! dirname d) →
  is_name g = true → original r = join d g →
  fs !! new_location r = Some (File x) →
  fs !! original r = Some (File y) →
  restore_record r (s, n) =
  (say (MsgRestored g)
     (in_world (Posix.with_files (world s)
                  (<[original r := File x]> (delete (new_location r) fs))) s),
   n + 1).
Proof.
  intros fs Hd Hdir Hparent Hg Ho Hnew Hold.
  assert (has_char sep g = false) as Hgs by (by apply is_name_spec in Hg as [_ ?]).
  assert (dirname (original r) = d) as Hdn.
  { rewrite Ho, (join_name d g) by done. by apply dirname_child. }
  assert (basename (original r) = g) as Hbn.
  { rewrite Ho, (join_name d g) by done. by apply basename_child. }
  assert (os_makedirs d (world s) = (world s, None)) as Hmk.
  { cbn [os_makedirs posix]. unfold Posix.on_files. fold fs.
    rewrite (makedirs_existing d fs Hd Hdir Hparent).
    unfold Posix.with_files, fs. by destruct (world s). }
  assert (os_exists (new_location r) (world s) = true) as Hex.
  { cbn [os_exists posix]. apply exists_true. fold fs. by rewrite Hnew. }
  assert (os_move (new_location r) (original r) (world s)
          = (Posix.with_files (world s)
               (<[original r := File x]> (delete (new_location r) fs)), None))
    as Hmv.
  { cbn [os_move posix]. unfold Posix.on_files. fold fs.
    assert (Posix.move (new_location r) (original r) fs
            = (<[original r := File x]> (delete (new_location r) fs), None))
      as ->; [|done].
    unfold Posix.move, Posix.isdir, Posix.rename. rewrite Hold, Hnew.
    assert (Posix.parent_error (original r) fs = None) as ->; [|done].
    rewrite Ho. by apply parent_of_child. }
  unfold restore_record. rewrite Hdn, Hbn, Hmk. cbn [fst snd].
  by rewrite Hex, Hmv.
Qed.

Lemma restore_overwrites_newer_file_witness :
  files (world
    (restore_record {| original := "/home/u/Desktop/a.jpg";
                       new_location := "/home/u/Desktop/图片/a.jpg" |}
       (start desk_retaken, 0)).1)
    !! "/home/u/Desktop/a.jpg"
  = Some (File (Raw "A"))
  ∧ files desk_retaken !! "/home/u/Desktop/a.jpg" = Some (File (Raw "newer")).
Proof.
  split; [|reflexivity].
  rewrite (restore_overwrites_newer_file "/home/u/Desktop"
             {| original := "/home/u/Desktop/a.jpg";
                new_location := "/home/u/Desktop/图片/a.jpg" |}
             (start desk_retaken) 0 (Raw "A") (Raw "newer") "a.jpg").
  - cbn [fst say in_world world Posix.with_files files original].
    apply lookup_insert_eq.
  - reflexivity.
  - reflexivity.
  - by eexists.
  - reflexivity.
  - reflexivity.
  - reflexivity.
  - reflexivity.
Defined.

(** X20.  Once [restore_files] has gone through a log and given its
    count, the log is gone: a second call finds no log, says so, and
    changes nothing. *)
Theorem restore_twice_finds_no_log (log_path : option string)
    (s s' : state posix_world) (r : exn + unit) (n m : nat) :
  restore_files log_path s = (s', r) →
  last (output s') = Some (MsgRestoreDone n m) →
  restore_files log_path s' = (say MsgNoLog s', inr tt).
Proof.
  intros Hrun Hlast.
  destruct (restore_files_done log_path s s' r n m Hrun Hlast)
    as (fs1 & Hfs & Hok & Hhome).
  assert (resolved log_path (world s') = resolved log_path (world s)) as Hlp.
  { unfold resolved, default_log_path. cbn [os_home posix]. by rewrite Hhome. }
  rewrite restore_files_unfold, Hlp. cbn [os_exists posix]. rewrite Hfs.
  assert (Posix.exists_ (resolved log_path (world s))
            (Posix.remove (resolved log_path (world s)) fs1).1 = false) as ->;
    [|done].
  apply exists_false. revert Hok. unfold Posix.remove.
  destruct (fs1 !! resolved log_path (world s)) as [[c|]|]; try done.
  intros _. apply lookup_delete_eq.
Qed.

Lemma restore_twice_finds_no_log_witness :
  restore_files None (restore_files None (start desk_scenario_c)).1
  = (say MsgNoLog (restore_files None (start desk_scenario_c)).1, inr tt).
Proof.
  apply (restore_twice_finds_no_log None (start desk_scenario_c) _
           (restore_files None (start desk_scenario_c)).2 0 1).
  - apply surjective_pairing.
  - vm_compute. reflexivity.
Defined.

(** X21.  [restore_files] makes the directory a file came from when it
    is gone: with the directory above it still there, the directory is
    made again and the file is put back into it. *)
Theorem restore_makes_missing_directory (d0 c g : string) (r : MoveRecord)
    (s : state posix_world) (n : nat) (x : content) :
  let fs := files (world s) in
  is_dir_path d0 = true → fs !! d0 = Some Dir →
  is_name c = true → fs !! join d0 c = None →
  is_name g = true → original r = join (join d0 c) g →
  fs !! original r = None →
  fs !! new_location r = Some (File x) →
  restore_record r (s, n) =
  (say (MsgRestored g)
     (in_world
        (Posix.with_files (world s)
           (<[original r := File x]>
              (delete (new_location r) (<[join d0 c := Dir]> fs)))) s),
   n + 1).
Proof.
  intros fs Hd0 Hdir Hc Hgone Hg Ho Hold Hnew.
  pose proof (join_name_dir_path d0 c Hd0 Hc) as Hd.
  assert (has_char sep g = false) as Hgs by (by apply is_name_spec in Hg as [_ ?]).
  assert (dirname (original r) = join d0 c) as Hdn.
  { rewrite Ho, (join_name (join d0 c) g) by done. by apply dirname_child. }
  assert (basename (original r) = g) as Hbn.
  { rewrite Ho, (join_name (join d0 c) g) by done. by apply basename_child. }
  set (fs1 := <[join d0 c := Dir]> fs).
  assert (os_makedirs (join d0 c) (world s)
          = (Posix.with_files (world s) fs1, None)) as Hmk.
  { cbn [os_makedirs posix]. unfold Posix.on_files. fold fs.
    by rewrite (makedirs_child d0 c fs Hd0 Hc Hdir), Hgone. }
  assert (fs1 !! new_location r = Some (File x)) as Hnew1.
  { unfold fs1. rewrite lookup_insert_ne; [done|]. congruence. }
  assert (fs1 !! original r = None) as Hold1.
  { unfold fs1. rewrite lookup_insert_ne; [done|].
    rewrite Ho, (join_name (join d0 c) g) by done. apply child_not_self. }
  assert (os_exists (new_location r) (Posix.with_files (world s) fs1) = true)
    as Hex.
  { cbn [os_exists posix Posix.with_files files]. apply exists_true.
    by rewrite Hnew1. }
  assert (os_move (new_location r) (original r) (Posix.with_files (world s) fs1)
          = (Posix.with_files (world s)
               (<[original r := File x]> (delete (new_location r) fs1)), None))
    as Hmv.
  { cbn [os_move posix]. unfold Posix.on_files.
    cbn [Posix.with_files files home clock].
    rewrite (move_to_free _ _ _ x Hnew1 Hold1).
    assert (Posix.parent_error (original r) fs1 = None) as ->; [|done].
    rewrite Ho. apply parent_of_child; [done..|]. apply lookup_insert_eq. }
  unfold restore_record. rewrite Hdn, Hbn, Hmk. cbn [fst snd].
  by rewrite Hex, Hmv.
Qed.

Lemma restore_makes_missing_directory_witness :
  let record := {| original := "/home/u/Desktop/a.jpg";
                   new_location := "/home/u/图片/a.jpg" |} in
  files home_without_desktop !! "/home/u/Desktop" = None
  ∧ files (world (restore_record record (start home_without_desktop, 0)).1)
      !! "/home/u/Desktop" = Some Dir
  ∧ files (world (restore_record record (start home_without_desktop, 0)).1)
      !! "/home/u/Desktop/a.jpg" = Some (File (Raw "A")).
Proof.
  intros record.
  pose proof (restore_makes_missing_directory "/home/u" "Desktop" "a.jpg"
                record (start home_without_desktop) 0 (Raw "A")) as Hw.
  cbv zeta in Hw. rewrite Hw; try reflexivity.
  split_and!; reflexivity.
Defined.


(** ** The closing lines of a run *)

Section ClosingFacts.
Context {L : Lower}.
Context {W : Type} `{OS W}.
Implicit Types s : state W.

Lemma make_folders_output d cats : ∀ s,
  output (make_folders d cats s).1 = output s.
Proof.
  induction cats as [|[c e] cats IH]; intros s; [done|].
  cbn [make_folders]. unfold bind, call.
  destruct (os_makedirs _ (world s)).2; [done|]. by rewrite IH.
Qed.

Lemma no_failure_filter (msgs : list msg) :
  existsb is_failure msgs = false ↔ List.filter is_failure msgs = [].
Proof.
  induction msgs as [|m msgs IH]; [done|]. cbn [existsb List.filter].
  destruct (is_failure m); cbn [orb]; [done|apply IH].
Qed.
End ClosingFacts.

(** X22.  The closing lines of a run that returns are true to what
    happened, whatever the operating system does: after the line that
    announces the number of files come exactly that many lines, one per
    file; the count in the last line is the number of those that are no
    failure reports; and the warning about skipped or failed files is
    printed exactly when one of them is a failure report. *)
Theorem closing_lines_add_up {L : Lower} {W : Type} `{OS W} (config : Configuration)
    (desktop_path : string) (all_items : list string) (s s' : state W) :
  organize_listed config desktop_path all_items s = (s', inr tt) →
  ∃ total_files count msgs saved,
    output s'
    = output s ++ MsgStart total_files :: msgs ++ saved
        ++ MsgDone count total_files
        :: (if existsb is_failure msgs then [MsgAttention] else [])
    ∧ List.length msgs = total_files
    ∧ count + List.length (List.filter is_failure msgs) = total_files
    ∧ (saved = [] ∨ saved = [MsgLogSaved (join desktop_path log_name)]).
Proof.
  unfold organize_listed, bind at 1, organize_moves, bind at 1, ask.
  set (names := listed_files config desktop_path all_items (world s)).
  unfold bind at 1.
  pose proof (make_folders_output desktop_path (categories config) s) as Hmk.
  destruct (make_folders _ _ s) as [s2 [e|[]]]; [done|]. cbn [fst] in Hmk.
  unfold bind at 1, now. unfold bind at 1, print. unfold bind at 1.
  set (s3 := say (MsgStart (List.length names))
               (in_world (os_now (world s2)).1 s2)).
  destruct (organize_loop_outcome config desktop_path (List.length names) names
              {| processed := 0; operations := [] |} s3)
    as (s4 & p & msgs & -> & Hout & Hlen & Hcount).
  cbn [processed] in Hcount. unfold ret.
  assert (output s4 = output s ++ MsgStart (List.length names) :: msgs) as Hs4.
  { rewrite Hout. unfold s3. cbn [say output in_world].
    by rewrite Hmk, <- app_assoc. }
  assert ((processed p <? List.length names)%nat = existsb is_failure msgs)
    as Hwarn.
  { destruct (existsb is_failure msgs) eqn:E.
    - apply Nat.ltb_lt.
      destruct (List.filter is_failure msgs) eqn:F; [|cbn in Hcount; lia].
      apply no_failure_filter in F. congruence.
    - apply no_failure_filter in E. rewrite E in Hcount. cbn in Hcount.
      apply Nat.ltb_ge. lia. }
  unfold organize_report, bind at 1.
  destruct (backup_log config && negb (bool_decide (operations p = []))).
  - unfold bind at 1, call.
    destruct (os_dump _ _ (world s4)).2 as [e|]; [done|].
    unfold print, bind. rewrite Hwarn.
    intros E. exists (List.length names), (processed p), msgs,
      [MsgLogSaved (join desktop_path log_name)].
    split_and!; [|done|done|by right].
    destruct (existsb is_failure msgs); injection E as <-;
      cbn [say output in_world]; rewrite Hs4;
      by rewrite <- !app_assoc.
  - unfold ret, print, bind. rewrite Hwarn.
    intros E. exists (List.length names), (processed p), msgs, [].
    split_and!; [|done|done|by left].
    destruct (existsb is_failure msgs); injection E as <-;
      cbn [say output in_world]; rewrite Hs4;
      by rewrite <- !app_assoc.
Qed.

Lemma closing_lines_add_up_witness :
  ∃ total_files count msgs saved,
    output (organize_listed default_configuration "/home/u/Desktop"
              ["c.xyz"; "a.jpg"; "图片"; "其他"] (start desk_blocked)).1
    = MsgStart total_files :: msgs ++ saved
        ++ MsgDone count total_files
        :: (if existsb is_failure msgs then [MsgAttention] else [])
    ∧ count + List.length (List.filter is_failure msgs) = total_files.
Proof.
  set (run := organize_listed default_configuration "/home/u/Desktop"
                ["c.xyz"; "a.jpg"; "图片"; "其他"] (start desk_blocked)).
  assert (run = (run.1, inr tt)) as Hrun.
  { vm_compute. reflexivity. }
  destruct (closing_lines_add_up default_configuration "/home/u/Desktop"
              ["c.xyz"; "a.jpg"; "图片"; "其他"] (start desk_blocked) run.1 Hrun)
    as (total_files & count & msgs & saved & Hout & _ & Hcount & _).
  exists total_files, count, msgs, saved. split; [exact Hout|exact Hcount].
Defined.

(** ** The loader and the dictionaries it shares *)

Section ShareFacts.
Context {L : Lower}.
Implicit Types store : gmap nat (list (string * json)).
Implicit Types config : list (string * value).

Lemma dict_set_prefix {V} key (v : V) (d : list (string * V)) :
  d.*1 `prefix_of` (dict_set key v d).*1.
Proof.
  rewrite dict_set_keys. case_decide; [done|]. by apply prefix_app_r.
Qed.

Lemma dict_merge_prefix {V} (o : list (string * V)) : ∀ d,
  d.*1 `prefix_of` (dict_merge d o).*1.
Proof.
  unfold dict_merge. induction o as [|[k v] o IH]; intros d; [done|].
  cbn [fold_left fst snd]. etrans; [apply (dict_set_prefix k v)|apply IH].
Qed.

Lemma update_items_prefix items : ∀ d,
  d.*1 `prefix_of` (update_items d items).1.*1.
Proof.
  induction items as [|item items IH]; intros d; [done|].
  cbn [update_items].
  destruct item as [|b|n|t|l|kv]; try done.
  destruct l as [|k [|v [|v' l]]]; try done; [by destruct k| |by destruct k].
  destruct k as [|b|n|key|l'|kv]; try done.
  etrans; [apply (dict_set_prefix key v)|apply IH].
Qed.

(** [dict.update] removes no key and moves none, whatever it is given
    and whether or not it raises *)
Lemma dict_update_prefix d other : d.*1 `prefix_of` (dict_update d other).1.*1.
Proof.
  destruct other as [|b|n|t|items|kv]; try done.
  - by destruct t.
  - apply update_items_prefix.
  - apply dict_merge_prefix.
Qed.

Lemma merge_config_store_keys user_config : ∀ store config l d,
  store !! l = Some d →
  ∃ d', (merge_config user_config store config).1.1 !! l = Some d'
        ∧ d.*1 `prefix_of` d'.*1.
Proof.
  induction user_config as [|[key uv] rest IH]; intros store config l d Hl.
  { by exists d. }
  cbn [merge_config].
  destruct (dict_get key config) as [[j|l']|].
  - destruct j; try by apply IH.
    destruct (dict_update fields uv) as [d2 [e|]]; [by exists d|by apply IH].
  - pose proof (dict_update_prefix (default [] (store !! l')) uv) as Hpre.
    destruct (dict_update _ uv) as [d2 r]. cbn [fst] in Hpre.
    assert (∃ d1, <[l' := d2]> store !! l = Some d1 ∧ d.*1 `prefix_of` d1.*1)
      as (d1 & Hd1 & Hpre1).
    { destruct (decide (l' = l)) as [->|Hne].
      - exists d2. rewrite lookup_insert_eq. split; [done|].
        by rewrite Hl in Hpre.
      - exists d. by rewrite lookup_insert_ne. }
    destruct r as [e|]; [by exists d1|].
    destruct (IH (<[l' := d2]> store) config l d1 Hd1) as (d' & Hd' & Hpre').
    exists d'. split; [done|by etrans].
  - by apply IH.
Qed.

(** a dictionary that already holds what an update gives stays as it is *)
Lemma dict_set_same {V} key (v : V) (d : list (string * V)) :
  dict_get key d = Some v → dict_set key v d = d.
Proof.
  induction d as [|[k' v'] d IH]; [done|]. cbn [dict_get dict_set].
  destruct (String.eqb key k'); [by intros [= ->]|].
  intros Hget. by rewrite IH.
Qed.

Lemma dict_merge_same {V} (o : list (string * V)) : ∀ d,
  (∀ k v, (k, v) ∈ o → dict_get k d = Some v) → dict_merge d o = d.
Proof.
  unfold dict_merge. induction o as [|[k v] o IH]; intros d Hall; [done|].
  cbn [fold_left fst snd]. rewrite dict_set_same by (apply Hall; left).
  apply IH. intros k' v' Hin. apply Hall. by right.
Qed.

Lemma dict_merge_idem {V} (d o : list (string * V)) :
  NoDup o.*1 → dict_merge (dict_merge d o) o = dict_merge d o.
Proof.
  intros Hnd. apply dict_merge_same. intros k v Hin.
  rewrite dict_merge_get by done. by rewrite (dict_get_NoDup k v o).
Qed.

(** dictionaries with the same keys in the same order and the same
    values are the same *)
Lemma dict_ext {V} (a : list (string * V)) : ∀ b,
  NoDup a.*1 → a.*1 = b.*1 → (∀ k, dict_get k a = dict_get k b) → a = b.
Proof.
  induction a as [|[k v] a IH]; intros [|[k' v'] b] Hnd Hkeys Hget; try done.
  cbn in Hnd, Hkeys. apply NoDup_cons in Hnd as [Hk Hnd].
  injection Hkeys as <- Hkeys.
  pose proof (Hget k) as Hv. cbn [dict_get] in Hv.
  rewrite String.eqb_refl in Hv. injection Hv as <-. f_equal.
  apply IH; [done..|]. intros k0. specialize (Hget k0). cbn [dict_get] in Hget.
  destruct (String.eqb_spec k0 k) as [E|Hne]; [|done]. rewrite E.
  apply dict_get_None in Hk as Ha. rewrite Ha. symmetry.
  apply dict_get_None. by rewrite <- Hkeys.
Qed.

Lemma fold_set_keys_any {V U} (f g : string * U → V) (uc : list (string * U)) :
  ∀ (a b : list (string * V)),
    a.*1 = b.*1 →
    (fold_left (fun acc kv => dict_set kv.1 (f kv) acc) uc a).*1
    = (fold_left (fun acc kv => dict_set kv.1 (g kv) acc) uc b).*1.
Proof.
  induction uc as [|kv uc IH]; intros a b Hab; [done|].
  cbn [fold_left]. apply IH. by rewrite !dict_set_keys, Hab.
Qed.

Lemma fold_set_NoDup {V U} (f : string * U → V) (uc : list (string * U)) :
  ∀ (a : list (string * V)),
    NoDup a.*1 →
    NoDup (fold_left (fun acc kv => dict_set kv.1 (f kv) acc) uc a).*1.
Proof.
  induction uc as [|kv uc IH]; intros a Ha; [done|].
  cbn [fold_left]. apply IH. by apply dict_set_NoDup.
Qed.

Lemma fold_set_lookup {V U} (f : string * U → V) (uc : list (string * U)) :
  ∀ (a : list (string * V)) key,
    NoDup uc.*1 →
    dict_get key (fold_left (fun acc kv => dict_set kv.1 (f kv) acc) uc a)
    = match dict_get key uc with
      | Some u => Some (f (key, u))
      | None => dict_get key a
      end.
Proof.
  induction uc as [|[k u] uc IH]; intros a key Hnd; [done|].
  cbn in Hnd. apply NoDup_cons in Hnd as [Hk Hnd].
  cbn [fold_left dict_get fst snd]. rewrite IH by done.
  destruct (String.eqb_spec key k) as [->|Hne].
  - apply dict_get_None in Hk as ->. by rewrite dict_get_set_eq.
  - destruct (dict_get key uc); [done|]. by rewrite dict_get_set_ne.
Qed.
End ShareFacts.

(** X23.  A configuration file that holds a JSON object cannot take a
    category out of the shared dictionary or change the order of the
    categories that are in it, and neither can a file that is missing or
    cannot be read or parsed: whatever the object holds and whether or
    not the merge goes through, the categories that were there come
    first, in the order they had.  With the rule of the first match this
    order decides where a file goes. *)
Theorem categories_stay_in_front (file : config_file)
    (store : gmap nat (list (string * json))) (d : list (string * json)) :
  store !! categories_loc = Some d →
  ∃ d', (load_config file store).1.1 !! categories_loc = Some d'
        ∧ d.*1 `prefix_of` d'.*1.
Proof.
  intros Hd. destruct file as [|e|user_config]; [by exists d|by exists d|].
  unfold load_config.
  destruct (merge_config_store_keys user_config store DEFAULT_CONFIG
              categories_loc d Hd) as (d' & Hd' & Hpre).
  exists d'. by destruct (merge_config user_config store DEFAULT_CONFIG) as [[s c] r].
Qed.

Lemma categories_stay_in_front_witness :
  ∃ d', (load_config
           (ConfigFile [("categories",
                         JArr [ JArr [JStr "照片"; jstrs [".heic"]]; JNum 7 ])])
           initial_store).1.1 !! categories_loc = Some d'
        ∧ default_categories.*1 `prefix_of` d'.*1.
Proof.
  apply (categories_stay_in_front
           (ConfigFile [("categories",
                         JArr [ JArr [JStr "照片"; jstrs [".heic"]]; JNum 7 ])])
           initial_store default_categories).
  reflexivity.
Defined.

(** X24.  Loading the same file a second time changes nothing more: for
    an override that gives a mapping wherever the default has one, the
    second call gives no warning and returns the configuration the first
    call returned, although it starts from the dictionary the first call
    has changed. *)
Theorem load_config_twice (store : gmap nat (list (string * json)))
    (user_config : list (string * json)) :
  NoDup user_config.*1 →
  (∀ key o, (key, JObj o) ∈ user_config → NoDup o.*1) →
  mergeable (view store DEFAULT_CONFIG) user_config →
  let first := load_config (ConfigFile user_config) store in
  let again := load_config (ConfigFile user_config) first.1.1 in
  first.2 = [] ∧ again.2 = []
  ∧ view again.1.1 again.1.2 = view first.1.1 first.1.2.
Proof.
  intros Hnd Hobj Hm first again.
  set (D0 := view store DEFAULT_CONFIG) in *.
  destruct (merge_config_refines D0 user_config store DEFAULT_CONFIG Hnd
              DEFAULT_CONFIG_wf (fun _ _ => eq_refl) Hm)
    as (s1 & c1 & Hrun1 & Hview1).
  assert (first = (s1, c1, [])) as Hfirst.
  { unfold first, load_config. by rewrite Hrun1. }
  set (D1 := view s1 DEFAULT_CONFIG).
  set (d := default [] (store !! categories_loc)) in *.
  set (d1 := default [] (s1 !! categories_loc)) in *.
  assert (D0 = [ ("skip_files", jstrs [".ini"; ".db"; ".tmp"; "~$"]);
                 ("backup_log", JBool true); ("categories", JObj d) ]) as HD0
    by done.
  assert (D1 = [ ("skip_files", jstrs [".ini"; ".db"; ".tmp"; "~$"]);
                 ("backup_log", JBool true); ("categories", JObj d1) ]) as HD1
    by done.
  (* what the first call left in the shared dictionary *)
  assert (JObj d1 =
          match dict_get "categories" user_config with
          | Some uv => merge_value_spec (Some (JObj d)) uv
          | None => JObj d
          end) as Hd1.
  { pose proof (merge_config_keeps_ref user_config store DEFAULT_CONFIG
                  "categories" categories_loc eq_refl) as Hk.
    rewrite Hrun1 in Hk. cbn [fst snd] in Hk.
    pose proof (view_get s1 "categories" c1) as Hg.
    rewrite Hk, Hview1 in Hg. cbn [fmap option_fmap option_map deref] in Hg.
    rewrite (fold_set_lookup
               (fun kv => merge_value_spec (dict_get kv.1 D0) kv.2)) in Hg
      by done.
    cbn [fst snd] in Hg. fold d1 in Hg.
    destruct (dict_get "categories" user_config) as [uv|].
    - rewrite HD0 in Hg. cbn [dict_get String.eqb Ascii.eqb Bool.eqb] in Hg.
      by injection Hg as Hg.
    - cbn in Hg. injection Hg as Hg. by rewrite <- Hg. }
  assert (mergeable D1 user_config) as Hm1.
  { intros key d' uv Hin Hget. rewrite HD1 in Hget.
    cbn [dict_get] in Hget.
    destruct (String.eqb key "skip_files"); [done|].
    destruct (String.eqb key "backup_log"); [done|].
    destruct (String.eqb_spec key "categories") as [->|_]; [|done].
    apply (Hm "categories" d uv Hin). by rewrite HD0. }
  destruct (merge_config_refines D1 user_config s1 DEFAULT_CONFIG Hnd
              DEFAULT_CONFIG_wf (fun _ _ => eq_refl) Hm1)
    as (s2 & c2 & Hrun2 & Hview2).
  assert (again = (s2, c2, [])) as Hagain.
  { unfold again. rewrite Hfirst. cbn [fst snd]. unfold load_config.
    by rewrite Hrun2. }
  rewrite Hagain, Hfirst. cbn [fst snd]. split_and!; [done|done|].
  rewrite Hview2, Hview1. fold D1 D0.
  assert (D1.*1 = D0.*1) as Hkeys by (by rewrite HD0, HD1).
  apply dict_ext.
  - apply fold_set_NoDup. rewrite HD1. by apply (bool_decide_unpack _).
  - by apply fold_set_keys_any.
  - intros key.
    rewrite (fold_set_lookup
               (fun kv => merge_value_spec (dict_get kv.1 D1) kv.2)) by done.
    rewrite (fold_set_lookup
               (fun kv => merge_value_spec (dict_get kv.1 D0) kv.2)) by done.
    cbn [fst snd].
    assert (∀ k, k ≠ "categories" → dict_get k D1 = dict_get k D0) as Hother.
    { intros k Hk. rewrite HD0, HD1. cbn [dict_get].
      destruct (String.eqb k "skip_files"); [done|].
      destruct (String.eqb k "backup_log"); [done|].
      by destruct (String.eqb_spec k "categories"). }
    destruct (decide (key = "categories")) as [->|Hne].
    + destruct (dict_get "categories" user_config) as [uv|] eqn:Huv.
      * destruct (Hm "categories" d uv) as [o ->].
        { by apply dict_get_elem. }
        { by rewrite HD0. }
        rewrite HD0, HD1. cbn [dict_get String.eqb Ascii.eqb Bool.eqb].
        cbn [merge_value_spec] in Hd1 |- *. injection Hd1 as ->.
        f_equal. f_equal. apply dict_merge_idem.
        apply (Hobj "categories"). by apply dict_get_elem.
      * rewrite HD0, HD1. cbn [dict_get String.eqb Ascii.eqb Bool.eqb].
        by rewrite Hd1.
    + destruct (dict_get key user_config); by rewrite (Hother key Hne).
Qed.

Lemma load_config_twice_witness :
  let user_config :=
    [ ("skip_files", jstrs [".bak"]);
      ("categories", JObj [("图片", jstrs [".heic"]); ("字体", jstrs [".ttf"])]) ] in
  let first := load_config (ConfigFile user_config) initial_store in
  let again := load_config (ConfigFile user_config) first.1.1 in
  first.1.1 ≠ initial_store
  ∧ again.2 = []
  ∧ view again.1.1 again.1.2 = view first.1.1 first.1.2.
Proof.
  intros user_config first again.
  destruct (load_config_twice initial_store user_config) as (_ & Hquiet & Hsame).
  - by apply (bool_decide_unpack _).
  - intros key o Hin. unfold user_config, jstrs in Hin.
    apply elem_of_cons in Hin as [Hin|Hin]; [discriminate Hin|].
    apply elem_of_cons in Hin as [Hin|Hin]; [|by apply elem_of_nil in Hin].
    injection Hin as _ ->. by apply (bool_decide_unpack _).
  - intros key d uv Hin Hd. unfold user_config in Hin.
    repeat (apply elem_of_cons in Hin as [[= -> ->]|Hin]);
      [discriminate Hd|by eexists|by apply elem_of_nil in Hin].
  - split_and!; [|exact Hquiet|exact Hsame].
    intros E. apply (f_equal (fun m => m !! categories_loc)) in E.
    vm_compute in E. discriminate E.
Defined.

(** ** Where a run can raise, and what the folder for the rest loses *)

Section EscapeFacts.
Context {L : Lower}.
Context {W : Type} `{OS W}.
Implicit Types s : state W.

End EscapeFacts.



(** X26.  The folder for the rest has no handling of names that are
    taken: a file that no category takes is moved over a file of its
    name that lies there already, which is lost, and the move is counted
    and recorded like any other. *)
Theorem others_collision_overwrites {L : Lower} (config : Configuration) (d : string)
    (total : nat) (g : string) (p : progress) (s : state posix_world)
    (x y : content) :
  let fs := files (world s) in
  let src := join d g in
  let dst := join (join d others) g in
  is_dir_path d = true → is_name g = true →
  fs !! d = Some Dir → fs !! join d others = Some Dir →
  classify config g = None →
  fs !! src = Some (File x) → fs !! dst = Some (File y) →
  organize_one config d total g p s
  = (say (MsgUncategorized (processed p + 1) total g)
       (in_world (Posix.with_files (world s)
                    (<[dst := File x]> (delete src fs))) s),
     inr (moved_one config src dst p)).
Proof.
  intros fs src dst Hd Hg Hdir Hothers Hnone Hsrc Hdst.
  pose proof (join_name_dir_path d others Hd others_is_name) as Hdo.
  assert (os_makedirs (join d others) (world s) = (world s, None)) as Hmk.
  { cbn [os_makedirs posix]. unfold Posix.on_files. fold fs.
    rewrite (makedirs_child d others fs Hd others_is_name Hdir), Hothers.
    unfold Posix.with_files, fs. by destruct (world s). }
  assert (os_move src dst (world s)
          = (Posix.with_files (world s) (<[dst := File x]> (delete src fs)),
             None)) as Hmv.
  { cbn [os_move posix]. unfold Posix.on_files. fold fs.
    assert (Posix.move src dst fs = (<[dst := File x]> (delete src fs), None))
      as ->; [|done].
    unfold Posix.move, Posix.isdir, Posix.rename. rewrite Hdst, Hsrc.
    assert (Posix.parent_error dst fs = None) as ->; [|done].
    by apply parent_of_child. }
  unfold organize_one, try_catch. rewrite move_file_classify, Hnone.
  unfold move_to_others, bind at 1, call. fold src dst. rewrite Hmk.
  cbn [fst snd]. rewrite in_world_world.
  unfold bind at 1, call. rewrite Hmv. cbn [fst snd].
  unfold bind, print, ret. reflexivity.
Qed.

Lemma others_collision_overwrites_witness :
  files desk_rest_taken !! "/home/u/Desktop/其他/c.xyz"
  = Some (File (Raw "first"))
  ∧ files (world
      (organize_one default_configuration "/home/u/Desktop" 1 "c.xyz"
         {| processed := 0; operations := [] |} (start desk_rest_taken)).1)
      !! "/home/u/Desktop/其他/c.xyz"
    = Some (File (Raw "incoming")).
Proof.
  split; [reflexivity|].
  rewrite (others_collision_overwrites default_configuration "/home/u/Desktop"
             1 "c.xyz" {| processed := 0; operations := [] |}
             (start desk_rest_taken) (Raw "incoming") (Raw "first"));
    try reflexivity.
Defined.
